(** * UART bootloader and W25Q128 SPI NOR flash driver

    A shallow embedding of [uart_bootloader.c] and [w25q128.c]
    (STM32F411 firmware) together with the properties of the natural-language
    specification that concern them.

    The firmware talks to the outside world only through the STM32 HAL
    (GPIO chip-select, blocking SPI and UART transfers, the millisecond
    tick).  The HAL is modelled as a scripted environment: every HAL call
    appends one event to a log, and what the call returns (success or
    failure, the bytes clocked in from the flash, the tick value) is read
    from oracles indexed by the position of the call in that log.  Any
    behaviour of the transports and of the flash chip during one run is an
    instance of these oracles. *)

From Stdlib Require Import ZArith List Bool Lia.
From Stdlib Require Ascii String.
Import ListNotations.

Local Open Scope Z_scope.

(* ================================================================== *)
(** ** Fixed-width integers *)

Definition u8 (x : Z) : Z := x mod 256.
Definition u16 (x : Z) : Z := x mod 65536.
Definition u32 (x : Z) : Z := x mod 4294967296.

(* ================================================================== *)
(** ** Constants of [w25q128.h] and [uart_bootloader.h] *)

Definition W25Q128_CMD_WRITE_ENABLE : Z := 0x06.
Definition W25Q128_CMD_WRITE_DISABLE : Z := 0x04.
Definition W25Q128_CMD_READ_STATUS_REG1 : Z := 0x05.
Definition W25Q128_CMD_PAGE_PROGRAM : Z := 0x02.
Definition W25Q128_CMD_BLOCK_ERASE_64KB : Z := 0xD8.
Definition W25Q128_CMD_SECTOR_ERASE_4KB : Z := 0x20.
Definition W25Q128_CMD_CHIP_ERASE : Z := 0xC7.
Definition W25Q128_CMD_POWER_DOWN : Z := 0xB9.
Definition W25Q128_CMD_READ_DATA : Z := 0x03.
Definition W25Q128_CMD_RELEASE_POWER_DOWN : Z := 0xAB.
Definition W25Q128_CMD_MANUFACTURER_DEVICE_ID : Z := 0x90.
Definition W25Q128_CMD_JEDEC_ID : Z := 0x9F.

Definition W25Q128_PAGE_SIZE : Z := 256.
Definition W25Q128_SECTOR_SIZE : Z := 4096.
Definition W25Q128_TOTAL_SIZE : Z := 16 * 1024 * 1024.
Definition W25Q128_STATUS_BUSY : Z := 0x01.

Definition BOOT_START_MARKER1 : Z := 0xAA.
Definition BOOT_START_MARKER2 : Z := 0x55.
Definition BOOT_ACK : Z := 0x79.
Definition BOOT_NACK : Z := 0x1F.
Definition BOOT_CMD_WRITE : Z := 0x01.
Definition BOOT_CMD_READ : Z := 0x02.
Definition BOOT_CMD_ERASE_SECTOR : Z := 0x03.
Definition BOOT_CMD_ERASE_CHIP : Z := 0x04.
Definition BOOT_CMD_GET_INFO : Z := 0x05.
Definition BOOT_MAX_DATA_SIZE : Z := 4096.
Definition BOOT_BUFFER_SIZE : Z := 256.
Definition BOOT_TIMEOUT_MS : Z := 5000.

(** The HAL's "wait for ever". *)
Definition HAL_MAX_DELAY : Z := 0xFFFFFFFF.

Inductive W25Q128_Status_t : Set :=
| W25Q128_OK
| W25Q128_ERROR
| W25Q128_BUSY
| W25Q128_TIMEOUT.

Inductive BOOT_Status_t : Set :=
| BOOT_OK
| BOOT_ERROR
| BOOT_TIMEOUT
| BOOT_CRC_ERR.

(* ================================================================== *)
(** ** CRC-16 ([BOOT_CalculateCRC16])

    [crc] is a [uint16_t]; the shifts and XORs are computed on the promoted
    [int] and truncated by the assignment. *)

Definition crc_shift (crc : Z) : Z :=
  if Z.eqb (Z.land crc 0x8000) 0
  then u16 (Z.shiftl crc 1)
  else u16 (Z.lxor (Z.shiftl crc 1) 0x1021).

(** The inner [for (j = 0; j < 8; j++)] loop, [n] iterations left. *)
Fixpoint crc_shifts (n : nat) (crc : Z) : Z :=
  match n with
  | O => crc
  | S n' => crc_shifts n' (crc_shift crc)
  end.

Definition crc_byte (crc : Z) (b : Z) : Z :=
  crc_shifts 8 (u16 (Z.lxor crc (Z.shiftl (u16 b) 8))).

(** The outer loop visits [data[0] .. data[length-1]]. *)
Definition BOOT_CalculateCRC16 (data : list Z) (length : Z) : Z :=
  fold_left crc_byte (firstn (Z.to_nat length) data) 0xFFFF.

(** The specification's wording of CRC-16/CCITT-FALSE, kept apart from the
    code above: a 16-bit accumulator starting at 0xFFFF; each byte is XORed
    into its high byte; then eight times, if the high bit is set the
    accumulator is shifted left by one and XORed with 0x1021, else it is
    only shifted left by one. *)
Module CCITT_FALSE.

Definition init : Z := 65535.
Definition poly : Z := 4129.

Definition high_bit_set (acc : Z) : bool := Z.testbit acc 15.

Definition shift_left_one (acc : Z) : Z := (2 * acc) mod 2 ^ 16.

Definition round (acc : Z) : Z :=
  if high_bit_set acc
  then Z.lxor (shift_left_one acc) poly
  else shift_left_one acc.

Definition absorb (acc : Z) (b : Z) : Z :=
  Nat.iter 8 round (Z.lxor acc (b * 2 ^ 8)).

Definition crc16 (s : list Z) : Z := fold_left absorb s init.

(** The same CRC as the textbook shift register fed one message bit at a
    time, most significant bit of each byte first: the register is shifted
    left by one, and the polynomial is XORed in when the bit shifted out
    differs from the message bit. *)
Definition feed (acc : Z) (m : bool) : Z :=
  if xorb (high_bit_set acc) m
  then Z.lxor (shift_left_one acc) poly
  else shift_left_one acc.

Definition msb_first (b : Z) : list bool :=
  map (fun k => Z.testbit b (Z.of_nat k)) [7; 6; 5; 4; 3; 2; 1; 0]%nat.

Definition crc16_serial (s : list Z) : Z :=
  fold_left feed (flat_map msb_first s) init.

(** The top bits that [k] successive left shifts push out of [y]. *)
Fixpoint tops (k : nat) (y : Z) : list bool :=
  match k with
  | O => []
  | S k' => high_bit_set y :: tops k' (shift_left_one y)
  end.

(** Check, for one byte value, that the byte placed in the high half of
    the register leaves it msb first in eight shifts. *)
Definition byte_leaves_msb_first (b : Z) : bool :=
  (if list_eq_dec Bool.bool_dec (tops 8 (b * 2 ^ 8)) (msb_first b) then true else false)
  && (Nat.iter 8 shift_left_one (b * 2 ^ 8) =? 0).

End CCITT_FALSE.

(* ================================================================== *)
(** ** The HAL as a scripted environment

    The STM32 HAL is outside the repository.  Its calls are blocking
    transfers with a time-out and a [uint16_t] byte count.  Whether an SPI
    transfer or a serial transmission succeeds is what the environment
    decides (their time-out values are not represented).  A serial
    receive succeeds when the host has sent enough bytes; when it has
    not, a receive with a finite time-out fails, and a receive with
    [HAL_MAX_DELAY] does not return. *)

Inductive Event : Type :=
| GPIO_CS (level : bool)                 (* HAL_GPIO_WritePin on chip-select; [false] = RESET = low *)
| SPI_TX (data : list Z) (ok : bool)     (* HAL_SPI_Transmit *)
| SPI_RX (data : list Z) (ok : bool)     (* HAL_SPI_Receive *)
| UART_TX (data : list Z) (ok : bool)    (* HAL_UART_Transmit *)
| UART_RX (data : list Z) (ok : bool)    (* HAL_UART_Receive *)
| TICK (t : Z)                           (* HAL_GetTick *)
| DELAY (ms : Z).                        (* HAL_Delay *)

(** What the transports will do.  The index is the position of the HAL call
    in the log. *)
Record Env : Type := mkEnv {
  spi_ok : nat -> bool;          (* does the SPI transfer at this step succeed *)
  miso : nat -> nat -> Z;        (* i-th byte shifted in by the SPI receive at this step *)
  uart_tx_ok : nat -> bool;      (* does the UART transmit at this step succeed *)
  clock : nat -> Z               (* value of the millisecond tick read at this step *)
}.

(** Fields of [BOOT_Handle_t] that hold data (the handles themselves are
    the environment). *)
Record BOOT_Handle_t : Type := mkBoot {
  rx_buffer : list Z;
  total_bytes_written : Z;
  total_bytes_read : Z
}.

Record World : Type := mkWorld {
  env : Env;
  uart_in : list Z;              (* bytes the host has sent and the UART has not yet delivered *)
  log : list Event;              (* HAL calls so far, oldest first *)
  page_calls : list (Z * Z);     (* ghost: (address, length) of each W25Q128_WritePage call *)
  hboot : BOOT_Handle_t
}.

Definition step (w : World) : nat := length (log w).

Definition emit (e : Event) (w : World) : World :=
  mkWorld (env w) (uart_in w) (log w ++ [e]) (page_calls w) (hboot w).

Definition set_uart_in (l : list Z) (w : World) : World :=
  mkWorld (env w) l (log w) (page_calls w) (hboot w).

Definition note_page_call (c : Z * Z) (w : World) : World :=
  mkWorld (env w) (uart_in w) (log w) (page_calls w ++ [c]) (hboot w).

Definition set_hboot (h : BOOT_Handle_t) (w : World) : World :=
  mkWorld (env w) (uart_in w) (log w) (page_calls w) h.

(** Computations: a state transformer on [World]; the result is [None] when
    the call has not returned: a polling loop was cut off by its iteration
    budget (the C code would still be spinning), or a receive without
    time-out is waiting for bytes that do not come. *)
Definition M (A : Type) : Type := World -> option A * World.

Definition ret {A : Type} (a : A) : M A := fun w => (Some a, w).

Definition bind {A B : Type} (m : M A) (k : A -> M B) : M B :=
  fun w =>
    match m w with
    | (Some a, w') => k a w'
    | (None, w') => (None, w')
    end.

Definition spin {A : Type} : M A := fun w => (None, w).

Notation "x <- m ;; k" := (bind m (fun x => k))
  (at level 61, m at next level, right associativity).
Notation "m ;; k" := (bind m (fun _ => k))
  (at level 61, right associativity).

Definition HAL_GPIO_WritePin (level : bool) : M unit :=
  fun w => (Some tt, emit (GPIO_CS level) w).

Definition CS_LOW : M unit := HAL_GPIO_WritePin false.
Definition CS_HIGH : M unit := HAL_GPIO_WritePin true.

(** Returns [true] for [HAL_OK]. *)
Definition HAL_SPI_Transmit (data : list Z) : M bool :=
  fun w =>
    let ok := spi_ok (env w) (step w) in
    (Some ok, emit (SPI_TX data ok) w).

(** Returns the received bytes for [HAL_OK], [None] otherwise.  The HAL
    takes the byte count as a [uint16_t]. *)
Definition HAL_SPI_Receive (n : Z) : M (option (list Z)) :=
  fun w =>
    if spi_ok (env w) (step w)
    then
      let d := map (fun i => u8 (miso (env w) (step w) i)) (seq 0 (Z.to_nat (u16 n))) in
      (Some (Some d), emit (SPI_RX d true) w)
    else (Some None, emit (SPI_RX [] false) w).

Definition HAL_UART_Transmit (data : list Z) : M bool :=
  fun w =>
    let ok := uart_tx_ok (env w) (step w) in
    (Some ok, emit (UART_TX data ok) w).

(** The HAL takes the byte count as a [uint16_t].  The receive succeeds
    when the host has sent enough bytes.  When it has not: with a finite
    time-out the receive fails after having taken what there was; with
    [HAL_MAX_DELAY] it goes on waiting, and the call does not return
    ([uart_in] being all the host sends). *)
Definition HAL_UART_Receive (n : Z) (timeout : Z) : M (option (list Z)) :=
  fun w =>
    let k := Z.to_nat (u16 n) in
    if (k <=? length (uart_in w))%nat
    then
      let d := map u8 (firstn k (uart_in w)) in
      (Some (Some d), emit (UART_RX d true) (set_uart_in (skipn k (uart_in w)) w))
    else if timeout =? HAL_MAX_DELAY
    then (None, w)
    else
      (Some None, emit (UART_RX (map u8 (uart_in w)) false) (set_uart_in [] w)).

Definition HAL_GetTick : M Z :=
  fun w =>
    let t := u32 (clock (env w) (step w)) in
    (Some t, emit (TICK t) w).

Definition HAL_Delay (ms : Z) : M unit :=
  fun w => (Some tt, emit (DELAY ms) w).

(* ================================================================== *)
(** ** Flash driver ([w25q128.c])

    Functions with an output buffer return it next to the status; it is
    [None] when the C code left the buffer untouched. *)

Definition is_OK (s : W25Q128_Status_t) : bool :=
  match s with W25Q128_OK => true | _ => false end.

(** Opcode followed by the 24-bit address, most significant byte first. *)
Definition cmd_addr (opcode address : Z) : list Z :=
  [ opcode;
    Z.land (Z.shiftr address 16) 0xFF;
    Z.land (Z.shiftr address 8) 0xFF;
    Z.land address 0xFF ].

Definition W25Q128_ReadID : M (W25Q128_Status_t * option (Z * Z)) :=
  CS_LOW ;;
  ok <- HAL_SPI_Transmit [W25Q128_CMD_MANUFACTURER_DEVICE_ID; 0; 0; 0] ;;
  if negb ok then (CS_HIGH ;; ret (W25Q128_ERROR, None))
  else
    r <- HAL_SPI_Receive 2 ;;
    match r with
    | None => CS_HIGH ;; ret (W25Q128_ERROR, None)
    | Some data => CS_HIGH ;; ret (W25Q128_OK, Some (nth 0 data 0, nth 1 data 0))
    end.

Definition W25Q128_ReadJEDECID : M (W25Q128_Status_t * option (list Z)) :=
  CS_LOW ;;
  ok <- HAL_SPI_Transmit [W25Q128_CMD_JEDEC_ID] ;;
  if negb ok then (CS_HIGH ;; ret (W25Q128_ERROR, None))
  else
    r <- HAL_SPI_Receive 3 ;;
    match r with
    | None => CS_HIGH ;; ret (W25Q128_ERROR, None)
    | Some jedec_id => CS_HIGH ;; ret (W25Q128_OK, Some jedec_id)
    end.

Definition W25Q128_ReadStatusRegister : M (W25Q128_Status_t * option Z) :=
  CS_LOW ;;
  ok <- HAL_SPI_Transmit [W25Q128_CMD_READ_STATUS_REG1] ;;
  if negb ok then (CS_HIGH ;; ret (W25Q128_ERROR, None))
  else
    r <- HAL_SPI_Receive 1 ;;
    match r with
    | None => CS_HIGH ;; ret (W25Q128_ERROR, None)
    | Some data => CS_HIGH ;; ret (W25Q128_OK, Some (nth 0 data 0))
    end.

(** The [do { ... } while (status & W25Q128_STATUS_BUSY)] loop; [fuel] bounds
    the number of iterations the model follows. *)
Fixpoint W25Q128_WaitForWriteEnd_loop (fuel : nat) (timeout status : Z)
  : M W25Q128_Status_t :=
  match fuel with
  | O => spin
  | S fuel' =>
      r <- W25Q128_ReadStatusRegister ;;
      if negb (is_OK (fst r)) then ret W25Q128_ERROR
      else
        let status := match snd r with Some s => s | None => status end in
        t <- HAL_GetTick ;;
        if t >? timeout then ret W25Q128_TIMEOUT
        else if negb (Z.land status W25Q128_STATUS_BUSY =? 0)
             then W25Q128_WaitForWriteEnd_loop fuel' timeout status
             else ret W25Q128_OK
  end.

Definition W25Q128_WaitForWriteEnd (fuel : nat) : M W25Q128_Status_t :=
  t0 <- HAL_GetTick ;;
  W25Q128_WaitForWriteEnd_loop fuel (u32 (t0 + 5000)) 0.

(** A transaction that sends one opcode byte. *)
Definition W25Q128_WriteEnable : M W25Q128_Status_t :=
  CS_LOW ;;
  ok <- HAL_SPI_Transmit [W25Q128_CMD_WRITE_ENABLE] ;;
  if negb ok then (CS_HIGH ;; ret W25Q128_ERROR)
  else (CS_HIGH ;; ret W25Q128_OK).

Definition W25Q128_WriteDisable : M W25Q128_Status_t :=
  CS_LOW ;;
  ok <- HAL_SPI_Transmit [W25Q128_CMD_WRITE_DISABLE] ;;
  if negb ok then (CS_HIGH ;; ret W25Q128_ERROR)
  else (CS_HIGH ;; ret W25Q128_OK).

Definition W25Q128_Read (address : Z) (length : Z)
  : M (W25Q128_Status_t * option (list Z)) :=
  CS_LOW ;;
  ok <- HAL_SPI_Transmit (cmd_addr W25Q128_CMD_READ_DATA address) ;;
  if negb ok then (CS_HIGH ;; ret (W25Q128_ERROR, None))
  else
    r <- HAL_SPI_Receive length ;;
    match r with
    | None => CS_HIGH ;; ret (W25Q128_ERROR, None)
    | Some buffer => CS_HIGH ;; ret (W25Q128_OK, Some buffer)
    end.

Definition W25Q128_WritePage (fuel : nat) (address : Z) (buffer : list Z) (length : Z)
  : M W25Q128_Status_t :=
  (fun w => (Some tt, note_page_call (address, length) w)) ;;
  if length >? W25Q128_PAGE_SIZE then ret W25Q128_ERROR
  else
    we <- W25Q128_WriteEnable ;;
    if negb (is_OK we) then ret W25Q128_ERROR
    else
      CS_LOW ;;
      ok <- HAL_SPI_Transmit (cmd_addr W25Q128_CMD_PAGE_PROGRAM address) ;;
      if negb ok then (CS_HIGH ;; ret W25Q128_ERROR)
      else
        ok <- HAL_SPI_Transmit (firstn (Z.to_nat length) buffer) ;;
        if negb ok then (CS_HIGH ;; ret W25Q128_ERROR)
        else (CS_HIGH ;; W25Q128_WaitForWriteEnd fuel).

(** The [while (remaining > 0)] loop of [W25Q128_Write].  Every iteration
    takes at least one byte off [remaining], so [n = remaining] iterations
    are always enough; [fuel] is the polling budget handed to
    [W25Q128_WritePage]. *)
Fixpoint W25Q128_Write_loop (n fuel : nat)
  (current_address : Z) (current_buffer : list Z) (remaining : Z)
  : M W25Q128_Status_t :=
  if remaining >? 0 then
    match n with
    | O => spin
    | S n' =>
        let page_offset := current_address mod W25Q128_PAGE_SIZE in
        let write_length := W25Q128_PAGE_SIZE - page_offset in
        let write_length :=
          if write_length >? remaining then remaining else write_length in
        st <- W25Q128_WritePage fuel current_address current_buffer write_length ;;
        if negb (is_OK st) then ret W25Q128_ERROR
        else
          W25Q128_Write_loop n' fuel
            (u32 (current_address + write_length))
            (skipn (Z.to_nat write_length) current_buffer)
            (remaining - write_length)
    end
  else ret W25Q128_OK.

Definition W25Q128_Write (fuel : nat) (address : Z) (buffer : list Z) (length : Z)
  : M W25Q128_Status_t :=
  W25Q128_Write_loop (Z.to_nat length) fuel address buffer length.

Definition W25Q128_EraseSector (fuel : nat) (sector_address : Z) : M W25Q128_Status_t :=
  we <- W25Q128_WriteEnable ;;
  if negb (is_OK we) then ret W25Q128_ERROR
  else
    CS_LOW ;;
    ok <- HAL_SPI_Transmit (cmd_addr W25Q128_CMD_SECTOR_ERASE_4KB sector_address) ;;
    if negb ok then (CS_HIGH ;; ret W25Q128_ERROR)
    else (CS_HIGH ;; W25Q128_WaitForWriteEnd fuel).

Definition W25Q128_EraseBlock64KB (fuel : nat) (block_address : Z) : M W25Q128_Status_t :=
  we <- W25Q128_WriteEnable ;;
  if negb (is_OK we) then ret W25Q128_ERROR
  else
    CS_LOW ;;
    ok <- HAL_SPI_Transmit (cmd_addr W25Q128_CMD_BLOCK_ERASE_64KB block_address) ;;
    if negb ok then (CS_HIGH ;; ret W25Q128_ERROR)
    else (CS_HIGH ;; W25Q128_WaitForWriteEnd fuel).

Definition W25Q128_EraseChip (fuel : nat) : M W25Q128_Status_t :=
  we <- W25Q128_WriteEnable ;;
  if negb (is_OK we) then ret W25Q128_ERROR
  else
    CS_LOW ;;
    ok <- HAL_SPI_Transmit [W25Q128_CMD_CHIP_ERASE] ;;
    if negb ok then (CS_HIGH ;; ret W25Q128_ERROR)
    else (CS_HIGH ;; W25Q128_WaitForWriteEnd fuel).

Definition W25Q128_PowerDown : M W25Q128_Status_t :=
  CS_LOW ;;
  ok <- HAL_SPI_Transmit [W25Q128_CMD_POWER_DOWN] ;;
  if negb ok then (CS_HIGH ;; ret W25Q128_ERROR)
  else (CS_HIGH ;; ret W25Q128_OK).

Definition W25Q128_WakeUp : M W25Q128_Status_t :=
  CS_LOW ;;
  ok <- HAL_SPI_Transmit [W25Q128_CMD_RELEASE_POWER_DOWN] ;;
  if negb ok then (CS_HIGH ;; ret W25Q128_ERROR)
  else (CS_HIGH ;; HAL_Delay 1 ;; ret W25Q128_OK).

Definition W25Q128_Init : M unit :=
  CS_HIGH ;;
  HAL_Delay 100 ;;
  W25Q128_WakeUp ;;
  ret tt.

(* ================================================================== *)
(** ** Protocol engine ([uart_bootloader.c]) *)

Definition set_total_bytes_written (v : Z) (h : BOOT_Handle_t) : BOOT_Handle_t :=
  mkBoot (rx_buffer h) v (total_bytes_read h).

Definition set_total_bytes_read (v : Z) (h : BOOT_Handle_t) : BOOT_Handle_t :=
  mkBoot (rx_buffer h) (total_bytes_written h) v.

Definition BOOT_Init : M unit :=
  fun w => (Some tt, set_hboot (mkBoot (repeat 0 (Z.to_nat BOOT_BUFFER_SIZE)) 0 0) w).

Definition BOOT_SendResponse (response : Z) : M BOOT_Status_t :=
  ok <- HAL_UART_Transmit [response] ;;
  if negb ok then ret BOOT_ERROR else ret BOOT_OK.

(** The HAL takes the byte count as a [uint16_t]. *)
Definition BOOT_SendData (data : list Z) (length : Z) : M BOOT_Status_t :=
  ok <- HAL_UART_Transmit (firstn (Z.to_nat (u16 length)) data) ;;
  if negb ok then ret BOOT_ERROR else ret BOOT_OK.

(** [None] stands for [BOOT_TIMEOUT], [Some buffer] for [BOOT_OK] with the
    bytes stored. *)
Definition BOOT_ReceiveData (length : Z) : M (option (list Z)) :=
  HAL_UART_Receive length BOOT_TIMEOUT_MS.

(** A 32-bit little-endian field held in [buffer[0..3]]. *)
Definition le32 (buffer : list Z) : Z :=
  Z.lor (Z.lor (Z.lor (nth 0 buffer 0) (Z.shiftl (nth 1 buffer 0) 8))
               (Z.shiftl (nth 2 buffer 0) 16))
        (Z.shiftl (nth 3 buffer 0) 24).

(** A 16-bit little-endian field held in [buffer[0..1]]. *)
Definition le16 (buffer : list Z) : Z :=
  Z.lor (nth 0 buffer 0) (Z.shiftl (nth 1 buffer 0) 8).

(** The payload loop of [BOOT_HandleWrite]: [data_buffer] is what
    [large_buffer[0..offset)] holds, so storing a chunk at [offset] appends
    it.  [n = remaining] iterations are always enough.  The inner [None] is
    a receive time-out. *)
Fixpoint BOOT_ReceivePayload (n : nat) (data_buffer : list Z) (remaining : Z)
  : M (option (list Z)) :=
  if remaining >? 0 then
    match n with
    | O => spin
    | S n' =>
        let chunk_size :=
          if remaining >? BOOT_BUFFER_SIZE then BOOT_BUFFER_SIZE else remaining in
        r <- BOOT_ReceiveData chunk_size ;;
        match r with
        | None => ret None
        | Some chunk =>
            BOOT_ReceivePayload n' (data_buffer ++ chunk) (remaining - chunk_size)
        end
    end
  else ret (Some data_buffer).

Definition BOOT_HandleWrite (fuel : nat) : M BOOT_Status_t :=
  r <- BOOT_ReceiveData 4 ;;
  match r with
  | None => BOOT_SendResponse BOOT_NACK ;; ret BOOT_TIMEOUT
  | Some buffer =>
      let data_length := le32 buffer in
      if (data_length =? 0) || (data_length >? BOOT_MAX_DATA_SIZE)
      then (BOOT_SendResponse BOOT_NACK ;; ret BOOT_ERROR)
      else
        r <- BOOT_ReceiveData 4 ;;
        match r with
        | None => BOOT_SendResponse BOOT_NACK ;; ret BOOT_TIMEOUT
        | Some buffer =>
            let address := le32 buffer in
            r <- BOOT_ReceivePayload (Z.to_nat data_length) [] data_length ;;
            match r with
            | None => BOOT_SendResponse BOOT_NACK ;; ret BOOT_TIMEOUT
            | Some data_buffer =>
                r <- BOOT_ReceiveData 2 ;;
                match r with
                | None => BOOT_SendResponse BOOT_NACK ;; ret BOOT_TIMEOUT
                | Some buffer =>
                    let crc_received := le16 buffer in
                    let crc_calculated := BOOT_CalculateCRC16 data_buffer data_length in
                    if negb (crc_received =? crc_calculated)
                    then (BOOT_SendResponse BOOT_NACK ;; ret BOOT_CRC_ERR)
                    else
                      st <- W25Q128_Write fuel address data_buffer data_length ;;
                      if negb (is_OK st)
                      then (BOOT_SendResponse BOOT_NACK ;; ret BOOT_ERROR)
                      else
                        (fun w =>
                           (Some tt,
                            set_hboot
                              (set_total_bytes_written
                                 (u32 (total_bytes_written (hboot w) + data_length))
                                 (hboot w)) w)) ;;
                        BOOT_SendResponse BOOT_ACK ;;
                        ret BOOT_OK
                end
            end
        end
  end.

Definition BOOT_HandleRead : M BOOT_Status_t :=
  r <- BOOT_ReceiveData 4 ;;
  match r with
  | None => BOOT_SendResponse BOOT_NACK ;; ret BOOT_TIMEOUT
  | Some buffer =>
      let data_length := le32 buffer in
      if (data_length =? 0) || (data_length >? BOOT_MAX_DATA_SIZE)
      then (BOOT_SendResponse BOOT_NACK ;; ret BOOT_ERROR)
      else
        r <- BOOT_ReceiveData 4 ;;
        match r with
        | None => BOOT_SendResponse BOOT_NACK ;; ret BOOT_TIMEOUT
        | Some buffer =>
            let address := le32 buffer in
            rd <- W25Q128_Read address data_length ;;
            match rd with
            | (W25Q128_OK, Some data_buffer) =>
                BOOT_SendResponse BOOT_ACK ;;
                s <- BOOT_SendData data_buffer data_length ;;
                match s with
                | BOOT_OK =>
                    let crc_calculated := BOOT_CalculateCRC16 data_buffer data_length in
                    BOOT_SendData
                      [Z.land crc_calculated 0xFF;
                       Z.land (Z.shiftr crc_calculated 8) 0xFF] 2 ;;
                    (fun w =>
                       (Some tt,
                        set_hboot
                          (set_total_bytes_read
                             (u32 (total_bytes_read (hboot w) + data_length))
                             (hboot w)) w)) ;;
                    ret BOOT_OK
                | _ => ret BOOT_ERROR
                end
            | _ => BOOT_SendResponse BOOT_NACK ;; ret BOOT_ERROR
            end
        end
  end.

Definition BOOT_HandleEraseSector (fuel : nat) : M BOOT_Status_t :=
  r <- BOOT_ReceiveData 4 ;;
  match r with
  | None => BOOT_SendResponse BOOT_NACK ;; ret BOOT_TIMEOUT
  | Some buffer =>
      let address := le32 buffer in
      st <- W25Q128_EraseSector fuel address ;;
      if negb (is_OK st)
      then (BOOT_SendResponse BOOT_NACK ;; ret BOOT_ERROR)
      else (BOOT_SendResponse BOOT_ACK ;; ret BOOT_OK)
  end.

Definition BOOT_HandleEraseChip (fuel : nat) : M BOOT_Status_t :=
  st <- W25Q128_EraseChip fuel ;;
  if negb (is_OK st)
  then (BOOT_SendResponse BOOT_NACK ;; ret BOOT_ERROR)
  else (BOOT_SendResponse BOOT_ACK ;; ret BOOT_OK).

Definition BOOT_HandleGetInfo : M BOOT_Status_t :=
  id <- W25Q128_ReadID ;;
  match id with
  | (W25Q128_OK, Some (manufacturer_id, device_id)) =>
      jd <- W25Q128_ReadJEDECID ;;
      match jd with
      | (W25Q128_OK, Some jedec_id) =>
          let capacity := u32 W25Q128_TOTAL_SIZE in
          let page_size := u16 W25Q128_PAGE_SIZE in
          let sector_size := u16 W25Q128_SECTOR_SIZE in
          (* info[13..15] are never written and never sent *)
          let info :=
            [ manufacturer_id; device_id;
              nth 0 jedec_id 0; nth 1 jedec_id 0; nth 2 jedec_id 0;
              Z.land capacity 0xFF;
              Z.land (Z.shiftr capacity 8) 0xFF;
              Z.land (Z.shiftr capacity 16) 0xFF;
              Z.land (Z.shiftr capacity 24) 0xFF;
              Z.land page_size 0xFF;
              Z.land (Z.shiftr page_size 8) 0xFF;
              Z.land sector_size 0xFF;
              Z.land (Z.shiftr sector_size 8) 0xFF ] in
          BOOT_SendResponse BOOT_ACK ;;
          BOOT_SendData info 13 ;;
          ret BOOT_OK
      | _ => BOOT_SendResponse BOOT_NACK ;; ret BOOT_ERROR
      end
  | _ => BOOT_SendResponse BOOT_NACK ;; ret BOOT_ERROR
  end.

(** One call of [BOOT_Process]: at most one command. *)
Definition BOOT_Process (fuel : nat) : M unit :=
  r <- HAL_UART_Receive 2 HAL_MAX_DELAY ;;
  match r with
  | None => ret tt
  | Some header =>
      if negb (nth 0 header 0 =? BOOT_START_MARKER1)
         || negb (nth 1 header 0 =? BOOT_START_MARKER2)
      then ret tt
      else
        r <- BOOT_ReceiveData 1 ;;
        match r with
        | None => BOOT_SendResponse BOOT_NACK ;; ret tt
        | Some cmd =>
            let command := nth 0 cmd 0 in
            if command =? BOOT_CMD_WRITE then (BOOT_HandleWrite fuel ;; ret tt)
            else if command =? BOOT_CMD_READ then (BOOT_HandleRead ;; ret tt)
            else if command =? BOOT_CMD_ERASE_SECTOR then (BOOT_HandleEraseSector fuel ;; ret tt)
            else if command =? BOOT_CMD_ERASE_CHIP then (BOOT_HandleEraseChip fuel ;; ret tt)
            else if command =? BOOT_CMD_GET_INFO then (BOOT_HandleGetInfo ;; ret tt)
            else (BOOT_SendResponse BOOT_NACK ;; ret tt)
        end
  end.


(* ================================================================== *)
(** ** Vocabulary of the properties *)

(** *** Bytes *)

Definition is_byte (b : Z) : Prop := 0 <= b < 256.

Definition is_u16 (c : Z) : Prop := 0 <= c < 65536.

Definition ascii_bytes (s : String.string) : list Z :=
  map (fun c => Z.of_nat (Ascii.nat_of_ascii c)) (String.list_ascii_of_string s).

(** The standard check input of CRC catalogues. *)
Module KAT.
Import String.
Local Open Scope string_scope.
Definition check_string : string := "123456789".
End KAT.

(** *** The serial line *)

(** Bytes handed to [HAL_UART_Transmit], in order. *)
Fixpoint uart_sent (evs : list Event) : list Z :=
  match evs with
  | [] => []
  | UART_TX data _ :: evs' => data ++ uart_sent evs'
  | _ :: evs' => uart_sent evs'
  end.

(** The world in which a command handler starts: [BOOT_Process] has taken
    the two start markers and the command byte [cmd] off the line, [rest]
    is still to come. *)
Definition after_frame_header (w : World) (cmd : Z) (rest : list Z) : World :=
  mkWorld (env w) rest
    (log w ++ [UART_RX [BOOT_START_MARKER1; BOOT_START_MARKER2] true; UART_RX [cmd] true])
    (page_calls w) (hboot w).

(** The length test shared by the WRITE and READ handlers. *)
Definition length_out_of_range (data_length : Z) : Prop :=
  data_length = 0 \/ data_length > BOOT_MAX_DATA_SIZE.

(** A successful serial receive. *)
Definition is_uart_rx (ev : Event) : Prop := exists d, ev = UART_RX d true.



(** A WRITE frame for [payload] at [address], with the right CRC. *)
Definition write_frame (address : Z) (payload : list Z) : list Z :=
  let n := Z.of_nat (length payload) in
  let crc := BOOT_CalculateCRC16 payload n in
  [ BOOT_START_MARKER1; BOOT_START_MARKER2; BOOT_CMD_WRITE;
    Z.land n 0xFF; Z.land (Z.shiftr n 8) 0xFF;
    Z.land (Z.shiftr n 16) 0xFF; Z.land (Z.shiftr n 24) 0xFF;
    Z.land address 0xFF; Z.land (Z.shiftr address 8) 0xFF;
    Z.land (Z.shiftr address 16) 0xFF; Z.land (Z.shiftr address 24) 0xFF ]
  ++ payload ++ [Z.land crc 0xFF; Z.land (Z.shiftr crc 8) 0xFF].

(** The response that scenario S1 of the specification prints. *)
Definition S1_printed_response : list Z :=
  [0x79; 0xEF; 0x17; 0xEF; 0x40; 0x18; 0x00; 0x00; 0x00; 0x01; 0x00; 0x01; 0x10; 0x00; 0x10].

(** *** Busy polling *)

(** A completed status-register read that returned [s], as logged. *)
Definition status_read_ok (s : Z) : list Event :=
  [ GPIO_CS false; SPI_TX [W25Q128_CMD_READ_STATUS_REG1] true;
    SPI_RX [s] true; GPIO_CS true ].

(** The HAL calls of the polling loop and its outcome ([None]: the model's
    iteration budget ran out while the device was busy and the deadline not
    passed). *)
Inductive poll_run (deadline : Z) : list Event -> option W25Q128_Status_t -> Prop :=
| poll_tx_fails :
    poll_run deadline
      [GPIO_CS false; SPI_TX [W25Q128_CMD_READ_STATUS_REG1] false; GPIO_CS true]
      (Some W25Q128_ERROR)
| poll_rx_fails :
    poll_run deadline
      [GPIO_CS false; SPI_TX [W25Q128_CMD_READ_STATUS_REG1] true;
       SPI_RX [] false; GPIO_CS true]
      (Some W25Q128_ERROR)
| poll_overrun (s t : Z) :
    t > deadline ->
    poll_run deadline (status_read_ok s ++ [TICK t]) (Some W25Q128_TIMEOUT)
| poll_idle (s t : Z) :
    t <= deadline ->
    Z.land s W25Q128_STATUS_BUSY = 0 ->
    poll_run deadline (status_read_ok s ++ [TICK t]) (Some W25Q128_OK)
| poll_busy (s t : Z) (evs : list Event) (r : option W25Q128_Status_t) :
    t <= deadline ->
    Z.land s W25Q128_STATUS_BUSY <> 0 ->
    poll_run deadline evs r ->
    poll_run deadline (status_read_ok s ++ TICK t :: evs) r
| poll_cut :
    poll_run deadline [] None.

(** Some SPI transfer in the log failed. *)
Definition spi_failed (evs : list Event) : bool :=
  existsb (fun ev => match ev with
                     | SPI_TX _ ok | SPI_RX _ ok => negb ok
                     | _ => false
                     end) evs.

(** Some tick read in the log is past the deadline. *)
Definition deadline_overrun (deadline : Z) (evs : list Event) : bool :=
  existsb (fun ev => match ev with
                     | TICK t => t >? deadline
                     | _ => false
                     end) evs.

(** Number of tick reads in the log. *)
Definition tick_reads (evs : list Event) : nat :=
  length (filter (fun ev => match ev with TICK _ => true | _ => false end) evs).

(** Number of completed status-register reads in the log. *)
Definition status_reads (evs : list Event) : nat :=
  length (filter (fun ev => match ev with SPI_RX _ true => true | _ => false end) evs).

(** The (status, tick) pairs the polling loop saw: each completed status
    read with the tick read that follows it. *)
Fixpoint polls_seen (last : option Z) (evs : list Event) : list (Z * Z) :=
  match evs with
  | [] => []
  | SPI_RX d true :: evs' => polls_seen (Some (nth 0 d 0)) evs'
  | TICK t :: evs' =>
      match last with
      | Some s => (s, t) :: polls_seen None evs'
      | None => polls_seen None evs'
      end
  | _ :: evs' => polls_seen last evs'
  end.

(** *** Page programming *)

(** A program of [snd c] bytes at address [fst c] stays inside one
    256-byte page. *)
Definition within_page (c : Z * Z) : Prop :=
  fst c mod 256 + snd c <= 256.

(** The chunks lie end to end, the first at [addr]; addresses are
    [uint32_t]. *)
Fixpoint contiguous_from (addr : Z) (cs : list (Z * Z)) : Prop :=
  match cs with
  | [] => True
  | c :: cs' => fst c = addr /\ contiguous_from (u32 (addr + snd c)) cs'
  end.

(** Sum of the chunk lengths. *)
Definition total_length (cs : list (Z * Z)) : Z :=
  fold_right (fun c acc => snd c + acc) 0 cs.

(** The pages of [remaining] bytes at [addr]: each chunk runs to the end
    of its 256-byte page or to the end of the data, whichever comes
    first ([n] bounds the number of chunks; [n = remaining] is enough). *)
Fixpoint page_split (n : nat) (addr remaining : Z) : list (Z * Z) :=
  if remaining >? 0 then
    match n with
    | O => []
    | S n' =>
        let len := Z.min (256 - addr mod 256) remaining in
        (addr, len) :: page_split n' (u32 (addr + len)) (remaining - len)
    end
  else [].

(** What each call of [calls] returns when the calls are made one after
    the other from [w], each with the part of the buffer the earlier
    ones leave. *)
Fixpoint page_outcomes (fuel : nat) (calls : list (Z * Z)) (buffer : list Z) (w : World)
  : list (option W25Q128_Status_t) :=
  match calls with
  | [] => []
  | (a, n) :: calls' =>
      fst (W25Q128_WritePage fuel a buffer n w)
      :: page_outcomes fuel calls' (skipn (Z.to_nat n) buffer)
           (snd (W25Q128_WritePage fuel a buffer n w))
  end.

(** Computations that leave the ghost record of page-program calls alone. *)
Definition keeps_pages {A : Type} (m : M A) : Prop :=
  forall w, page_calls (snd (m w)) = page_calls w.

(** The 24-bit address that follows the opcode in a command header. *)
Definition addr24 (header : list Z) : Z :=
  nth 1 header 0 * 65536 + nth 2 header 0 * 256 + nth 3 header 0.

(** Where a transaction stands: chip-select high; just selected; the header
    of a page program at [address] was sent and its data is due; anything
    else. *)
Inductive PgState : Type :=
| PgIdle
| PgFresh
| PgData (address : Z)
| PgOther.

(** The page programs in a log as the flash sees them: the address of each
    page-program header (opcode 0x02) with the number of data bytes
    transmitted after it. *)
Fixpoint wire_programs (st : PgState) (evs : list Event) : list (Z * Z) :=
  match evs with
  | [] => []
  | GPIO_CS level :: evs' => wire_programs (if level then PgIdle else PgFresh) evs'
  | SPI_TX data _ :: evs' =>
      match st with
      | PgFresh =>
          if nth 0 data 0 =? W25Q128_CMD_PAGE_PROGRAM
          then wire_programs (PgData (addr24 data)) evs'
          else wire_programs PgOther evs'
      | PgData address => (address, Z.of_nat (length data)) :: wire_programs PgOther evs'
      | _ => wire_programs st evs'
      end
  | _ :: evs' => wire_programs st evs'
  end.

(** *** Trace monitors *)

(** A monitor is a partial automaton over HAL events; [run] feeds it a log
    and is [None] when the log breaks the monitored rule. *)
Section Monitor.

Context {S : Type}.
Variable step_of : S -> Event -> option S.

Fixpoint run (s : S) (evs : list Event) : option S :=
  match evs with
  | [] => Some s
  | ev :: evs' =>
      match step_of s ev with
      | Some s' => run s' evs'
      | None => None
      end
  end.

(** From monitor state [s], the events [m] appends to the log are
    accepted, and the result of [m] and the state reached satisfy [Q]. *)
Definition triple {A : Type} (s : S) (m : M A) (Q : option A -> S -> Prop) : Prop :=
  forall w,
  exists evs,
    log (snd (m w)) = log w ++ evs
    /\ exists s', run s evs = Some s' /\ Q (fst (m w)) s'.

End Monitor.

(** The operations of the driver's interface. *)
Inductive DriverOp : Type :=
| Op_ReadID
| Op_ReadJEDECID
| Op_ReadStatusRegister
| Op_WaitForWriteEnd
| Op_WriteEnable
| Op_WriteDisable
| Op_Read (address length : Z)
| Op_WritePage (address : Z) (buffer : list Z) (length : Z)
| Op_Write (address : Z) (buffer : list Z) (length : Z)
| Op_EraseSector (sector_address : Z)
| Op_EraseBlock64KB (block_address : Z)
| Op_EraseChip
| Op_PowerDown
| Op_WakeUp.

Definition exec {A : Type} (m : M A) (w : World) : World := snd (m w).

(** The world after one driver operation ([fuel] is the polling budget). *)
Definition run_op (fuel : nat) (op : DriverOp) : World -> World :=
  match op with
  | Op_ReadID => exec W25Q128_ReadID
  | Op_ReadJEDECID => exec W25Q128_ReadJEDECID
  | Op_ReadStatusRegister => exec W25Q128_ReadStatusRegister
  | Op_WaitForWriteEnd => exec (W25Q128_WaitForWriteEnd fuel)
  | Op_WriteEnable => exec W25Q128_WriteEnable
  | Op_WriteDisable => exec W25Q128_WriteDisable
  | Op_Read address length => exec (W25Q128_Read address length)
  | Op_WritePage address buffer length => exec (W25Q128_WritePage fuel address buffer length)
  | Op_Write address buffer length => exec (W25Q128_Write fuel address buffer length)
  | Op_EraseSector a => exec (W25Q128_EraseSector fuel a)
  | Op_EraseBlock64KB a => exec (W25Q128_EraseBlock64KB fuel a)
  | Op_EraseChip => exec (W25Q128_EraseChip fuel)
  | Op_PowerDown => exec W25Q128_PowerDown
  | Op_WakeUp => exec W25Q128_WakeUp
  end.

(** *** Chip-select discipline *)

(** Chip-select discipline.  The state is "chip-select is low".  CS may go
    low only when high and high only when low; SPI transfers need CS low. *)
Definition cs_step (selected : bool) (ev : Event) : option bool :=
  match ev with
  | GPIO_CS false => if selected then None else Some true
  | GPIO_CS true => if selected then Some false else None
  | SPI_TX _ _ | SPI_RX _ _ => if selected then Some true else None
  | _ => Some selected
  end.

(** A log that starts and ends with chip-select high and obeys [cs_step]. *)
Definition cs_disciplined (evs : list Event) : Prop :=
  run cs_step false evs = Some false.

(** The post-condition of a whole operation: chip-select is high again,
    whether the operation returned or is still polling. *)
Definition cs_released {A : Type} : option A -> bool -> Prop :=
  fun _ selected => selected = false.

(** *** Write-enable pairing *)

(** Commands that need the write-enable latch: page program, sector
    erase, 64 KiB block erase, chip erase. *)
Definition needs_write_enable (opcode : Z) : bool :=
  (opcode =? W25Q128_CMD_PAGE_PROGRAM)
  || (opcode =? W25Q128_CMD_SECTOR_ERASE_4KB)
  || (opcode =? W25Q128_CMD_BLOCK_ERASE_64KB)
  || (opcode =? W25Q128_CMD_CHIP_ERASE).

(** The SPI commands of a log, in order: for each transaction the first
    byte of its first transmit, with the outcome of that transmit.
    [fresh] says chip-select has gone low and nothing was sent since. *)
Fixpoint opcodes (fresh : bool) (evs : list Event) : list (Z * bool) :=
  match evs with
  | [] => []
  | GPIO_CS level :: evs' => opcodes (negb level) evs'
  | SPI_TX data ok :: evs' =>
      if fresh then (nth 0 data 0, ok) :: opcodes false evs'
      else opcodes false evs'
  | _ :: evs' => opcodes fresh evs'
  end.

Definition is_write_enable (c : option (Z * bool)) : bool :=
  match c with
  | Some (opcode, _) => opcode =? W25Q128_CMD_WRITE_ENABLE
  | None => false
  end.

(** [p1] is the command just before and [p2] the one before that: [p1] is
    a write-enable that was transmitted, and [p2] is not another
    write-enable. *)
Definition armed (p2 p1 : option (Z * bool)) : bool :=
  match p1 with
  | Some (opcode, ok) => (opcode =? W25Q128_CMD_WRITE_ENABLE) && ok
  | None => false
  end
  && negb (is_write_enable p2).

(** In [cmds], coming after [p2] then [p1], every command that needs the
    latch is immediately preceded by exactly one write-enable. *)
Fixpoint write_enable_paired (p2 p1 : option (Z * bool)) (cmds : list (Z * bool)) : bool :=
  match cmds with
  | [] => true
  | c :: cmds' =>
      (if needs_write_enable (fst c) then armed p2 p1 else true)
      && write_enable_paired p1 (Some c) cmds'
  end.

(** What [write_enable_paired] says position by position. *)
Definition context_at (p2 p1 : option (Z * bool)) (cmds : list (Z * bool)) (i : nat)
  : option (Z * bool) * option (Z * bool) :=
  match i with
  | O => (p2, p1)
  | S O => (p1, nth_error cmds 0)
  | S (S k) => (nth_error cmds k, nth_error cmds (S k))
  end.

(** The same rule as a monitor over the log. *)
Record WeState : Type := mkWe {
  we_fresh : bool;
  we_prev2 : option (Z * bool);
  we_prev1 : option (Z * bool)
}.

Definition we_step (s : WeState) (ev : Event) : option WeState :=
  match ev with
  | GPIO_CS level => Some (mkWe (negb level) (we_prev2 s) (we_prev1 s))
  | SPI_TX data ok =>
      if we_fresh s then
        if needs_write_enable (nth 0 data 0) && negb (armed (we_prev2 s) (we_prev1 s))
        then None
        else Some (mkWe false (we_prev1 s) (Some (nth 0 data 0, ok)))
      else Some (mkWe false (we_prev2 s) (we_prev1 s))
  | _ => Some s
  end.

(** Post-conditions under the pairing monitor: no transaction is open; and
    for operations whose status matters, the command issued last is not a
    write-enable when the operation returned [W25Q128_OK]. *)
Definition we_idle {A : Type} : option A -> WeState -> Prop :=
  fun _ s => we_fresh s = false.

Definition we_settled : option W25Q128_Status_t -> WeState -> Prop :=
  fun r s =>
    we_fresh s = false
    /\ (r = Some W25Q128_OK -> is_write_enable (we_prev1 s) = false).

(** *** Page programs under a monitor *)

(** The monitor that accepts a log when each of its page programs stays
    inside a page. *)
Definition pg_step (st : PgState) (ev : Event) : option PgState :=
  match ev with
  | GPIO_CS level => Some (if level then PgIdle else PgFresh)
  | SPI_TX data _ =>
      match st with
      | PgFresh =>
          if nth 0 data 0 =? W25Q128_CMD_PAGE_PROGRAM
          then Some (PgData (addr24 data))
          else Some PgOther
      | PgData address =>
          if address mod 256 + Z.of_nat (length data) <=? 256
          then Some PgOther
          else None
      | _ => Some st
      end
  | _ => Some st
  end.

(** Post-condition of an operation under [pg_step]. *)
Definition pg_idle {A : Type} : option A -> PgState -> Prop :=
  fun _ st => st = PgIdle.

(** *** Well-behaved environments *)

(** No SPI transfer fails. *)
Definition spi_sound (e : Env) : Prop := forall s, spi_ok e s = true.

(** No serial transmission fails. *)
Definition uart_sound (e : Env) : Prop := forall s, uart_tx_ok e s = true.

(** Every status read finds BUSY clear, and the tick read after it is
    within the deadline computed from the tick read before it (five HAL
    calls earlier). *)
Definition flash_idle (e : Env) : Prop :=
  (forall s, Z.land (u8 (miso e s 0)) W25Q128_STATUS_BUSY = 0)
  /\ (forall s, u32 (clock e (s + 5)) <= u32 (u32 (clock e s) + 5000)).

(** A busy wait that finds the flash idle at once. *)
Definition idle_wait (t0 st t1 : Z) : list Event :=
  TICK t0 :: status_read_ok st ++ [TICK t1].

(** A write-enable transaction. *)
Definition write_enable_ok : list Event :=
  [GPIO_CS false; SPI_TX [W25Q128_CMD_WRITE_ENABLE] true; GPIO_CS true].

(** *** Concrete environments used in examples *)

(** Transports never fail, the flash answers 0x00 to everything (so it is
    never busy), and the tick advances by one per HAL call. *)
Definition quiet_env : Env :=
  mkEnv (fun _ => true) (fun _ _ => 0) (fun _ => true) (fun s => Z.of_nat s).

(** As [quiet_env], with a W25Q128 answering the two identification
    transactions of a GET_INFO that is the first command after reset (the
    receives are HAL calls 4 and 8). *)
Definition w25q128_id_env : Env :=
  mkEnv (fun _ => true)
    (fun s i =>
       if (s =? 4)%nat then nth i [0xEF; 0x17] 0
       else if (s =? 8)%nat then nth i [0xEF; 0x40; 0x18] 0
       else 0)
    (fun _ => true) (fun s => Z.of_nat s).

(** Every SPI transfer fails. *)
Definition dead_spi_env : Env :=
  mkEnv (fun _ => false) (fun _ _ => 0) (fun _ => true) (fun s => Z.of_nat s).

(** The flash answers every read with DE AD BE EF; transports never fail. *)
Definition deadbeef_env : Env :=
  mkEnv (fun _ => true) (fun _ i => nth i [0xDE; 0xAD; 0xBE; 0xEF] 0)
    (fun _ => true) (fun s => Z.of_nat s).

(** The state after reset and [BOOT_Init], with [inp] on the serial line. *)
Definition fresh_world (e : Env) (inp : list Z) : World :=
  mkWorld e inp [] [] (mkBoot (repeat 0 (Z.to_nat BOOT_BUFFER_SIZE)) 0 0).

(** Transports never fail, the flash answers 0x00 to everything, the tick
    stands still. *)
Definition calm_env : Env :=
  mkEnv (fun _ => true) (fun _ _ => 0) (fun _ => true) (fun _ => 0).

(* ================================================================== *)
(** ** Vocabulary of the further properties *)

(** *** Field encodings *)

(** A 32-bit value as the engine lays it out in the info block, low byte
    first. *)
Definition le32_bytes (v : Z) : list Z :=
  [ Z.land v 0xFF; Z.land (Z.shiftr v 8) 0xFF;
    Z.land (Z.shiftr v 16) 0xFF; Z.land (Z.shiftr v 24) 0xFF ].

(** A 16-bit value as the READ handler lays out its CRC trailer, low byte
    first. *)
Definition le16_bytes (v : Z) : list Z :=
  [ Z.land v 0xFF; Z.land (Z.shiftr v 8) 0xFF ].

(** *** CRC *)

(** Undoes one shift step of the CRC on a 16-bit value: the low bit of the
    result tells whether the polynomial was XORed in, that is what the
    high bit was. *)
Definition crc_unshift (r : Z) : Z :=
  if Z.testbit r 0
  then Z.lor (Z.shiftr (Z.lxor r 0x1021) 1) 0x8000
  else Z.shiftr r 1.

(** [P] holds of the [k] integers from [z] on. *)
Fixpoint all_from (k : nat) (z : Z) (P : Z -> bool) : bool :=
  match k with
  | O => true
  | S k' => P z && all_from k' (z + 1) P
  end.

(** *** The driver seen from outside *)

(** An event that is not a serial transfer. *)
Definition not_uart (ev : Event) : Prop :=
  match ev with
  | UART_TX _ _ | UART_RX _ _ => False
  | _ => True
  end.

(** The monitor that rejects serial transfers. *)
Definition nu_step (s : unit) (ev : Event) : option unit :=
  match ev with
  | UART_TX _ _ | UART_RX _ _ => None
  | _ => Some s
  end.

(** What a driver operation has no business with: the transports'
    behaviour, the serial line, the session record. *)
Definition session (w : World) : Env * list Z * BOOT_Handle_t :=
  (env w, uart_in w, hboot w).

Definition keeps_session {A : Type} (m : M A) : Prop :=
  forall w, session (snd (m w)) = session w.

Definition ok_or_error (st : W25Q128_Status_t) : bool :=
  match st with
  | W25Q128_OK | W25Q128_ERROR => true
  | _ => false
  end.

Definition not_busy (st : W25Q128_Status_t) : bool :=
  match st with
  | W25Q128_BUSY => false
  | _ => true
  end.

(** Post-condition: the status is one of [allowed], and the operation has
    returned unless [may_spin]. *)
Definition codes (allowed : W25Q128_Status_t -> bool) (may_spin : bool)
  : option W25Q128_Status_t -> unit -> Prop :=
  fun r _ =>
    match r with
    | Some st => allowed st = true
    | None => may_spin = true
    end.

(** The same for the operations that return a buffer with the status. *)
Definition codes_fst {B : Type} (allowed : W25Q128_Status_t -> bool)
  : option (W25Q128_Status_t * B) -> unit -> Prop :=
  fun r _ =>
    match r with
    | Some (st, _) => allowed st = true
    | None => False
    end.

(** The status a driver operation returns ([None]: still polling). *)
Definition run_status (fuel : nat) (op : DriverOp) (w : World)
  : option W25Q128_Status_t :=
  match op with
  | Op_ReadID => option_map fst (fst (W25Q128_ReadID w))
  | Op_ReadJEDECID => option_map fst (fst (W25Q128_ReadJEDECID w))
  | Op_ReadStatusRegister => option_map fst (fst (W25Q128_ReadStatusRegister w))
  | Op_WaitForWriteEnd => fst (W25Q128_WaitForWriteEnd fuel w)
  | Op_WriteEnable => fst (W25Q128_WriteEnable w)
  | Op_WriteDisable => fst (W25Q128_WriteDisable w)
  | Op_Read address length => option_map fst (fst (W25Q128_Read address length w))
  | Op_WritePage address buffer length =>
      fst (W25Q128_WritePage fuel address buffer length w)
  | Op_Write address buffer length => fst (W25Q128_Write fuel address buffer length w)
  | Op_EraseSector a => fst (W25Q128_EraseSector fuel a w)
  | Op_EraseBlock64KB a => fst (W25Q128_EraseBlock64KB fuel a w)
  | Op_EraseChip => fst (W25Q128_EraseChip fuel w)
  | Op_PowerDown => fst (W25Q128_PowerDown w)
  | Op_WakeUp => fst (W25Q128_WakeUp w)
  end.

(** The operations that wait for the flash to finish. *)
Definition polls (op : DriverOp) : bool :=
  match op with
  | Op_WaitForWriteEnd | Op_WritePage _ _ _ | Op_Write _ _ _
  | Op_EraseSector _ | Op_EraseBlock64KB _ | Op_EraseChip => true
  | _ => false
  end.

(** The operations that can return [W25Q128_TIMEOUT]. *)
Definition reports_timeout (op : DriverOp) : bool :=
  match op with
  | Op_WaitForWriteEnd | Op_WritePage _ _ _
  | Op_EraseSector _ | Op_EraseBlock64KB _ | Op_EraseChip => true
  | _ => false
  end.

(** The flash stays busy and the tick jumps by 10 s per HAL call. *)
Definition stuck_busy_env : Env :=
  mkEnv (fun _ => true) (fun _ _ => 0x01) (fun _ => true)
    (fun s => 10000 * Z.of_nat s).


(** *** What a write puts on the bus *)

(** The data phase of a page program whose header carries [address]:
    each byte with the address the header gives it, counting up. *)
Fixpoint placed (address : Z) (data : list Z) : list (Z * Z) :=
  match data with
  | [] => []
  | b :: data' => (address, b) :: placed (address + 1) data'
  end.

(** Where the bytes of a caller's buffer belong: byte [i] at
    [address + i], in the 24 bits of address the commands carry. *)
Fixpoint image (address : Z) (data : list Z) : list (Z * Z) :=
  match data with
  | [] => []
  | b :: data' => (address mod 16777216, b) :: image (address + 1) data'
  end.

(** The monitor that collects the data phases of the page programs of a
    log; it accepts every log. *)
Definition wb_step (s : PgState * list (Z * Z)) (ev : Event)
  : option (PgState * list (Z * Z)) :=
  match ev with
  | GPIO_CS level => Some (if level then PgIdle else PgFresh, snd s)
  | SPI_TX data _ =>
      match fst s with
      | PgFresh =>
          if nth 0 data 0 =? W25Q128_CMD_PAGE_PROGRAM
          then Some (PgData (addr24 data), snd s)
          else Some (PgOther, snd s)
      | PgData address => Some (PgOther, snd s ++ placed address data)
      | _ => Some s
      end
  | _ => Some s
  end.

(** The (address, byte) pairs a log hands to the flash for programming. *)
Definition programmed (evs : list Event) : list (Z * Z) :=
  match run wb_step (PgIdle, []) evs with
  | Some s => snd s
  | None => []
  end.

(** Chip-select is high and [acc] has been collected. *)
Definition wb_at {A : Type} (acc : list (Z * Z))
  : option A -> PgState * list (Z * Z) -> Prop :=
  fun _ s => s = (PgIdle, acc).

(** One page program: nothing, or the buffer's first [length] bytes from
    [address] on; the latter when it reports [W25Q128_OK]. *)
Definition wb_page (acc : list (Z * Z)) (address : Z) (data : list Z)
  : option W25Q128_Status_t -> PgState * list (Z * Z) -> Prop :=
  fun r s =>
    exists b : bool,
      s = (PgIdle, if b then acc ++ image address data else acc)
      /\ (r = Some W25Q128_OK -> b = true).

(** The page loop: a prefix of the buffer, all of it on [W25Q128_OK]. *)
Definition wb_prefix (acc : list (Z * Z)) (address : Z) (buffer : list Z) (remaining : Z)
  : option W25Q128_Status_t -> PgState * list (Z * Z) -> Prop :=
  fun r s =>
    exists k,
      0 <= k <= remaining
      /\ s = (PgIdle, acc ++ image address (firstn (Z.to_nat k) buffer))
      /\ (r = Some W25Q128_OK -> k = remaining).

(** *** Stopping at the first failure *)

(** What the bus shows of a failure: an SPI transfer that fails, or a
    tick read in a busy wait that is past the wait's deadline.  The
    deadline of a wait is the first tick read after a command other than
    a status read, plus 5000 in 32 bits; [st_fresh] says that chip-select
    has gone low and nothing was sent since, so that the next byte sent
    is an opcode. *)
Record StopState : Type := mkStop {
  st_failed : bool;
  st_fresh : bool;
  st_deadline : option Z
}.

Definition stop_init : StopState := mkStop false false None.

(** The monitor refuses a selection of the flash after a failure. *)
Definition stop_step (s : StopState) (ev : Event) : option StopState :=
  match ev with
  | GPIO_CS false =>
      if st_failed s then None else Some (mkStop false true (st_deadline s))
  | GPIO_CS true => Some (mkStop (st_failed s) false (st_deadline s))
  | SPI_TX data ok =>
      Some (mkStop (st_failed s || negb ok) false
              (if st_fresh s && negb (nth 0 data 0 =? W25Q128_CMD_READ_STATUS_REG1)
               then None else st_deadline s))
  | SPI_RX _ ok => Some (mkStop (st_failed s || negb ok) false (st_deadline s))
  | TICK t =>
      match st_deadline s with
      | None => Some (mkStop (st_failed s) false (Some (u32 (t + 5000))))
      | Some d => Some (mkStop (st_failed s || (t >? d)) false (st_deadline s))
      end
  | _ => Some s
  end.

(** A driver call that has returned a status other than [W25Q128_OK]. *)
Definition stop_failed (r : option W25Q128_Status_t) : bool :=
  match r with
  | Some W25Q128_OK | None => false
  | Some _ => true
  end.

(** Chip-select is high, and a failure has been seen exactly when the
    call has returned a status other than [W25Q128_OK]. *)
Definition stop_at (r : option W25Q128_Status_t) (s : StopState) : Prop :=
  exists dl, s = mkStop (stop_failed r) false dl.

(** *** One command on the serial line *)

(** Where [BOOT_Process] stands in a command: before the header; inside a
    frame ([driven]: the flash has been driven since); a receive inside
    the frame has timed out; ACK was sent and [more] transmissions may
    follow; finished without ACK. *)
Inductive Phase : Type :=
| PhHeader
| PhFrame (driven : bool)
| PhLost
| PhAcked (more : nat)
| PhDone.

(** The transmission is the single byte [c]. *)
Definition is_status (d : list Z) (c : Z) : bool :=
  match d with
  | [x] => x =? c
  | _ => false
  end.

(** The order of HAL calls in one command.  The first call is the header
    receive; without the two markers nothing follows.  Inside a frame the
    receives come before any flash activity; a receive that times out is
    followed by NACK at once.  NACK ends the command; ACK comes only
    after the flash has been driven and is followed by at most two
    transmissions and nothing else. *)
Definition ph_step (s : Phase) (ev : Event) : option Phase :=
  match s with
  | PhHeader =>
      match ev with
      | UART_RX d true =>
          Some (if (nth 0 d 0 =? BOOT_START_MARKER1) && (nth 1 d 0 =? BOOT_START_MARKER2)
                then PhFrame false else PhDone)
      | UART_RX _ false => Some PhDone
      | _ => None
      end
  | PhFrame driven =>
      match ev with
      | UART_RX _ ok =>
          if driven then None else Some (if ok then PhFrame false else PhLost)
      | UART_TX d _ =>
          if is_status d BOOT_NACK then Some PhDone
          else if is_status d BOOT_ACK && driven then Some (PhAcked 2)
          else None
      | _ => Some (PhFrame true)
      end
  | PhLost =>
      match ev with
      | UART_TX d _ => if is_status d BOOT_NACK then Some PhDone else None
      | _ => None
      end
  | PhAcked more =>
      match ev with
      | UART_TX _ _ =>
          match more with
          | S k => Some (PhAcked k)
          | O => None
          end
      | _ => None
      end
  | PhDone => None
  end.

(** A handler that has returned has answered; one that has not is waiting
    for the flash. *)
Definition ph_end {A : Type} : option A -> Phase -> Prop :=
  fun r s =>
    match r with
    | Some _ => s = PhDone \/ exists more, s = PhAcked more
    | None => s = PhFrame true
    end.

(** A call of [BOOT_Process] that has returned has answered or found no
    frame; one that has not is waiting for the flash, or has not got the
    two header bytes yet. *)
Definition ph_process_end {A : Type} : option A -> Phase -> Prop :=
  fun r s =>
    match r with
    | Some _ => s = PhDone \/ exists more, s = PhAcked more
    | None => s = PhFrame true \/ s = PhHeader
    end.

(** The flash has been driven. *)
Definition ph_driven {A : Type} : option A -> Phase -> Prop :=
  fun _ s => s = PhFrame true.

(** *** The session counters *)

(** [m] leaves the session record alone, and its result satisfies [P]. *)
Definition hb_keeps {A : Type} (m : M A) (P : A -> Prop) : Prop :=
  forall w,
    hboot (snd (m w)) = hboot w
    /\ match fst (m w) with
       | Some a => P a
       | None => True
       end.

(** [Q] relates the result of [m] with the session record before and
    after. *)
Definition hb {A : Type} (m : M A)
  (Q : option A -> BOOT_Handle_t -> BOOT_Handle_t -> Prop) : Prop :=
  forall w, Q (fst (m w)) (hboot w) (hboot (snd (m w))).

(** [n] more bytes written, and read. *)
Definition bump_written (n : Z) (h : BOOT_Handle_t) : BOOT_Handle_t :=
  set_total_bytes_written (u32 (total_bytes_written h + n)) h.

Definition bump_read (n : Z) (h : BOOT_Handle_t) : BOOT_Handle_t :=
  set_total_bytes_read (u32 (total_bytes_read h + n)) h.

(** The record is touched by a handler that returns [BOOT_OK] and by no
    other, and then by [bump] of a length the handler accepts. *)
Definition counts (bump : Z -> BOOT_Handle_t -> BOOT_Handle_t)
  : option BOOT_Status_t -> BOOT_Handle_t -> BOOT_Handle_t -> Prop :=
  fun r h h' =>
    match r with
    | Some BOOT_OK => exists n, 0 < n <= BOOT_MAX_DATA_SIZE /\ h' = bump n h
    | _ => h' = h
    end.

(** The record is as before. *)
Definition untouched {A : Type} : option A -> BOOT_Handle_t -> BOOT_Handle_t -> Prop :=
  fun _ h h' => h' = h.

(** *** Whole commands *)

(** The frames of the fixed-size commands, fields low byte first. *)
Definition read_frame (address len : Z) : list Z :=
  [BOOT_START_MARKER1; BOOT_START_MARKER2; BOOT_CMD_READ]
  ++ le32_bytes len ++ le32_bytes address.

Definition erase_sector_frame (address : Z) : list Z :=
  [BOOT_START_MARKER1; BOOT_START_MARKER2; BOOT_CMD_ERASE_SECTOR]
  ++ le32_bytes address.

Definition erase_chip_frame : list Z :=
  [BOOT_START_MARKER1; BOOT_START_MARKER2; BOOT_CMD_ERASE_CHIP].

(** The receives that take a frame's header off the line. *)
Definition header_rx (cmd : Z) : list Event :=
  [UART_RX [BOOT_START_MARKER1; BOOT_START_MARKER2] true; UART_RX [cmd] true].

(** *** The payload of a WRITE frame *)

(** The bytes of the successful receives of a log, in order. *)
Fixpoint rx_data (evs : list Event) : list Z :=
  match evs with
  | [] => []
  | UART_RX d true :: evs' => d ++ rx_data evs'
  | _ :: evs' => rx_data evs'
  end.

(** The sizes of the receives of a log, in order. *)
Fixpoint rx_sizes (evs : list Event) : list nat :=
  match evs with
  | [] => []
  | UART_RX d _ :: evs' => length d :: rx_sizes evs'
  | _ :: evs' => rx_sizes evs'
  end.

(** [n] bytes in blocks of 256, the remainder last. *)
Definition blocks_of_256 (n : nat) : list nat :=
  repeat 256%nat (n / 256) ++ (if (n mod 256 =? 0)%nat then [] else [(n mod 256)%nat]).
(* ================================================================== *)
(** * Properties *)

(** ** CRC-16 *)

Section CRC.


Ltac bits :=
  apply Z.bits_inj'; intros i Hi;
  repeat first
    [ rewrite Z.lxor_spec | rewrite Z.land_spec
    | rewrite Z.testbit_mod_pow2 by lia
    | rewrite Z.shiftl_spec by lia
    | rewrite Z.mul_pow2_bits by lia ].

Lemma land_0x8000 (c : Z) :
  (Z.land c 0x8000 =? 0) = negb (Z.testbit c 15).
Proof.
  change 0x8000 with (2 ^ 15).
  destruct (Z.testbit c 15) eqn:E; cbn [negb].
  - apply Z.eqb_neq. intro H.
    assert (T : Z.testbit (Z.land c (2 ^ 15)) 15 = true).
    { rewrite Z.land_spec, E, Z.pow2_bits_true by lia. reflexivity. }
    rewrite H, Z.bits_0 in T. discriminate.
  - apply Z.eqb_eq. apply Z.bits_inj'. intros i Hi.
    rewrite Z.land_spec, Z.bits_0, Z.pow2_bits_eqb by lia.
    destruct (Z.eqb_spec 15 i) as [<- | _].
    + rewrite E. reflexivity.
    + apply andb_false_r.
Qed.

Lemma crc_shift_round (c : Z) : crc_shift c = CCITT_FALSE.round c.
Proof.
  unfold crc_shift, CCITT_FALSE.round, CCITT_FALSE.high_bit_set,
    CCITT_FALSE.shift_left_one, CCITT_FALSE.poly, u16.
  rewrite land_0x8000.
  change 65536 with (2 ^ 16).
  destruct (Z.testbit c 15); cbn [negb].
  - bits. replace (2 * c) with (c * 2 ^ 1) by lia.
    rewrite Z.mul_pow2_bits by lia.
    destruct (Z.ltb_spec i 16) as [L | L]; cbn [andb]; [reflexivity|].
    replace (Z.testbit 4129 i) with false.
    + rewrite xorb_false_r. reflexivity.
    + symmetry. change 4129 with (4129 mod 2 ^ 16).
      apply Z.mod_pow2_bits_high. lia.
  - rewrite Z.shiftl_mul_pow2 by lia. f_equal. lia.
Qed.

Lemma crc_shifts_iter (n : nat) (c : Z) :
  crc_shifts n c = Nat.iter n CCITT_FALSE.round c.
Proof.
  revert c. induction n as [|n IH]; intro c; [reflexivity|].
  cbn [crc_shifts]. rewrite IH, crc_shift_round.
  symmetry. apply Nat.iter_succ_r.
Qed.

Lemma round_u16 (c : Z) : is_u16 (CCITT_FALSE.round c).
Proof.
  rewrite <- crc_shift_round. unfold crc_shift, u16, is_u16.
  destruct (Z.land c 0x8000 =? 0); apply Z.mod_pos_bound; lia.
Qed.

Lemma iter_round_u16 (n : nat) (c : Z) :
  is_u16 c -> is_u16 (Nat.iter n CCITT_FALSE.round c).
Proof.
  intro H. destruct n as [|n]; [exact H|]. cbn [Nat.iter]. apply round_u16.
Qed.

Lemma xor_high_byte (c b : Z) :
  is_u16 c -> is_byte b ->
  u16 (Z.lxor c (Z.shiftl (u16 b) 8)) = Z.lxor c (b * 2 ^ 8).
Proof.
  unfold is_u16, is_byte, u16. intros Hc Hb.
  rewrite (Z.mod_small b) by lia.
  rewrite Z.shiftl_mul_pow2 by lia.
  change 65536 with (2 ^ 16).
  bits.
  destruct (Z.ltb_spec i 16) as [L | L]; cbn [andb]; [reflexivity|].
  rewrite <- (Z.mod_small c (2 ^ 16)) by lia.
  rewrite Z.mod_pow2_bits_high by lia.
  rewrite <- (Z.mod_small b (2 ^ 8)) by lia.
  rewrite Z.mod_pow2_bits_high by lia.
  reflexivity.
Qed.

Lemma crc_byte_absorb (c b : Z) :
  is_u16 c -> is_byte b -> crc_byte c b = CCITT_FALSE.absorb c b.
Proof.
  intros Hc Hb. unfold crc_byte, CCITT_FALSE.absorb.
  rewrite crc_shifts_iter, xor_high_byte by assumption. reflexivity.
Qed.

Lemma absorb_u16 (c b : Z) : is_u16 (CCITT_FALSE.absorb c b).
Proof. unfold CCITT_FALSE.absorb. cbn [Nat.iter]. apply round_u16. Qed.

Lemma fold_crc_byte_absorb (s : list Z) :
  Forall is_byte s ->
  forall c, is_u16 c ->
    fold_left crc_byte s c = fold_left CCITT_FALSE.absorb s c.
Proof.
  induction 1 as [|b s Hb _ IH]; intros c Hc; [reflexivity|].
  cbn [fold_left]. rewrite crc_byte_absorb by assumption.
  apply IH, absorb_u16.
Qed.

Lemma round_lxor (x y : Z) :
  CCITT_FALSE.round (Z.lxor x y)
  = Z.lxor (CCITT_FALSE.feed x (CCITT_FALSE.high_bit_set y)) (CCITT_FALSE.shift_left_one y).
Proof.
  unfold CCITT_FALSE.round, CCITT_FALSE.feed, CCITT_FALSE.high_bit_set,
    CCITT_FALSE.shift_left_one.
  rewrite Z.lxor_spec.
  replace (2 * Z.lxor x y) with (Z.lxor x y * 2 ^ 1) by lia.
  replace (2 * x) with (x * 2 ^ 1) by lia.
  replace (2 * y) with (y * 2 ^ 1) by lia.
  destruct (xorb (Z.testbit x 15) (Z.testbit y 15)); bits;
    destruct (i <? 16); cbn [andb];
    destruct (Z.testbit x (i - 1)), (Z.testbit y (i - 1)),
      (Z.testbit CCITT_FALSE.poly i); reflexivity.
Qed.

Lemma iter_round_lxor (k : nat) :
  forall x y,
    Nat.iter k CCITT_FALSE.round (Z.lxor x y)
    = Z.lxor (fold_left CCITT_FALSE.feed (CCITT_FALSE.tops k y) x)
        (Nat.iter k CCITT_FALSE.shift_left_one y).
Proof.
  induction k as [|k IH]; intros x y; [reflexivity|].
  rewrite !Nat.iter_succ_r, round_lxor, IH. reflexivity.
Qed.

Lemma every_byte_leaves_msb_first :
  forallb CCITT_FALSE.byte_leaves_msb_first (map Z.of_nat (seq 0 256)) = true.
Proof. vm_compute. reflexivity. Qed.

Lemma byte_leaves_msb_first (b : Z) :
  is_byte b ->
  CCITT_FALSE.tops 8 (b * 2 ^ 8) = CCITT_FALSE.msb_first b
  /\ Nat.iter 8 CCITT_FALSE.shift_left_one (b * 2 ^ 8) = 0.
Proof.
  intro Hb. unfold is_byte in Hb.
  pose proof every_byte_leaves_msb_first as A.
  rewrite forallb_forall in A.
  assert (Hin : In b (map Z.of_nat (seq 0 256))).
  { apply in_map_iff. exists (Z.to_nat b). split; [lia|].
    apply in_seq. lia. }
  specialize (A b Hin). unfold CCITT_FALSE.byte_leaves_msb_first in A.
  apply andb_true_iff in A. destruct A as [A1 A2].
  split.
  - destruct (list_eq_dec _ _ _) as [E|]; [exact E | discriminate A1].
  - apply Z.eqb_eq. exact A2.
Qed.

Lemma absorb_serial (acc b : Z) :
  is_byte b ->
  CCITT_FALSE.absorb acc b = fold_left CCITT_FALSE.feed (CCITT_FALSE.msb_first b) acc.
Proof.
  intro Hb. unfold CCITT_FALSE.absorb.
  destruct (byte_leaves_msb_first b Hb) as [T Z0].
  rewrite iter_round_lxor, T, Z0. apply Z.lxor_0_r.
Qed.

Lemma crc16_serial_eq (s : list Z) :
  Forall is_byte s -> CCITT_FALSE.crc16 s = CCITT_FALSE.crc16_serial s.
Proof.
  unfold CCITT_FALSE.crc16, CCITT_FALSE.crc16_serial. intro H.
  generalize CCITT_FALSE.init.
  induction H as [|b s Hb _ IH]; intro acc; [reflexivity|].
  cbn [fold_left flat_map]. rewrite fold_left_app, <- absorb_serial by exact Hb.
  apply IH.
Qed.

(** C9.  On every byte sequence the code's CRC is the CRC-16/CCITT-FALSE of
    the specification (initial value 0xFFFF, polynomial 0x1021, each byte
    XORed into the high byte of the accumulator and followed by eight
    conditional shift-and-XOR rounds, nothing reflected, no final XOR); it
    is also the value of the bit-serial shift register fed the message most
    significant bit first; and the check value of the ASCII string
    123456789 is 0x29B1. *)
Theorem BOOT_CalculateCRC16_is_CCITT_FALSE (s : list Z) :
  Forall is_byte s ->
  BOOT_CalculateCRC16 s (Z.of_nat (length s)) = CCITT_FALSE.crc16 s
  /\ BOOT_CalculateCRC16 s (Z.of_nat (length s)) = CCITT_FALSE.crc16_serial s
  /\ BOOT_CalculateCRC16 (ascii_bytes KAT.check_string) 9 = 0x29B1.
Proof.
  intro Hs.
  assert (E : BOOT_CalculateCRC16 s (Z.of_nat (length s)) = CCITT_FALSE.crc16 s).
  { unfold BOOT_CalculateCRC16, CCITT_FALSE.crc16.
    rewrite Nat2Z.id, firstn_all.
    apply fold_crc_byte_absorb; [exact Hs|].
    unfold is_u16, CCITT_FALSE.init. lia. }
  split; [exact E|]. split; [|vm_compute; reflexivity].
  rewrite E. apply crc16_serial_eq. exact Hs.
Qed.

End CRC.

Lemma BOOT_CalculateCRC16_is_CCITT_FALSE_witness :
  Forall is_byte [0xDE; 0xAD; 0xBE; 0xEF]
  /\ BOOT_CalculateCRC16 [0xDE; 0xAD; 0xBE; 0xEF] 4
     = CCITT_FALSE.crc16 [0xDE; 0xAD; 0xBE; 0xEF].
Proof.
  assert (H : Forall is_byte [0xDE; 0xAD; 0xBE; 0xEF])
    by (repeat constructor; unfold is_byte; lia).
  split; [exact H|].
  exact (proj1 (BOOT_CalculateCRC16_is_CCITT_FALSE [0xDE; 0xAD; 0xBE; 0xEF] H)).
Defined.

(* ================================================================== *)
(** ** Stepping through the HAL *)

Lemma u16_small (n : Z) : 0 <= n < 65536 -> u16 n = n.
Proof. intro H. unfold u16. apply Z.mod_small. exact H. Qed.

Lemma uart_receive_enough (n timeout : Z) (pre rest : list Z) e l p h :
  length pre = Z.to_nat (u16 n) ->
  HAL_UART_Receive n timeout (mkWorld e (pre ++ rest) l p h)
  = (Some (Some (map u8 pre)),
     mkWorld e rest (l ++ [UART_RX (map u8 pre) true]) p h).
Proof.
  intro H. unfold HAL_UART_Receive, emit, set_uart_in. cbn [uart_in env log page_calls hboot].
  cbv zeta. rewrite <- H.
  replace (length pre <=? length (pre ++ rest))%nat with true.
  - rewrite firstn_app, Nat.sub_diag, firstn_all, skipn_app, Nat.sub_diag, skipn_all.
    cbn [firstn skipn]. rewrite app_nil_r. reflexivity.
  - symmetry. apply Nat.leb_le. rewrite length_app. lia.
Qed.

Lemma uart_receive_short (n timeout : Z) (inp : list Z) e l p h :
  (length inp < Z.to_nat (u16 n))%nat ->
  timeout <> HAL_MAX_DELAY ->
  HAL_UART_Receive n timeout (mkWorld e inp l p h)
  = (Some None, mkWorld e [] (l ++ [UART_RX (map u8 inp) false]) p h).
Proof.
  intros H Ht. unfold HAL_UART_Receive, emit, set_uart_in.
  cbn [uart_in env log page_calls hboot]. cbv zeta.
  replace (Z.to_nat (u16 n) <=? length inp)%nat with false
    by (symmetry; apply Nat.leb_gt; exact H).
  replace (timeout =? HAL_MAX_DELAY) with false
    by (symmetry; apply Z.eqb_neq; exact Ht).
  reflexivity.
Qed.

(** A receive without time-out that lacks bytes does not return, and has
    done nothing. *)
Lemma uart_receive_waits (n : Z) (w : World) :
  (length (uart_in w) < Z.to_nat (u16 n))%nat ->
  HAL_UART_Receive n HAL_MAX_DELAY w = (None, w).
Proof.
  intro H. unfold HAL_UART_Receive. cbv zeta.
  replace (Z.to_nat (u16 n) <=? length (uart_in w))%nat with false
    by (symmetry; apply Nat.leb_gt; exact H).
  reflexivity.
Qed.

Lemma uart_sent_app (a b : list Event) :
  uart_sent (a ++ b) = uart_sent a ++ uart_sent b.
Proof.
  induction a as [|e a IH]; [reflexivity|].
  destruct e; cbn [app uart_sent]; rewrite IH; auto using app_assoc.
Qed.

(** [BOOT_Process] on a frame that starts with the two markers hands the
    rest of the line to the dispatch on the command byte. *)
Lemma BOOT_Process_header (fuel : nat) (w : World) (c : Z) (rest : list Z) :
  uart_in w = BOOT_START_MARKER1 :: BOOT_START_MARKER2 :: c :: rest ->
  BOOT_Process fuel w =
  (let command := u8 c in
   if command =? BOOT_CMD_WRITE then (BOOT_HandleWrite fuel ;; ret tt)
   else if command =? BOOT_CMD_READ then (BOOT_HandleRead ;; ret tt)
   else if command =? BOOT_CMD_ERASE_SECTOR then (BOOT_HandleEraseSector fuel ;; ret tt)
   else if command =? BOOT_CMD_ERASE_CHIP then (BOOT_HandleEraseChip fuel ;; ret tt)
   else if command =? BOOT_CMD_GET_INFO then (BOOT_HandleGetInfo ;; ret tt)
   else (BOOT_SendResponse BOOT_NACK ;; ret tt))
    (after_frame_header w (u8 c) rest).
Proof.
  destruct w as [e i l p h]. cbn [uart_in]. intros ->.
  unfold BOOT_Process, BOOT_ReceiveData, bind at 1.
  change (BOOT_START_MARKER1 :: BOOT_START_MARKER2 :: c :: rest)
    with ([BOOT_START_MARKER1; BOOT_START_MARKER2] ++ c :: rest).
  rewrite uart_receive_enough by reflexivity.
  change (map u8 [BOOT_START_MARKER1; BOOT_START_MARKER2])
    with [BOOT_START_MARKER1; BOOT_START_MARKER2].
  cbn [nth]. rewrite !Z.eqb_refl. cbn [negb orb].
  unfold bind at 1.
  change (c :: rest) with ([c] ++ rest).
  rewrite uart_receive_enough by reflexivity.
  unfold after_frame_header. cbn [map nth env log page_calls hboot].
  rewrite <- app_assoc. reflexivity.
Qed.

(* ================================================================== *)
(** ** Length validation of WRITE and READ *)

Lemma length_out_of_range_test (n : Z) :
  length_out_of_range n ->
  (n =? 0) || (n >? BOOT_MAX_DATA_SIZE) = true.
Proof.
  intros [-> | H]; [reflexivity|].
  apply orb_true_iff. right. apply Z.gtb_lt. lia.
Qed.

Lemma send_response_run (r : Z) e i l p h :
  BOOT_SendResponse r (mkWorld e i l p h)
  = (Some (if uart_tx_ok e (length l) then BOOT_OK else BOOT_ERROR),
     mkWorld e i (l ++ [UART_TX [r] (uart_tx_ok e (length l))]) p h).
Proof.
  unfold BOOT_SendResponse, HAL_UART_Transmit, bind, ret, emit, step.
  cbn [env uart_in log page_calls hboot].
  destruct (uart_tx_ok e (length l)); reflexivity.
Qed.

Lemma BOOT_HandleWrite_length_rejected (fuel : nat) (b0 b1 b2 b3 : Z) (rest : list Z) e l p h :
  length_out_of_range (le32 (map u8 [b0; b1; b2; b3])) ->
  exists ok,
    BOOT_HandleWrite fuel (mkWorld e (b0 :: b1 :: b2 :: b3 :: rest) l p h)
    = (Some BOOT_ERROR,
       mkWorld e rest
         (l ++ [UART_RX (map u8 [b0; b1; b2; b3]) true; UART_TX [BOOT_NACK] ok]) p h).
Proof.
  intro H. eexists.
  unfold BOOT_HandleWrite, BOOT_ReceiveData. unfold bind at 1.
  change (b0 :: b1 :: b2 :: b3 :: rest) with ([b0; b1; b2; b3] ++ rest).
  rewrite uart_receive_enough by reflexivity.
  cbv zeta. rewrite (length_out_of_range_test _ H).
  unfold bind at 1. rewrite send_response_run. unfold ret.
  rewrite <- app_assoc. reflexivity.
Qed.

Lemma BOOT_HandleRead_length_rejected (b0 b1 b2 b3 : Z) (rest : list Z) e l p h :
  length_out_of_range (le32 (map u8 [b0; b1; b2; b3])) ->
  exists ok,
    BOOT_HandleRead (mkWorld e (b0 :: b1 :: b2 :: b3 :: rest) l p h)
    = (Some BOOT_ERROR,
       mkWorld e rest
         (l ++ [UART_RX (map u8 [b0; b1; b2; b3]) true; UART_TX [BOOT_NACK] ok]) p h).
Proof.
  intro H. eexists.
  unfold BOOT_HandleRead, BOOT_ReceiveData. unfold bind at 1.
  change (b0 :: b1 :: b2 :: b3 :: rest) with ([b0; b1; b2; b3] ++ rest).
  rewrite uart_receive_enough by reflexivity.
  cbv zeta. rewrite (length_out_of_range_test _ H).
  unfold bind at 1. rewrite send_response_run. unfold ret.
  rewrite <- app_assoc. reflexivity.
Qed.

(** C8.  A WRITE frame whose length field is 0 or above 4096: the engine
    reads the markers, the command byte and the four length bytes, sends
    the single byte NACK and returns; everything after the length field,
    the four address bytes first, is still unread, no flash operation has
    been started and the counters are untouched. *)
Theorem WRITE_bad_length_nack_before_address
  (fuel : nat) (w : World) (b0 b1 b2 b3 : Z) (rest : list Z) :
  uart_in w =
    BOOT_START_MARKER1 :: BOOT_START_MARKER2 :: BOOT_CMD_WRITE
      :: b0 :: b1 :: b2 :: b3 :: rest ->
  length_out_of_range (le32 (map u8 [b0; b1; b2; b3])) ->
  exists ok,
    BOOT_Process fuel w
    = (Some tt,
       mkWorld (env w) rest
         (log w ++
            [ UART_RX [BOOT_START_MARKER1; BOOT_START_MARKER2] true;
              UART_RX [BOOT_CMD_WRITE] true;
              UART_RX (map u8 [b0; b1; b2; b3]) true;
              UART_TX [BOOT_NACK] ok ])
         (page_calls w) (hboot w)).
Proof.
  intros Hin Hlen.
  rewrite (BOOT_Process_header fuel w _ _ Hin).
  change (u8 BOOT_CMD_WRITE) with BOOT_CMD_WRITE. cbv zeta.
  change (BOOT_CMD_WRITE =? BOOT_CMD_WRITE) with true. cbv iota.
  unfold after_frame_header.
  destruct (BOOT_HandleWrite_length_rejected fuel b0 b1 b2 b3 rest (env w)
              (log w ++ [UART_RX [BOOT_START_MARKER1; BOOT_START_MARKER2] true;
                         UART_RX [BOOT_CMD_WRITE] true])
              (page_calls w) (hboot w) Hlen) as [ok E].
  exists ok. unfold bind at 1. rewrite E. unfold ret.
  rewrite <- app_assoc. reflexivity.
Qed.

(** C10.  A READ frame whose length field is 0 or above 4096: the engine
    reads the markers, the command byte and the four length bytes, sends
    the single byte NACK and returns; the address bytes are still unread
    and no flash operation has been started. *)
Theorem READ_bad_length_nack_before_address
  (fuel : nat) (w : World) (b0 b1 b2 b3 : Z) (rest : list Z) :
  uart_in w =
    BOOT_START_MARKER1 :: BOOT_START_MARKER2 :: BOOT_CMD_READ
      :: b0 :: b1 :: b2 :: b3 :: rest ->
  length_out_of_range (le32 (map u8 [b0; b1; b2; b3])) ->
  exists ok,
    BOOT_Process fuel w
    = (Some tt,
       mkWorld (env w) rest
         (log w ++
            [ UART_RX [BOOT_START_MARKER1; BOOT_START_MARKER2] true;
              UART_RX [BOOT_CMD_READ] true;
              UART_RX (map u8 [b0; b1; b2; b3]) true;
              UART_TX [BOOT_NACK] ok ])
         (page_calls w) (hboot w)).
Proof.
  intros Hin Hlen.
  rewrite (BOOT_Process_header fuel w _ _ Hin).
  change (u8 BOOT_CMD_READ) with BOOT_CMD_READ. cbv zeta.
  change (BOOT_CMD_READ =? BOOT_CMD_WRITE) with false.
  change (BOOT_CMD_READ =? BOOT_CMD_READ) with true. cbv iota.
  unfold after_frame_header.
  destruct (BOOT_HandleRead_length_rejected b0 b1 b2 b3 rest (env w)
              (log w ++ [UART_RX [BOOT_START_MARKER1; BOOT_START_MARKER2] true;
                         UART_RX [BOOT_CMD_READ] true])
              (page_calls w) (hboot w) Hlen) as [ok E].
  exists ok. unfold bind at 1. rewrite E. unfold ret.
  rewrite <- app_assoc. reflexivity.
Qed.

Lemma WRITE_bad_length_nack_before_address_witness :
  length_out_of_range (le32 (map u8 [0x01; 0x10; 0x00; 0x00]))
  /\ exists ok,
       BOOT_Process 0
         (fresh_world quiet_env
            [0xAA; 0x55; 0x01; 0x01; 0x10; 0x00; 0x00; 0x80; 0x00; 0x00; 0x00])
       = (Some tt,
          mkWorld quiet_env [0x80; 0x00; 0x00; 0x00]
            [ UART_RX [0xAA; 0x55] true; UART_RX [0x01] true;
              UART_RX [0x01; 0x10; 0x00; 0x00] true; UART_TX [0x1F] ok ]
            [] (mkBoot (repeat 0 (Z.to_nat BOOT_BUFFER_SIZE)) 0 0)).
Proof.
  assert (H : length_out_of_range (le32 (map u8 [0x01; 0x10; 0x00; 0x00])))
    by (right; vm_compute; reflexivity).
  split; [exact H|].
  exact (WRITE_bad_length_nack_before_address 0
           (fresh_world quiet_env
              [0xAA; 0x55; 0x01; 0x01; 0x10; 0x00; 0x00; 0x80; 0x00; 0x00; 0x00])
           0x01 0x10 0x00 0x00 [0x80; 0x00; 0x00; 0x00] eq_refl H).
Defined.

Lemma READ_bad_length_nack_before_address_witness :
  length_out_of_range (le32 (map u8 [0x00; 0x00; 0x00; 0x00]))
  /\ exists ok,
       BOOT_Process 0
         (fresh_world quiet_env
            [0xAA; 0x55; 0x02; 0x00; 0x00; 0x00; 0x00; 0x00; 0x10; 0x00; 0x00])
       = (Some tt,
          mkWorld quiet_env [0x00; 0x10; 0x00; 0x00]
            [ UART_RX [0xAA; 0x55] true; UART_RX [0x02] true;
              UART_RX [0x00; 0x00; 0x00; 0x00] true; UART_TX [0x1F] ok ]
            [] (mkBoot (repeat 0 (Z.to_nat BOOT_BUFFER_SIZE)) 0 0)).
Proof.
  assert (H : length_out_of_range (le32 (map u8 [0x00; 0x00; 0x00; 0x00])))
    by (left; reflexivity).
  split; [exact H|].
  exact (READ_bad_length_nack_before_address 0
           (fresh_world quiet_env
              [0xAA; 0x55; 0x02; 0x00; 0x00; 0x00; 0x00; 0x00; 0x10; 0x00; 0x00])
           0x00 0x00 0x00 0x00 [0x00; 0x10; 0x00; 0x00] eq_refl H).
Defined.

(* ================================================================== *)
(** ** GET_INFO *)

Lemma W25Q128_ReadID_inv (w w2 : World) (r : option (W25Q128_Status_t * option (Z * Z))) :
  W25Q128_ReadID w = (r, w2) ->
  uart_sent (log w2) = uart_sent (log w).
Proof.
  unfold W25Q128_ReadID, CS_LOW, CS_HIGH, HAL_GPIO_WritePin, HAL_SPI_Transmit,
    HAL_SPI_Receive, bind, ret, emit, step.
  cbn [env uart_in log page_calls hboot].
  repeat match goal with
         | |- context [if ?b then _ else _] => destruct b; cbn [negb env log]
         end;
    intro E; inversion E; subst; cbn [log];
    rewrite !uart_sent_app; cbn [uart_sent]; rewrite !app_nil_r; reflexivity.
Qed.

Lemma W25Q128_ReadJEDECID_inv (w w2 : World) (r : option (W25Q128_Status_t * option (list Z))) :
  W25Q128_ReadJEDECID w = (r, w2) ->
  uart_sent (log w2) = uart_sent (log w).
Proof.
  unfold W25Q128_ReadJEDECID, CS_LOW, CS_HIGH, HAL_GPIO_WritePin, HAL_SPI_Transmit,
    HAL_SPI_Receive, bind, ret, emit, step.
  cbn [env uart_in log page_calls hboot].
  repeat match goal with
         | |- context [if ?b then _ else _] => destruct b; cbn [negb env log]
         end;
    intro E; inversion E; subst; cbn [log];
    rewrite !uart_sent_app; cbn [uart_sent]; rewrite !app_nil_r; reflexivity.
Qed.

Lemma send_data_sent (data : list Z) (n : Z) (w : World) :
  uart_sent (log (snd (BOOT_SendData data n w)))
  = uart_sent (log w) ++ firstn (Z.to_nat (u16 n)) data.
Proof.
  unfold BOOT_SendData, HAL_UART_Transmit, bind, ret, emit.
  cbn [env uart_in log page_calls hboot].
  destruct (uart_tx_ok (env w) (step w)); cbn [negb snd log];
    rewrite uart_sent_app; cbn [uart_sent]; rewrite app_nil_r; reflexivity.
Qed.

Lemma send_response_sent (r : Z) (w : World) :
  uart_sent (log (snd (BOOT_SendResponse r w))) = uart_sent (log w) ++ [r].
Proof.
  unfold BOOT_SendResponse, HAL_UART_Transmit, bind, ret, emit.
  cbn [env uart_in log page_calls hboot].
  destruct (uart_tx_ok (env w) (step w)); cbn [negb snd log];
    rewrite uart_sent_app; reflexivity.
Qed.

Lemma bind_snd_some {A B : Type} (m : M A) (k : A -> M B) (w w1 : World) (a : A) :
  m w = (Some a, w1) -> bind m k w = k a w1.
Proof. intro H. unfold bind. rewrite H. reflexivity. Qed.

Lemma BOOT_HandleGetInfo_sent (w w2 w3 : World) (m d j0 j1 j2 : Z) :
  W25Q128_ReadID w = (Some (W25Q128_OK, Some (m, d)), w2) ->
  W25Q128_ReadJEDECID w2 = (Some (W25Q128_OK, Some [j0; j1; j2]), w3) ->
  uart_sent (log (snd (BOOT_HandleGetInfo w)))
  = uart_sent (log w)
      ++ [BOOT_ACK; m; d; j0; j1; j2; 0x00; 0x00; 0x00; 0x01; 0x00; 0x01; 0x00; 0x10].
Proof.
  intros H1 H2. unfold BOOT_HandleGetInfo.
  rewrite (bind_snd_some _ _ _ _ _ H1). cbv iota beta.
  rewrite (bind_snd_some _ _ _ _ _ H2). cbv iota beta zeta.
  cbn [nth].
  unfold bind at 1.
  destruct (BOOT_SendResponse BOOT_ACK w3) as [[r|] w4] eqn:E1.
  2:{ unfold BOOT_SendResponse, HAL_UART_Transmit, bind, ret in E1.
      destruct (negb _) in E1; discriminate. }
  unfold bind at 1.
  destruct (BOOT_SendData _ 13 w4) as [[r'|] w5] eqn:E2.
  2:{ unfold BOOT_SendData, HAL_UART_Transmit, bind, ret in E2.
      destruct (negb _) in E2; discriminate. }
  unfold ret. cbn [snd].
  change w5 with (snd (Some r', w5)). rewrite <- E2, send_data_sent.
  change w4 with (snd (Some r, w4)). rewrite <- E1, send_response_sent.
  rewrite (W25Q128_ReadJEDECID_inv _ _ _ H2), (W25Q128_ReadID_inv _ _ _ H1).
  rewrite <- app_assoc. reflexivity.
Qed.

(** C2 (as amended).  A GET_INFO frame (AA 55 05) on the W25Q128 build,
    the driver returning the IDs (0xEF, 0x17) and the JEDEC ID EF 40 18:
    the engine transmits exactly ACK and the 13-byte info block, that is
    the 14 bytes 79 EF 17 EF 40 18 00 00 00 01 00 01 00 10.  (Stated for
    any IDs the driver returns.) *)
Theorem GET_INFO_response
  (fuel : nat) (w w2 w3 : World) (rest : list Z) (m d j0 j1 j2 : Z) :
  uart_in w = BOOT_START_MARKER1 :: BOOT_START_MARKER2 :: BOOT_CMD_GET_INFO :: rest ->
  W25Q128_ReadID (after_frame_header w BOOT_CMD_GET_INFO rest)
    = (Some (W25Q128_OK, Some (m, d)), w2) ->
  W25Q128_ReadJEDECID w2 = (Some (W25Q128_OK, Some [j0; j1; j2]), w3) ->
  uart_sent (log (snd (BOOT_Process fuel w)))
  = uart_sent (log w)
      ++ [0x79; m; d; j0; j1; j2; 0x00; 0x00; 0x00; 0x01; 0x00; 0x01; 0x00; 0x10].
Proof.
  intros Hin H1 H2.
  rewrite (BOOT_Process_header fuel w _ _ Hin).
  change (u8 BOOT_CMD_GET_INFO) with BOOT_CMD_GET_INFO. cbv zeta.
  change (BOOT_CMD_GET_INFO =? BOOT_CMD_WRITE) with false.
  change (BOOT_CMD_GET_INFO =? BOOT_CMD_READ) with false.
  change (BOOT_CMD_GET_INFO =? BOOT_CMD_ERASE_SECTOR) with false.
  change (BOOT_CMD_GET_INFO =? BOOT_CMD_ERASE_CHIP) with false.
  change (BOOT_CMD_GET_INFO =? BOOT_CMD_GET_INFO) with true. cbv iota.
  pose proof (BOOT_HandleGetInfo_sent _ _ _ _ _ _ _ _ H1 H2) as S.
  unfold bind at 1.
  destruct (BOOT_HandleGetInfo (after_frame_header w BOOT_CMD_GET_INFO rest))
    as [[r|] w4]; cbn [snd ret] in *; rewrite S;
    unfold after_frame_header; cbn [log];
    rewrite uart_sent_app; cbn [uart_sent]; rewrite app_nil_r; reflexivity.
Qed.

Lemma GET_INFO_response_witness :
  uart_sent (log (snd (BOOT_Process 0 (fresh_world w25q128_id_env [0xAA; 0x55; 0x05]))))
  = [0x79; 0xEF; 0x17; 0xEF; 0x40; 0x18; 0x00; 0x00; 0x00; 0x01; 0x00; 0x01; 0x00; 0x10].
Proof.
  exact (GET_INFO_response 0 (fresh_world w25q128_id_env [0xAA; 0x55; 0x05])
           _ _ [] 0xEF 0x17 0xEF 0x40 0x18 eq_refl eq_refl eq_refl).
Defined.

(** C2 (as printed).  With the driver returning (0xEF, 0x17) and EF 40 18,
    the bytes transmitted for AA 55 05 are not the fifteen bytes
    79 EF 17 EF 40 18 00 00 00 01 00 01 10 00 10 of scenario S1. *)
Lemma GET_INFO_printed_response_differs :
  fst (W25Q128_ReadID
         (after_frame_header (fresh_world w25q128_id_env [0xAA; 0x55; 0x05])
            BOOT_CMD_GET_INFO []))
    = Some (W25Q128_OK, Some (0xEF, 0x17))
  /\ fst (W25Q128_ReadJEDECID
            (snd (W25Q128_ReadID
                    (after_frame_header (fresh_world w25q128_id_env [0xAA; 0x55; 0x05])
                       BOOT_CMD_GET_INFO []))))
    = Some (W25Q128_OK, Some [0xEF; 0x40; 0x18])
  /\ uart_sent (log (snd (BOOT_Process 0 (fresh_world w25q128_id_env [0xAA; 0x55; 0x05]))))
     <> S1_printed_response.
Proof.
  split; [vm_compute; reflexivity|].
  split; [vm_compute; reflexivity|].
  intro H. vm_compute in H. discriminate H.
Qed.

(* ================================================================== *)
(** ** WRITE with a wrong CRC *)

Lemma BOOT_ReceivePayload_complete (n : nat) :
  forall (payload acc rest : list Z) e l p h,
    (length payload <= n)%nat ->
    exists rx,
      BOOT_ReceivePayload n acc (Z.of_nat (length payload))
        (mkWorld e (payload ++ rest) l p h)
      = (Some (Some (acc ++ map u8 payload)), mkWorld e rest (l ++ rx) p h)
      /\ Forall is_uart_rx rx.
Proof.
  induction n as [|n IH]; intros payload acc rest e l p h Hn.
  - destruct payload as [|b payload]; [|cbn [length] in Hn; lia].
    exists []. cbn. rewrite !app_nil_r. split; [reflexivity|constructor].
  - destruct payload as [|b payload].
    { exists []. cbn. rewrite !app_nil_r. split; [reflexivity|constructor]. }
    set (pl := b :: payload) in *.
    assert (Hpos : 0 < Z.of_nat (length pl)) by (subst pl; cbn [length]; lia).
    cbn [BOOT_ReceivePayload].
    replace (Z.of_nat (length pl) >? 0) with true by (symmetry; apply Z.gtb_lt; lia).
    set (chunk_size :=
           if Z.of_nat (length pl) >? BOOT_BUFFER_SIZE
           then BOOT_BUFFER_SIZE else Z.of_nat (length pl)).
    assert (Hc : 0 < chunk_size <= Z.of_nat (length pl)).
    { subst chunk_size. unfold BOOT_BUFFER_SIZE.
      destruct (Z.gtb_spec (Z.of_nat (length pl)) 256); lia. }
    assert (Hc16 : u16 chunk_size = chunk_size).
    { apply u16_small. subst chunk_size. unfold BOOT_BUFFER_SIZE in *.
      destruct (Z.gtb_spec (Z.of_nat (length pl)) 256); lia. }
    set (k := Z.to_nat chunk_size).
    assert (Hk : (0 < k <= length pl)%nat) by (subst k; lia).
    unfold BOOT_ReceiveData. unfold bind at 1.
    replace (pl ++ rest) with (firstn k pl ++ skipn k pl ++ rest)
      by (rewrite app_assoc, firstn_skipn; reflexivity).
    rewrite uart_receive_enough by (rewrite length_firstn, Hc16; lia).
    replace (Z.of_nat (length pl) - chunk_size)
      with (Z.of_nat (length (skipn k pl))) by (rewrite length_skipn; lia).
    destruct (IH (skipn k pl) (acc ++ map u8 (firstn k pl)) rest e
                (l ++ [UART_RX (map u8 (firstn k pl)) true]) p h)
      as [rx [E F]].
    { rewrite length_skipn. lia. }
    exists (UART_RX (map u8 (firstn k pl)) true :: rx). split.
    + rewrite E. rewrite <- !app_assoc, <- map_app, firstn_skipn. reflexivity.
    + constructor; [eexists; reflexivity|exact F].
Qed.

Lemma BOOT_HandleWrite_bad_crc
  (fuel : nat) (l0 l1 l2 l3 a0 a1 a2 a3 c0 c1 : Z) (payload rest : list Z) e l p h :
  le32 (map u8 [l0; l1; l2; l3]) = Z.of_nat (length payload) ->
  0 < Z.of_nat (length payload) <= BOOT_MAX_DATA_SIZE ->
  le16 (map u8 [c0; c1])
    <> BOOT_CalculateCRC16 (map u8 payload) (Z.of_nat (length payload)) ->
  exists rx ok,
    BOOT_HandleWrite fuel
      (mkWorld e (l0 :: l1 :: l2 :: l3 :: a0 :: a1 :: a2 :: a3 :: payload ++ c0 :: c1 :: rest)
         l p h)
    = (Some BOOT_CRC_ERR, mkWorld e rest (l ++ rx ++ [UART_TX [BOOT_NACK] ok]) p h)
    /\ Forall is_uart_rx rx.
Proof.
  intros Hlen Hrange Hcrc.
  unfold BOOT_HandleWrite, BOOT_ReceiveData. unfold bind at 1.
  change (l0 :: l1 :: l2 :: l3 :: a0 :: a1 :: a2 :: a3 :: payload ++ c0 :: c1 :: rest)
    with ([l0; l1; l2; l3] ++ [a0; a1; a2; a3] ++ payload ++ [c0; c1] ++ rest).
  rewrite uart_receive_enough by reflexivity.
  cbv zeta. rewrite Hlen.
  replace ((Z.of_nat (length payload) =? 0)
           || (Z.of_nat (length payload) >? BOOT_MAX_DATA_SIZE)) with false.
  2:{ symmetry. apply orb_false_iff. split.
      - apply Z.eqb_neq. lia.
      - rewrite Z.gtb_ltb. apply Z.ltb_ge. lia. }
  unfold bind at 1. rewrite uart_receive_enough by reflexivity.
  rewrite Nat2Z.id.
  destruct (BOOT_ReceivePayload_complete (length payload) payload [] ([c0; c1] ++ rest) e
              ((l ++ [UART_RX (map u8 [l0; l1; l2; l3]) true])
                 ++ [UART_RX (map u8 [a0; a1; a2; a3]) true]) p h (le_n _))
    as [rx [E F]].
  unfold bind at 1. rewrite E. cbn [app].
  unfold bind at 1.
  change (c0 :: c1 :: rest) with ([c0; c1] ++ rest).
  rewrite uart_receive_enough by reflexivity.
  replace (le16 (map u8 [c0; c1])
           =? BOOT_CalculateCRC16 (map u8 payload) (Z.of_nat (length payload)))
    with false by (symmetry; apply Z.eqb_neq; exact Hcrc).
  cbn [negb]. unfold bind at 1. rewrite send_response_run. unfold ret.
  eexists (UART_RX (map u8 [l0; l1; l2; l3]) true
             :: UART_RX (map u8 [a0; a1; a2; a3]) true
             :: rx ++ [UART_RX (map u8 [c0; c1]) true]), _.
  split.
  - rewrite <- !app_assoc. cbn [app]. rewrite <- !app_assoc. reflexivity.
  - repeat (constructor; [eexists; reflexivity|]).
    apply Forall_app. split; [exact F|].
    constructor; [eexists; reflexivity|constructor].
Qed.

(** C4.  A complete WRITE frame with a valid length whose trailing CRC
    differs from the CRC-16 of the payload: the engine only receives (the
    whole frame), transmits the single byte NACK (0x1F), and stops; no
    chip-select or SPI activity and no page-program call has taken place
    and [total_bytes_written] (like the rest of the handle) is unchanged. *)
Theorem WRITE_bad_crc_is_atomic
  (fuel : nat) (w : World) (l0 l1 l2 l3 a0 a1 a2 a3 c0 c1 : Z) (payload rest : list Z) :
  uart_in w =
    BOOT_START_MARKER1 :: BOOT_START_MARKER2 :: BOOT_CMD_WRITE
      :: l0 :: l1 :: l2 :: l3 :: a0 :: a1 :: a2 :: a3 :: payload ++ c0 :: c1 :: rest ->
  le32 (map u8 [l0; l1; l2; l3]) = Z.of_nat (length payload) ->
  0 < Z.of_nat (length payload) <= BOOT_MAX_DATA_SIZE ->
  le16 (map u8 [c0; c1])
    <> BOOT_CalculateCRC16 (map u8 payload) (Z.of_nat (length payload)) ->
  exists rx ok,
    BOOT_Process fuel w
    = (Some tt,
       mkWorld (env w) rest (log w ++ rx ++ [UART_TX [BOOT_NACK] ok])
         (page_calls w) (hboot w))
    /\ Forall is_uart_rx rx.
Proof.
  intros Hin Hlen Hrange Hcrc.
  rewrite (BOOT_Process_header fuel w _ _ Hin).
  change (u8 BOOT_CMD_WRITE) with BOOT_CMD_WRITE. cbv zeta.
  change (BOOT_CMD_WRITE =? BOOT_CMD_WRITE) with true. cbv iota.
  unfold after_frame_header.
  destruct (BOOT_HandleWrite_bad_crc fuel l0 l1 l2 l3 a0 a1 a2 a3 c0 c1 payload rest
              (env w)
              (log w ++ [UART_RX [BOOT_START_MARKER1; BOOT_START_MARKER2] true;
                         UART_RX [BOOT_CMD_WRITE] true])
              (page_calls w) (hboot w) Hlen Hrange Hcrc) as [rx [ok [E F]]].
  exists (UART_RX [BOOT_START_MARKER1; BOOT_START_MARKER2] true
            :: UART_RX [BOOT_CMD_WRITE] true :: rx), ok.
  split.
  - unfold bind at 1. rewrite E. unfold ret.
    rewrite <- !app_assoc. reflexivity.
  - repeat (constructor; [eexists; reflexivity|]). exact F.
Qed.

Lemma WRITE_bad_crc_is_atomic_witness :
  exists rx ok,
    BOOT_Process 0
      (fresh_world quiet_env
         [0xAA; 0x55; 0x01; 0x02; 0x00; 0x00; 0x00; 0x80; 0x00; 0x00; 0x00;
          0x31; 0x32; 0x00; 0x00])
    = (Some tt,
       mkWorld quiet_env [] ([] ++ rx ++ [UART_TX [BOOT_NACK] ok]) []
         (mkBoot (repeat 0 (Z.to_nat BOOT_BUFFER_SIZE)) 0 0))
    /\ Forall is_uart_rx rx.
Proof.
  apply (WRITE_bad_crc_is_atomic 0
           (fresh_world quiet_env
              [0xAA; 0x55; 0x01; 0x02; 0x00; 0x00; 0x00; 0x80; 0x00; 0x00; 0x00;
               0x31; 0x32; 0x00; 0x00])
           0x02 0x00 0x00 0x00 0x80 0x00 0x00 0x00 0x00 0x00 [0x31; 0x32] []).
  - reflexivity.
  - reflexivity.
  - cbn [length]. unfold BOOT_MAX_DATA_SIZE. lia.
  - vm_compute. discriminate.
Defined.

(* ================================================================== *)
(** ** Framing *)










(* ================================================================== *)
(** ** Busy polling *)

Lemma W25Q128_ReadStatusRegister_cases e i l p h :
  W25Q128_ReadStatusRegister (mkWorld e i l p h)
  = (Some (W25Q128_ERROR, None),
     mkWorld e i
       (l ++ [GPIO_CS false; SPI_TX [W25Q128_CMD_READ_STATUS_REG1] false; GPIO_CS true])
       p h)
  \/ W25Q128_ReadStatusRegister (mkWorld e i l p h)
     = (Some (W25Q128_ERROR, None),
        mkWorld e i
          (l ++ [GPIO_CS false; SPI_TX [W25Q128_CMD_READ_STATUS_REG1] true;
                 SPI_RX [] false; GPIO_CS true])
          p h)
  \/ exists s,
       W25Q128_ReadStatusRegister (mkWorld e i l p h)
       = (Some (W25Q128_OK, Some s), mkWorld e i (l ++ status_read_ok s) p h).
Proof.
  unfold W25Q128_ReadStatusRegister, CS_LOW, CS_HIGH, HAL_GPIO_WritePin,
    HAL_SPI_Transmit, HAL_SPI_Receive, bind, ret, emit, step, status_read_ok.
  cbn [env uart_in log page_calls hboot].
  destruct (spi_ok e (length (l ++ [GPIO_CS false]))); cbn [negb].
  - match goal with |- context [if ?b then _ else _] => destruct b end.
    + right; right. eexists. cbn [env uart_in log page_calls hboot].
      rewrite <- !app_assoc. cbn [app map seq Z.to_nat Pos.to_nat Pos.iter_op Nat.add nth].
      reflexivity.
    + right; left. cbn [env uart_in log page_calls hboot].
      rewrite <- !app_assoc. reflexivity.
  - left. cbn [env uart_in log page_calls hboot]. rewrite <- !app_assoc. reflexivity.
Qed.

Lemma HAL_GetTick_run e i l p h :
  HAL_GetTick (mkWorld e i l p h)
  = (Some (u32 (clock e (length l))),
     mkWorld e i (l ++ [TICK (u32 (clock e (length l)))]) p h).
Proof. reflexivity. Qed.

Lemma W25Q128_WaitForWriteEnd_loop_polls (fuel : nat) :
  forall (timeout status : Z) e i l p h,
  exists polls r,
    W25Q128_WaitForWriteEnd_loop fuel timeout status (mkWorld e i l p h)
    = (r, mkWorld e i (l ++ polls) p h)
    /\ poll_run timeout polls r.
Proof.
  induction fuel as [|fuel IH]; intros timeout status e i l p h.
  - exists [], None. cbn. rewrite app_nil_r. split; [reflexivity|constructor].
  - cbn [W25Q128_WaitForWriteEnd_loop]. unfold bind at 1.
    destruct (W25Q128_ReadStatusRegister_cases e i l p h) as [E | [E | [s E]]];
      rewrite E; cbn [fst snd is_OK negb].
    + do 2 eexists. split; [reflexivity|constructor].
    + do 2 eexists. split; [reflexivity|constructor].
    + unfold bind at 1. rewrite HAL_GetTick_run.
      set (t := u32 (clock e (length (l ++ status_read_ok s)))).
      destruct (Z.gtb_spec t timeout) as [Ht | Ht].
      * exists (status_read_ok s ++ [TICK t]), (Some W25Q128_TIMEOUT). unfold ret.
        split; [rewrite <- app_assoc; reflexivity|].
        apply poll_overrun. lia.
      * destruct (Z.eqb_spec (Z.land s W25Q128_STATUS_BUSY) 0) as [Hs | Hs]; cbn [negb].
        -- exists (status_read_ok s ++ [TICK t]), (Some W25Q128_OK). unfold ret.
           split; [rewrite <- app_assoc; reflexivity|].
           apply poll_idle; [lia | exact Hs].
        -- destruct (IH timeout s e i ((l ++ status_read_ok s) ++ [TICK t]) p h)
             as [polls [r [E1 E2]]].
           exists (status_read_ok s ++ TICK t :: polls), r. split.
           ++ rewrite E1. rewrite <- !app_assoc. reflexivity.
           ++ apply poll_busy; [lia | exact Hs | exact E2].
Qed.

Lemma poll_run_outcome (deadline : Z) (evs : list Event) (r : option W25Q128_Status_t) :
  poll_run deadline evs r ->
  match r with
  | Some W25Q128_OK => deadline_overrun deadline evs = false /\ spi_failed evs = false
  | Some W25Q128_TIMEOUT => deadline_overrun deadline evs = true /\ spi_failed evs = false
  | Some W25Q128_ERROR => deadline_overrun deadline evs = false /\ spi_failed evs = true
  | Some W25Q128_BUSY => False
  | None => deadline_overrun deadline evs = false /\ spi_failed evs = false
  end.
Proof.
  induction 1 as [ | | s t Ht | s t Ht Hs | s t evs r Ht Hs _ IH | ].
  - split; reflexivity.
  - split; reflexivity.
  - split; [|reflexivity]. cbn. rewrite orb_false_r. apply Z.gtb_lt. lia.
  - split; [|reflexivity]. cbn. rewrite orb_false_r. rewrite Z.gtb_ltb. apply Z.ltb_ge. lia.
  - assert (Hd : forall b, deadline_overrun deadline (status_read_ok s ++ TICK t :: evs) = b
                      <-> deadline_overrun deadline evs = b).
    { intro b. cbn. replace (t >? deadline) with false; [reflexivity|].
      symmetry. rewrite Z.gtb_ltb. apply Z.ltb_ge. lia. }
    assert (Hf : forall b, spi_failed (status_read_ok s ++ TICK t :: evs) = b
                      <-> spi_failed evs = b) by (intro b; reflexivity).
    destruct r as [[| | |]|]; try exact IH;
      (split; [apply Hd | apply Hf]); apply IH.
  - split; reflexivity.
Qed.

Lemma poll_run_reads_first (deadline : Z) (evs : list Event) (r : option W25Q128_Status_t) :
  poll_run deadline evs r ->
  (r <> None ->
   exists ok rest,
     evs = GPIO_CS false :: SPI_TX [W25Q128_CMD_READ_STATUS_REG1] ok :: rest)
  /\ (tick_reads evs <= status_reads evs)%nat.
Proof.
  induction 1 as [ | | s t Ht | s t Ht Hs | s t evs r Ht Hs _ IH | ];
    (split; [intro Hr; try (do 2 eexists; reflexivity); try congruence|]);
    try (cbn; lia).
  destruct IH as [_ IH]. unfold tick_reads, status_reads in *.
  cbn [status_read_ok app filter length]. lia.
Qed.

Lemma W25Q128_WaitForWriteEnd_loop_returns (fuel : nat) :
  forall (timeout status : Z) e i l p h (n : nat),
    (forall s, (n <= s)%nat -> u32 (clock e s) > timeout) ->
    (n <= length l + 5 * fuel + 4)%nat ->
    fst (W25Q128_WaitForWriteEnd_loop (S fuel) timeout status (mkWorld e i l p h)) <> None.
Proof.
  induction fuel as [|fuel IH]; intros timeout status e i l p h n Hclk Hn;
    cbn [W25Q128_WaitForWriteEnd_loop]; unfold bind at 1;
    destruct (W25Q128_ReadStatusRegister_cases e i l p h) as [E | [E | [s E]]];
    rewrite E; cbn [fst snd is_OK negb]; try discriminate;
    unfold bind at 1; rewrite HAL_GetTick_run;
    (assert (Hlen : length (l ++ status_read_ok s) = (length l + 4)%nat)
      by (rewrite length_app; reflexivity));
    rewrite Hlen;
    destruct (Z.gtb_spec (u32 (clock e (length l + 4))) timeout) as [Ht | Ht];
    try discriminate.
  - exfalso. specialize (Hclk (length l + 4)%nat). lia.
  - destruct (negb (Z.land s W25Q128_STATUS_BUSY =? 0)); [|discriminate].
    apply (IH _ _ _ _ _ _ _ n Hclk).
    rewrite !length_app. cbn [length status_read_ok]. lia.
Qed.

Lemma poll_run_idle_wins (deadline : Z) (evs : list Event) (r : option W25Q128_Status_t) :
  poll_run deadline evs r ->
  forall s t,
    In (s, t) (polls_seen None evs) ->
    Z.land s W25Q128_STATUS_BUSY = 0 -> t <= deadline ->
    r = Some W25Q128_OK.
Proof.
  induction 1 as [ | | s0 t0 Ht | s0 t0 Ht Hs | s0 t0 evs r Ht Hs _ IH | ];
    intros s t Hin Hidle Hdl; cbn in Hin; try contradiction.
  - destruct Hin as [E | []]. inversion E; subst. lia.
  - reflexivity.
  - destruct Hin as [E | Hin].
    + inversion E; subst. contradiction.
    + exact (IH s t Hin Hidle Hdl).
Qed.

Lemma W25Q128_WaitForWriteEnd_run (fuel : nat) e i l p h :
  exists polls r,
    W25Q128_WaitForWriteEnd fuel (mkWorld e i l p h)
    = (r, mkWorld e i (l ++ TICK (u32 (clock e (length l))) :: polls) p h)
    /\ poll_run (u32 (u32 (clock e (length l)) + 5000)) polls r.
Proof.
  destruct (W25Q128_WaitForWriteEnd_loop_polls fuel
              (u32 (u32 (clock e (length l)) + 5000)) 0 e i
              (l ++ [TICK (u32 (clock e (length l)))]) p h)
    as [polls [r [E R]]].
  exists polls, r. split; [|exact R].
  unfold W25Q128_WaitForWriteEnd. unfold bind at 1. rewrite HAL_GetTick_run.
  rewrite E, <- app_assoc. reflexivity.
Qed.

(** X20.  [W25Q128_WaitForWriteEnd] samples the tick once to fix the
    deadline, the [uint32_t] sum [(now + 5000) mod 2^32] (equal to the
    plain sum unless the tick is within 5000 ms of wrapping), and then
    polls: every
    iteration first reads the status register and only then compares a
    fresh tick with the deadline.  The loop's HAL calls are those described
    by [poll_run]; it begins with a status read, and never checks the
    deadline more often than it has read the status.  It returns
    [W25Q128_TIMEOUT] exactly when a tick read was past the deadline,
    [W25Q128_ERROR] exactly when an SPI transfer failed, and [W25Q128_OK]
    in every other case in which it returns; it returns [W25Q128_OK] in
    particular as soon as a status read shows BUSY clear and the tick read
    after it is within the deadline.  It does return once the tick stays
    past the deadline. *)
Theorem W25Q128_WaitForWriteEnd_polls (fuel : nat) (w : World) :
  let t0 := u32 (clock (env w) (step w)) in
  let deadline := u32 (t0 + 5000) in
  exists polls r,
    W25Q128_WaitForWriteEnd fuel w
    = (r, mkWorld (env w) (uart_in w) (log w ++ TICK t0 :: polls) (page_calls w) (hboot w))
    /\ (t0 + 5000 < 4294967296 -> deadline = t0 + 5000)
    /\ poll_run deadline polls r
    /\ (r <> None ->
        exists ok rest,
          polls = GPIO_CS false :: SPI_TX [W25Q128_CMD_READ_STATUS_REG1] ok :: rest)
    /\ (tick_reads polls <= status_reads polls)%nat
    /\ (r = Some W25Q128_TIMEOUT <-> deadline_overrun deadline polls = true)
    /\ (r = Some W25Q128_ERROR <-> spi_failed polls = true)
    /\ (r = Some W25Q128_OK <->
        r <> None /\ deadline_overrun deadline polls = false /\ spi_failed polls = false)
    /\ (forall s t,
          In (s, t) (polls_seen None polls) ->
          Z.land s W25Q128_STATUS_BUSY = 0 -> t <= deadline ->
          r = Some W25Q128_OK)
    /\ (forall n,
          (forall s, (n <= s)%nat -> u32 (clock (env w) s) > deadline) ->
          (n < fuel)%nat ->
          r <> None).
Proof.
  destruct w as [e i l p h]. unfold step. cbn [env uart_in log page_calls hboot].
  cbv zeta.
  destruct (W25Q128_WaitForWriteEnd_run fuel e i l p h) as [polls [r [EW R]]].
  set (t0 := u32 (clock e (length l))) in *. set (deadline := u32 (t0 + 5000)) in *.
  exists polls, r.
  pose proof (poll_run_outcome _ _ _ R) as O.
  pose proof (poll_run_reads_first _ _ _ R) as [F1 F2].
  split; [exact EW|].
  split.
  { intro Hw. subst deadline. unfold u32 at 1. apply Z.mod_small.
    assert (0 <= t0) by (subst t0; unfold u32; apply Z.mod_pos_bound; reflexivity).
    lia. }
  repeat split; try assumption.
  - intros ->. apply O.
  - intro H. destruct r as [[| | |]|]; try contradiction; destruct O as [O1 O2]; congruence.
  - intros ->. apply O.
  - intro H. destruct r as [[| | |]|]; try contradiction; destruct O as [O1 O2]; congruence.
  - congruence.
  - subst r. apply O.
  - subst r. apply O.
  - intros [H1 [H2 H3]]. destruct r as [[| | |]|]; try contradiction; destruct O as [O1 O2]; congruence.
  - exact (poll_run_idle_wins _ _ _ R).
  - intros n Hclk Hn. destruct fuel as [|fuel]; [lia|].
    unfold W25Q128_WaitForWriteEnd in EW. unfold bind at 1 in EW.
    rewrite HAL_GetTick_run in EW. fold t0 in EW. fold deadline in EW.
    pose proof (W25Q128_WaitForWriteEnd_loop_returns fuel deadline 0 e i
                  (l ++ [TICK t0]) p h n Hclk) as T.
    rewrite EW in T. cbn [fst] in T. apply T.
    rewrite length_app. cbn [length]. lia.
Qed.

(** C5 (where the code departs from it).  The deadline is a [uint32_t]:
    with the tick at 4294966296, 1000 ms short of wrapping, when the wait
    starts, the sum [now + 5000] wraps to 4000.  The first status read
    finds BUSY clear and the tick read after it, 4294966301, is 5 ms
    after the start, well within [now + 5000]; the code compares it with
    4000 and returns [W25Q128_TIMEOUT]. *)
Theorem W25Q128_WaitForWriteEnd_deadline_wraps :
  fst (W25Q128_WaitForWriteEnd 1
         (fresh_world
            (mkEnv (fun _ => true) (fun _ _ => 0) (fun _ => true)
               (fun s => 4294966296 + Z.of_nat s))
            []))
  = Some W25Q128_TIMEOUT
  /\ log (snd (W25Q128_WaitForWriteEnd 1
                 (fresh_world
                    (mkEnv (fun _ => true) (fun _ _ => 0) (fun _ => true)
                       (fun s => 4294966296 + Z.of_nat s))
                    [])))
     = [TICK 4294966296; GPIO_CS false; SPI_TX [W25Q128_CMD_READ_STATUS_REG1] true;
        SPI_RX [0] true; GPIO_CS true; TICK 4294966301]
  /\ Z.land 0 W25Q128_STATUS_BUSY = 0
  /\ 4294966301 <= 4294966296 + 5000
  /\ u32 (4294966296 + 5000) = 4000.
Proof.
  split; [vm_compute; reflexivity|].
  split; [vm_compute; reflexivity|].
  split; [reflexivity|].
  split; [lia | reflexivity].
Qed.

(* ================================================================== *)
(** ** Reasoning with trace monitors *)

Section MonitorRules.

Context {S : Type}.
Variable step_of : S -> Event -> option S.

Lemma run_app (s : S) (a b : list Event) :
  run step_of s (a ++ b)
  = match run step_of s a with
    | Some s' => run step_of s' b
    | None => None
    end.
Proof.
  revert s. induction a as [|ev a IH]; intro s; [reflexivity|].
  cbn [app run]. destruct (step_of s ev); [apply IH | reflexivity].
Qed.

Lemma triple_ret {A : Type} (s : S) (a : A) (Q : option A -> S -> Prop) :
  Q (Some a) s -> triple step_of s (ret a) Q.
Proof.
  intros H w. exists []. cbn. rewrite app_nil_r. split; [reflexivity|].
  exists s. auto.
Qed.

Lemma triple_spin {A : Type} (s : S) (Q : option A -> S -> Prop) :
  Q None s -> triple step_of s spin Q.
Proof.
  intros H w. exists []. cbn. rewrite app_nil_r. split; [reflexivity|].
  exists s. auto.
Qed.

Lemma triple_bind {A B : Type} (s : S) (m : M A) (k : A -> M B)
  (Q : option A -> S -> Prop) (R : option B -> S -> Prop) :
  triple step_of s m Q ->
  (forall a s1, Q (Some a) s1 -> triple step_of s1 (k a) R) ->
  (forall s1, Q None s1 -> R None s1) ->
  triple step_of s (bind m k) R.
Proof.
  intros Hm Hk Hn w. unfold bind.
  destruct (Hm w) as [evs1 [L1 [s1 [R1 Q1]]]].
  destruct (m w) as [[a|] w1]; cbn [fst snd] in *.
  - destruct (Hk a s1 Q1 w1) as [evs2 [L2 [s2 [R2 Q2]]]].
    exists (evs1 ++ evs2). split.
    + rewrite L2, L1, app_assoc. reflexivity.
    + exists s2. rewrite run_app, R1. auto.
  - exists evs1. split; [exact L1|]. exists s1. auto.
Qed.

Lemma triple_weaken {A : Type} (s : S) (m : M A) (Q Q' : option A -> S -> Prop) :
  triple step_of s m Q ->
  (forall r s', Q r s' -> Q' r s') ->
  triple step_of s m Q'.
Proof.
  intros H HQ w. destruct (H w) as [evs [L [s' [R1 Q1]]]].
  exists evs. split; [exact L|]. exists s'. auto.
Qed.

Lemma triple_gpio (s s' : S) (level : bool) (Q : option unit -> S -> Prop) :
  step_of s (GPIO_CS level) = Some s' ->
  Q (Some tt) s' ->
  triple step_of s (HAL_GPIO_WritePin level) Q.
Proof.
  intros H HQ w. exists [GPIO_CS level]. split; [reflexivity|].
  exists s'. cbn [run]. rewrite H. auto.
Qed.

Lemma triple_spi_tx (s : S) (d : list Z) (Q : option bool -> S -> Prop) :
  (forall ok, exists s', step_of s (SPI_TX d ok) = Some s' /\ Q (Some ok) s') ->
  triple step_of s (HAL_SPI_Transmit d) Q.
Proof.
  intros H w. unfold HAL_SPI_Transmit.
  destruct (H (spi_ok (env w) (step w))) as [s' [E HQ]].
  eexists. split; [reflexivity|].
  exists s'. cbn [run fst]. rewrite E. auto.
Qed.

Lemma triple_spi_rx (s : S) (n : Z) (Q : option (option (list Z)) -> S -> Prop) :
  (forall d, exists s', step_of s (SPI_RX d true) = Some s' /\ Q (Some (Some d)) s') ->
  (exists s', step_of s (SPI_RX [] false) = Some s' /\ Q (Some None) s') ->
  triple step_of s (HAL_SPI_Receive n) Q.
Proof.
  intros H1 H2 w. unfold HAL_SPI_Receive.
  destruct (spi_ok (env w) (step w)).
  - match goal with
    | |- context [SPI_RX ?d true] => destruct (H1 d) as [s' [E HQ]]
    end.
    eexists. split; [reflexivity|].
    exists s'. cbn [run fst]. rewrite E. auto.
  - destruct H2 as [s' [E HQ]].
    eexists. split; [reflexivity|].
    exists s'. cbn [run fst]. rewrite E. auto.
Qed.

Lemma triple_tick (s : S) (Q : option Z -> S -> Prop) :
  (forall t, exists s', step_of s (TICK t) = Some s' /\ Q (Some t) s') ->
  triple step_of s HAL_GetTick Q.
Proof.
  intros H w. unfold HAL_GetTick.
  destruct (H (u32 (clock (env w) (step w)))) as [s' [E HQ]].
  eexists. split; [reflexivity|].
  exists s'. cbn [run fst]. rewrite E. auto.
Qed.

Lemma triple_delay (s s' : S) (ms : Z) (Q : option unit -> S -> Prop) :
  step_of s (DELAY ms) = Some s' ->
  Q (Some tt) s' ->
  triple step_of s (HAL_Delay ms) Q.
Proof.
  intros H HQ w. exists [DELAY ms]. split; [reflexivity|].
  exists s'. cbn [run]. rewrite H. auto.
Qed.

Lemma triple_uart_tx (s : S) (d : list Z) (Q : option bool -> S -> Prop) :
  (forall ok, exists s', step_of s (UART_TX d ok) = Some s' /\ Q (Some ok) s') ->
  triple step_of s (HAL_UART_Transmit d) Q.
Proof.
  intros H w. unfold HAL_UART_Transmit.
  destruct (H (uart_tx_ok (env w) (step w))) as [s' [E HQ]].
  eexists. split; [reflexivity|].
  exists s'. cbn [run fst]. rewrite E. auto.
Qed.

(** A receive with a finite time-out returns, with the bytes or without. *)
Lemma triple_uart_rx (s : S) (n timeout : Z) (Q : option (option (list Z)) -> S -> Prop) :
  timeout <> HAL_MAX_DELAY ->
  (forall d, exists s', step_of s (UART_RX d true) = Some s' /\ Q (Some (Some d)) s') ->
  (forall d, exists s', step_of s (UART_RX d false) = Some s' /\ Q (Some None) s') ->
  triple step_of s (HAL_UART_Receive n timeout) Q.
Proof.
  intros Ht H1 H2 w. unfold HAL_UART_Receive. cbv zeta.
  replace (timeout =? HAL_MAX_DELAY) with false
    by (symmetry; apply Z.eqb_neq; exact Ht).
  destruct (Z.to_nat (u16 n) <=? length (uart_in w))%nat.
  - match goal with
    | |- context [UART_RX ?d true] => destruct (H1 d) as [s' [E HQ]]
    end.
    eexists. split; [reflexivity|].
    exists s'. cbn [run fst]. rewrite E. auto.
  - match goal with
    | |- context [UART_RX ?d false] => destruct (H2 d) as [s' [E HQ]]
    end.
    eexists. split; [reflexivity|].
    exists s'. cbn [run fst]. rewrite E. auto.
Qed.

(** A receive without time-out returns with the bytes, or does not return
    and has made no HAL event. *)
Lemma triple_uart_rx_wait (s : S) (n : Z) (Q : option (option (list Z)) -> S -> Prop) :
  (forall d, exists s', step_of s (UART_RX d true) = Some s' /\ Q (Some (Some d)) s') ->
  Q None s ->
  triple step_of s (HAL_UART_Receive n HAL_MAX_DELAY) Q.
Proof.
  intros H1 H2 w. unfold HAL_UART_Receive. cbv zeta.
  destruct (Z.to_nat (u16 n) <=? length (uart_in w))%nat.
  - match goal with
    | |- context [UART_RX ?d true] => destruct (H1 d) as [s' [E HQ]]
    end.
    eexists. split; [reflexivity|].
    exists s'. cbn [run fst]. rewrite E. auto.
  - rewrite Z.eqb_refl. exists []. cbn [fst snd]. rewrite app_nil_r.
    split; [reflexivity|]. exists s. auto.
Qed.

(** A computation that touches the world without calling the HAL. *)
Lemma triple_silent {A : Type} (s : S) (f : World -> World) (a : A)
  (Q : option A -> S -> Prop) :
  (forall w, log (f w) = log w) ->
  Q (Some a) s ->
  triple step_of s (fun w => (Some a, f w)) Q.
Proof.
  intros Hf HQ w. exists []. cbn [fst snd]. rewrite Hf, app_nil_r.
  split; [reflexivity|]. exists s. auto.
Qed.

End MonitorRules.

(** Strongest-postcondition forms of the HAL rules. *)
Section MonitorSP.

Context {S : Type}.
Variable step_of : S -> Event -> option S.

Lemma sp_gpio (s s' : S) (level : bool) :
  step_of s (GPIO_CS level) = Some s' ->
  triple step_of s (HAL_GPIO_WritePin level) (fun r s1 => r = Some tt /\ s1 = s').
Proof. intro H. eapply triple_gpio; eauto. Qed.

Lemma sp_spi_tx (s : S) (d : list Z) :
  (forall ok, step_of s (SPI_TX d ok) <> None) ->
  triple step_of s (HAL_SPI_Transmit d)
    (fun r s1 => exists ok, r = Some ok /\ step_of s (SPI_TX d ok) = Some s1).
Proof.
  intro H. apply triple_spi_tx. intro ok. specialize (H ok).
  destruct (step_of s (SPI_TX d ok)) as [s'|] eqn:E; [|contradiction].
  exists s'. split; [reflexivity|]. exists ok. auto.
Qed.

Lemma sp_spi_rx (s : S) (n : Z) :
  (forall d ok, step_of s (SPI_RX d ok) <> None) ->
  triple step_of s (HAL_SPI_Receive n)
    (fun r s1 =>
       (exists d, r = Some (Some d) /\ step_of s (SPI_RX d true) = Some s1)
       \/ (r = Some None /\ step_of s (SPI_RX [] false) = Some s1)).
Proof.
  intro H. apply triple_spi_rx.
  - intro d. pose proof (H d true) as Hd.
    destruct (step_of s (SPI_RX d true)) as [s'|] eqn:E; [|contradiction].
    exists s'. split; [reflexivity|]. left. exists d. auto.
  - pose proof (H [] false) as Hd.
    destruct (step_of s (SPI_RX [] false)) as [s'|] eqn:E; [|contradiction].
    exists s'. split; [reflexivity|]. right. auto.
Qed.

Lemma sp_tick (s : S) :
  (forall t, step_of s (TICK t) <> None) ->
  triple step_of s HAL_GetTick
    (fun r s1 => exists t, r = Some t /\ step_of s (TICK t) = Some s1).
Proof.
  intro H. apply triple_tick. intro t. specialize (H t).
  destruct (step_of s (TICK t)) as [s'|] eqn:E; [|contradiction].
  exists s'. split; [reflexivity|]. exists t. auto.
Qed.

Lemma sp_delay (s s' : S) (ms : Z) :
  step_of s (DELAY ms) = Some s' ->
  triple step_of s (HAL_Delay ms) (fun r s1 => r = Some tt /\ s1 = s').
Proof. intro H. eapply triple_delay; eauto. Qed.

Lemma sp_uart_tx (s : S) (d : list Z) :
  (forall ok, step_of s (UART_TX d ok) <> None) ->
  triple step_of s (HAL_UART_Transmit d)
    (fun r s1 => exists ok, r = Some ok /\ step_of s (UART_TX d ok) = Some s1).
Proof.
  intro H. apply triple_uart_tx. intro ok. specialize (H ok).
  destruct (step_of s (UART_TX d ok)) as [s'|] eqn:E; [|contradiction].
  exists s'. split; [reflexivity|]. exists ok. auto.
Qed.

Lemma sp_uart_rx (s : S) (n timeout : Z) :
  timeout <> HAL_MAX_DELAY ->
  (forall d ok, step_of s (UART_RX d ok) <> None) ->
  triple step_of s (HAL_UART_Receive n timeout)
    (fun r s1 =>
       exists d ok, step_of s (UART_RX d ok) = Some s1
                    /\ r = Some (if ok then Some d else None)).
Proof.
  intros Ht H. apply triple_uart_rx; [exact Ht | |]; intro d.
  - pose proof (H d true) as Hd.
    destruct (step_of s (UART_RX d true)) as [s'|] eqn:E; [|contradiction].
    exists s'. split; [reflexivity|]. exists d, true. auto.
  - pose proof (H d false) as Hd.
    destruct (step_of s (UART_RX d false)) as [s'|] eqn:E; [|contradiction].
    exists s'. split; [reflexivity|]. exists d, false. auto.
Qed.

End MonitorSP.

(** Peels one HAL call off the front of a computation run under a monitor
    whose steps compute: applies the rule of the call, works out the state
    reached, and splits on the outcome of a transfer.  Known facts
    [is_write_enable _ = false] are used to decide the pairing monitor. *)
Ltac mon_side :=
  cbn;
  repeat match goal with
         | H : is_write_enable _ = false |- _ => rewrite H
         end;
  cbn; try discriminate.

Ltac hal_step :=
  lazymatch goal with
  | |- triple _ _ (bind (HAL_GPIO_WritePin _) _) _ =>
      eapply triple_bind;
      [ apply sp_gpio; reflexivity
      | cbv beta; intros [] ? [_ ->]; cbn [negb we_prev1 we_prev2]
      | cbv beta; intros ? [H _]; discriminate H ]
  | |- triple _ _ (bind (HAL_SPI_Transmit _) _) _ =>
      eapply triple_bind;
      [ apply sp_spi_tx; intro; mon_side
      | let ok := fresh "ok" in let H := fresh "Hr" in let E := fresh "Es" in
        cbv beta; intros ? ? [ok [H E]]; inversion H; subst; cbn in E;
        repeat match goal with
               | Hq : is_write_enable _ = false |- _ => rewrite Hq in E
               end;
        cbn in E; inversion E; subst; destruct ok; cbn [negb]
      | cbv beta; intros ? [? [H _]]; discriminate H ]
  | |- triple _ _ (bind (HAL_SPI_Receive _) _) _ =>
      eapply triple_bind;
      [ apply sp_spi_rx; intros; cbn; discriminate
      | let H := fresh "Hr" in let E := fresh "Es" in
        cbv beta; intros ? ? [[? [H E]] | [H E]]; inversion H; subst; cbn in E;
        inversion E; subst
      | cbv beta; intros ? [[? [H _]] | [H _]]; discriminate H ]
  | |- triple _ _ (bind (HAL_Delay _) _) _ =>
      eapply triple_bind;
      [ apply sp_delay; reflexivity
      | cbv beta; intros [] ? [_ ->]
      | cbv beta; intros ? [H _]; discriminate H ]
  | |- triple _ _ (bind HAL_GetTick _) _ =>
      eapply triple_bind;
      [ apply sp_tick; intros; cbn; discriminate
      | let H := fresh "Hr" in let E := fresh "Es" in
        cbv beta; intros ? ? [? [H E]]; inversion H; subst; cbn in E; inversion E; subst
      | cbv beta; intros ? [? [H _]]; discriminate H ]
  | |- triple _ _ (ret _) _ => apply triple_ret; reflexivity
  end.

(* ================================================================== *)
(** ** Chip-select discipline *)

Lemma cs_ReadStatusRegister :
  triple cs_step false W25Q128_ReadStatusRegister cs_released.
Proof.
  unfold W25Q128_ReadStatusRegister, CS_LOW, CS_HIGH. repeat hal_step.
Qed.

Lemma cs_ReadID : triple cs_step false W25Q128_ReadID cs_released.
Proof. unfold W25Q128_ReadID, CS_LOW, CS_HIGH. repeat hal_step. Qed.

Lemma cs_ReadJEDECID : triple cs_step false W25Q128_ReadJEDECID cs_released.
Proof. unfold W25Q128_ReadJEDECID, CS_LOW, CS_HIGH. repeat hal_step. Qed.

Lemma cs_WriteEnable : triple cs_step false W25Q128_WriteEnable cs_released.
Proof. unfold W25Q128_WriteEnable, CS_LOW, CS_HIGH. repeat hal_step. Qed.

Lemma cs_WriteDisable : triple cs_step false W25Q128_WriteDisable cs_released.
Proof. unfold W25Q128_WriteDisable, CS_LOW, CS_HIGH. repeat hal_step. Qed.

Lemma cs_Read (address length : Z) :
  triple cs_step false (W25Q128_Read address length) cs_released.
Proof. unfold W25Q128_Read, CS_LOW, CS_HIGH. repeat hal_step. Qed.

Lemma cs_PowerDown : triple cs_step false W25Q128_PowerDown cs_released.
Proof. unfold W25Q128_PowerDown, CS_LOW, CS_HIGH. repeat hal_step. Qed.

Lemma cs_WakeUp : triple cs_step false W25Q128_WakeUp cs_released.
Proof. unfold W25Q128_WakeUp, CS_LOW, CS_HIGH. repeat hal_step. Qed.

(** Sequencing after a whole operation, which leaves chip-select high. *)
Lemma cs_then {A B : Type} (m : M A) (k : A -> M B) :
  triple cs_step false m cs_released ->
  (forall a, triple cs_step false (k a) cs_released) ->
  triple cs_step false (bind m k) cs_released.
Proof.
  intros Hm Hk. eapply triple_bind; [exact Hm | | ].
  - unfold cs_released. intros a s1 ->. apply Hk.
  - auto.
Qed.

Lemma cs_WaitForWriteEnd_loop (fuel : nat) :
  forall timeout status,
    triple cs_step false (W25Q128_WaitForWriteEnd_loop fuel timeout status) cs_released.
Proof.
  induction fuel as [|fuel IH]; intros timeout status.
  - apply triple_spin. reflexivity.
  - cbn [W25Q128_WaitForWriteEnd_loop].
    apply cs_then; [apply cs_ReadStatusRegister|].
    intros [st out]. cbn [fst snd].
    destruct (is_OK st); cbn [negb]; [|hal_step].
    hal_step.
    destruct (_ >? timeout); [hal_step|].
    destruct (negb _); [apply IH | hal_step].
Qed.

Lemma cs_WaitForWriteEnd (fuel : nat) :
  triple cs_step false (W25Q128_WaitForWriteEnd fuel) cs_released.
Proof.
  unfold W25Q128_WaitForWriteEnd. hal_step. apply cs_WaitForWriteEnd_loop.
Qed.

(** The tail shared by page program and the erases: with chip-select low,
    send the command, release, and poll; or release on failure. *)
Lemma cs_WritePage (fuel : nat) (address : Z) (buffer : list Z) (length : Z) :
  triple cs_step false (W25Q128_WritePage fuel address buffer length) cs_released.
Proof.
  unfold W25Q128_WritePage.
  eapply triple_bind;
    [ apply (triple_silent cs_step false _ tt (fun r s => r = Some tt /\ s = false));
      [reflexivity | auto]
    | cbv beta; intros [] ? [_ ->]
    | cbv beta; intros ? [H _]; discriminate H ].
  destruct (length >? W25Q128_PAGE_SIZE); [hal_step|].
  apply cs_then; [apply cs_WriteEnable|]. intro we.
  destruct (is_OK we); cbn [negb]; [|hal_step].
  unfold CS_LOW, CS_HIGH. repeat hal_step.
  apply cs_WaitForWriteEnd.
Qed.

Lemma cs_Write_loop (n : nat) :
  forall fuel addr buf remaining,
    triple cs_step false (W25Q128_Write_loop n fuel addr buf remaining) cs_released.
Proof.
  induction n as [|n IH]; intros fuel addr buf remaining; cbn [W25Q128_Write_loop];
    destruct (remaining >? 0); try (apply triple_ret; reflexivity);
    try (apply triple_spin; reflexivity).
  cbv zeta. apply cs_then; [apply cs_WritePage|]. intro st.
  destruct (is_OK st); cbn [negb]; [apply IH | hal_step].
Qed.

Lemma cs_EraseSector (fuel : nat) (a : Z) :
  triple cs_step false (W25Q128_EraseSector fuel a) cs_released.
Proof.
  unfold W25Q128_EraseSector.
  apply cs_then; [apply cs_WriteEnable|]. intro we.
  destruct (is_OK we); cbn [negb]; [|hal_step].
  unfold CS_LOW, CS_HIGH. repeat hal_step.
  apply cs_WaitForWriteEnd.
Qed.

Lemma cs_EraseBlock64KB (fuel : nat) (a : Z) :
  triple cs_step false (W25Q128_EraseBlock64KB fuel a) cs_released.
Proof.
  unfold W25Q128_EraseBlock64KB.
  apply cs_then; [apply cs_WriteEnable|]. intro we.
  destruct (is_OK we); cbn [negb]; [|hal_step].
  unfold CS_LOW, CS_HIGH. repeat hal_step.
  apply cs_WaitForWriteEnd.
Qed.

Lemma cs_EraseChip (fuel : nat) :
  triple cs_step false (W25Q128_EraseChip fuel) cs_released.
Proof.
  unfold W25Q128_EraseChip.
  apply cs_then; [apply cs_WriteEnable|]. intro we.
  destruct (is_OK we); cbn [negb]; [|hal_step].
  unfold CS_LOW, CS_HIGH. repeat hal_step.
  apply cs_WaitForWriteEnd.
Qed.

(** C6.  Every operation of the driver, from any state of the world (so
    under any pattern of SPI failures, any answers of the flash, any tick
    values) and whether it returns or is still polling, appends to the log
    a sequence of HAL calls that obeys the chip-select discipline: starting
    with chip-select high, each transaction drives it low before its first
    SPI transfer, SPI transfers occur only while it is low, it is driven
    high once per transaction, and it is high at the end. *)
Theorem chip_select_discipline (fuel : nat) (op : DriverOp) (w : World) :
  exists evs,
    log (run_op fuel op w) = log w ++ evs
    /\ cs_disciplined evs.
Proof.
  assert (H : forall A (m : M A),
             triple cs_step false m cs_released ->
             exists evs, log (exec m w) = log w ++ evs /\ cs_disciplined evs).
  { intros A m T. destruct (T w) as [evs [L [s' [R E]]]].
    exists evs. split; [exact L|]. unfold cs_disciplined.
    rewrite R. unfold cs_released in E. rewrite E. reflexivity. }
  destruct op; cbn [run_op]; apply H.
  - apply cs_ReadID.
  - apply cs_ReadJEDECID.
  - apply cs_ReadStatusRegister.
  - apply cs_WaitForWriteEnd.
  - apply cs_WriteEnable.
  - apply cs_WriteDisable.
  - apply cs_Read.
  - apply cs_WritePage.
  - apply cs_Write_loop.
  - apply cs_EraseSector.
  - apply cs_EraseBlock64KB.
  - apply cs_EraseChip.
  - apply cs_PowerDown.
  - apply cs_WakeUp.
Qed.

Lemma chip_select_discipline_witness :
  exists evs,
    log (run_op 1 (Op_Write 0x80 (repeat 0xA5 300) 300) (fresh_world dead_spi_env []))
    = [] ++ evs
    /\ cs_disciplined evs.
Proof.
  exact (chip_select_discipline 1 (Op_Write 0x80 (repeat 0xA5 300) 300)
           (fresh_world dead_spi_env [])).
Defined.

(** [W25Q128_Init] first drives chip-select high, whatever it was, and
    waits; what follows (the wake-up) obeys the discipline. *)
Lemma W25Q128_Init_chip_select (w : World) :
  exists evs,
    log (exec W25Q128_Init w) = log w ++ GPIO_CS true :: DELAY 100 :: evs
    /\ cs_disciplined evs.
Proof.
  unfold exec, W25Q128_Init, CS_HIGH, HAL_GPIO_WritePin, HAL_Delay.
  unfold bind at 1 2. cbn [fst snd].
  destruct (cs_then W25Q128_WakeUp (fun _ => ret tt) cs_WakeUp
              (fun _ => triple_ret cs_step false tt cs_released eq_refl)
              (emit (DELAY 100) (emit (GPIO_CS true) w)))
    as [evs [L [s' [R E]]]].
  exists evs. split.
  - rewrite L. cbn [emit log]. rewrite <- !app_assoc. reflexivity.
  - unfold cs_disciplined. rewrite R. unfold cs_released in E. rewrite E. reflexivity.
Qed.

(* ================================================================== *)
(** ** Write-enable pairing *)

Lemma we_run_paired (evs : list Event) :
  forall s s',
    run we_step s evs = Some s' ->
    write_enable_paired (we_prev2 s) (we_prev1 s) (opcodes (we_fresh s) evs) = true.
Proof.
  induction evs as [|ev evs IH]; intros s s' H; [reflexivity|].
  cbn [run] in H.
  destruct (we_step s ev) as [s1|] eqn:E; [|discriminate H].
  specialize (IH s1 s' H).
  destruct s as [f p2 p1]. cbn [we_fresh we_prev1 we_prev2] in *.
  destruct ev; cbn [we_step we_fresh we_prev1 we_prev2] in E; cbn [opcodes];
    try (inversion E; subst; exact IH).
  destruct f.
  - destruct (needs_write_enable (nth 0 data 0) && negb (armed p2 p1)) eqn:N;
      [discriminate E|].
    inversion E; subst. cbn [we_fresh we_prev1 we_prev2] in IH.
    cbn [write_enable_paired fst]. rewrite IH, andb_true_r.
    destruct (needs_write_enable (nth 0 data 0)); [|reflexivity].
    cbn [andb] in N. apply negb_false_iff. exact N.
  - inversion E; subst. exact IH.
Qed.

Ltac we_done :=
  apply triple_ret; first [ reflexivity | split; [reflexivity | try discriminate; auto] ].

Lemma we_ReadID (p2 p1 : option (Z * bool)) :
  triple we_step (mkWe false p2 p1) W25Q128_ReadID we_idle.
Proof. unfold W25Q128_ReadID, CS_LOW, CS_HIGH. repeat hal_step; we_done. Qed.

Lemma we_ReadJEDECID (p2 p1 : option (Z * bool)) :
  triple we_step (mkWe false p2 p1) W25Q128_ReadJEDECID we_idle.
Proof. unfold W25Q128_ReadJEDECID, CS_LOW, CS_HIGH. repeat hal_step; we_done. Qed.

Lemma we_WriteDisable (p2 p1 : option (Z * bool)) :
  triple we_step (mkWe false p2 p1) W25Q128_WriteDisable we_idle.
Proof. unfold W25Q128_WriteDisable, CS_LOW, CS_HIGH. repeat hal_step; we_done. Qed.

Lemma we_Read (p2 p1 : option (Z * bool)) (address length : Z) :
  triple we_step (mkWe false p2 p1) (W25Q128_Read address length) we_idle.
Proof. unfold W25Q128_Read, CS_LOW, CS_HIGH. repeat hal_step; we_done. Qed.

Lemma we_PowerDown (p2 p1 : option (Z * bool)) :
  triple we_step (mkWe false p2 p1) W25Q128_PowerDown we_idle.
Proof. unfold W25Q128_PowerDown, CS_LOW, CS_HIGH. repeat hal_step; we_done. Qed.

Lemma we_WakeUp (p2 p1 : option (Z * bool)) :
  triple we_step (mkWe false p2 p1) W25Q128_WakeUp we_idle.
Proof. unfold W25Q128_WakeUp, CS_LOW, CS_HIGH. repeat hal_step; we_done. Qed.

(** After a status read the last command is the status read itself. *)
Lemma we_ReadStatusRegister (p2 p1 : option (Z * bool)) :
  triple we_step (mkWe false p2 p1) W25Q128_ReadStatusRegister
    (fun _ s => we_fresh s = false /\ is_write_enable (we_prev1 s) = false).
Proof.
  unfold W25Q128_ReadStatusRegister, CS_LOW, CS_HIGH.
  repeat hal_step; apply triple_ret; split; reflexivity.
Qed.

(** A write-enable becomes the last command; it was transmitted exactly
    when [W25Q128_OK] is returned. *)
Lemma we_WriteEnable (p2 p1 : option (Z * bool)) :
  triple we_step (mkWe false p2 p1) W25Q128_WriteEnable
    (fun r s =>
       exists ok,
         s = mkWe false p1 (Some (W25Q128_CMD_WRITE_ENABLE, ok))
         /\ r = Some (if ok then W25Q128_OK else W25Q128_ERROR)).
Proof.
  unfold W25Q128_WriteEnable, CS_LOW, CS_HIGH.
  repeat hal_step; apply triple_ret; eexists; split; reflexivity.
Qed.

Lemma we_WaitForWriteEnd_loop (fuel : nat) :
  forall timeout status p2 p1,
    triple we_step (mkWe false p2 p1)
      (W25Q128_WaitForWriteEnd_loop fuel timeout status) we_settled.
Proof.
  induction fuel as [|fuel IH]; intros timeout status p2 p1.
  - apply triple_spin. split; [reflexivity | discriminate].
  - cbn [W25Q128_WaitForWriteEnd_loop].
    eapply triple_bind; [apply we_ReadStatusRegister | | ].
    + cbv beta. intros [st out] [f q2 q1] [Hf Hq].
      cbn [we_fresh we_prev1 fst snd] in *. subst f.
      destruct (is_OK st); cbn [negb];
        [|apply triple_ret; split; [reflexivity | discriminate]].
      hal_step.
      destruct (_ >? timeout);
        [apply triple_ret; split; [reflexivity | discriminate]|].
      destruct (negb _); [apply IH|].
      apply triple_ret. split; [reflexivity | intros _; exact Hq].
    + cbv beta. intros s1 [Hf _]. split; [exact Hf | discriminate].
Qed.

Lemma we_WaitForWriteEnd (fuel : nat) (p2 p1 : option (Z * bool)) :
  triple we_step (mkWe false p2 p1) (W25Q128_WaitForWriteEnd fuel) we_settled.
Proof.
  unfold W25Q128_WaitForWriteEnd. hal_step. apply we_WaitForWriteEnd_loop.
Qed.

(** Post-condition of a write-enable, as the program and erase operations
    use it. *)
Ltac we_after_enable :=
  eapply triple_bind;
  [ apply we_WriteEnable
  | let ok := fresh "ok" in
    cbv beta; intros ? ? [ok [-> Hr]]; inversion Hr; subst;
    destruct ok; cbn [is_OK negb]
  | cbv beta; intros ? [? [_ H]]; discriminate H ].

Lemma we_WritePage (fuel : nat) (address : Z) (buffer : list Z) (length : Z)
  (p2 p1 : option (Z * bool)) :
  is_write_enable p1 = false ->
  triple we_step (mkWe false p2 p1)
    (W25Q128_WritePage fuel address buffer length) we_settled.
Proof.
  intro Hq. unfold W25Q128_WritePage.
  eapply triple_bind;
    [ apply (triple_silent we_step _ _ tt (fun r s => r = Some tt /\ s = mkWe false p2 p1));
      [reflexivity | auto]
    | cbv beta; intros [] ? [_ ->]
    | cbv beta; intros ? [H _]; discriminate H ].
  destruct (length >? W25Q128_PAGE_SIZE);
    [apply triple_ret; split; [reflexivity | discriminate]|].
  we_after_enable; [|apply triple_ret; split; [reflexivity | discriminate]].
  unfold CS_LOW, CS_HIGH, cmd_addr.
  repeat hal_step;
    try (apply triple_ret; split; [reflexivity | discriminate]).
  apply we_WaitForWriteEnd.
Qed.

Lemma we_Write_loop (n : nat) :
  forall fuel addr buf remaining p2 p1,
    is_write_enable p1 = false ->
    triple we_step (mkWe false p2 p1)
      (W25Q128_Write_loop n fuel addr buf remaining) we_settled.
Proof.
  induction n as [|n IH]; intros fuel addr buf remaining p2 p1 Hq;
    cbn [W25Q128_Write_loop]; destruct (remaining >? 0);
    try (apply triple_ret; split; [reflexivity | intros _; exact Hq]);
    try (apply triple_spin; split; [reflexivity | discriminate]).
  cbv zeta.
  eapply triple_bind; [apply we_WritePage; exact Hq | | ].
  - cbv beta. intros st [f q2 q1] [Hf Hs]. cbn [we_fresh we_prev1] in *. subst f.
    destruct st; cbn [is_OK negb];
      try (apply triple_ret; split; [reflexivity | discriminate]).
    apply IH. apply Hs. reflexivity.
  - cbv beta. intros s1 [Hf _]. split; [exact Hf | discriminate].
Qed.

Lemma we_EraseSector (fuel : nat) (a : Z) (p2 p1 : option (Z * bool)) :
  is_write_enable p1 = false ->
  triple we_step (mkWe false p2 p1) (W25Q128_EraseSector fuel a) we_settled.
Proof.
  intro Hq. unfold W25Q128_EraseSector.
  we_after_enable; [|apply triple_ret; split; [reflexivity | discriminate]].
  unfold CS_LOW, CS_HIGH, cmd_addr.
  repeat hal_step;
    try (apply triple_ret; split; [reflexivity | discriminate]).
  apply we_WaitForWriteEnd.
Qed.

Lemma we_EraseBlock64KB (fuel : nat) (a : Z) (p2 p1 : option (Z * bool)) :
  is_write_enable p1 = false ->
  triple we_step (mkWe false p2 p1) (W25Q128_EraseBlock64KB fuel a) we_settled.
Proof.
  intro Hq. unfold W25Q128_EraseBlock64KB.
  we_after_enable; [|apply triple_ret; split; [reflexivity | discriminate]].
  unfold CS_LOW, CS_HIGH, cmd_addr.
  repeat hal_step;
    try (apply triple_ret; split; [reflexivity | discriminate]).
  apply we_WaitForWriteEnd.
Qed.

Lemma we_EraseChip (fuel : nat) (p2 p1 : option (Z * bool)) :
  is_write_enable p1 = false ->
  triple we_step (mkWe false p2 p1) (W25Q128_EraseChip fuel) we_settled.
Proof.
  intro Hq. unfold W25Q128_EraseChip.
  we_after_enable; [|apply triple_ret; split; [reflexivity | discriminate]].
  unfold CS_LOW, CS_HIGH.
  repeat hal_step;
    try (apply triple_ret; split; [reflexivity | discriminate]).
  apply we_WaitForWriteEnd.
Qed.

Lemma write_enable_paired_at (cmds : list (Z * bool)) :
  forall p2 p1 i c,
    write_enable_paired p2 p1 cmds = true ->
    nth_error cmds i = Some c ->
    needs_write_enable (fst c) = true ->
    armed (fst (context_at p2 p1 cmds i)) (snd (context_at p2 p1 cmds i)) = true.
Proof.
  induction cmds as [|c0 cmds IH]; intros p2 p1 i c H Hi Hn.
  - destruct i; discriminate Hi.
  - cbn [write_enable_paired] in H. apply andb_true_iff in H. destruct H as [H0 H1].
    destruct i as [|i].
    + cbn in Hi. inversion Hi; subst. rewrite Hn in H0. exact H0.
    + cbn [nth_error] in Hi.
      pose proof (IH p1 (Some c0) i c H1 Hi Hn) as A.
      destruct i as [|[|k]]; exact A.
Qed.

(** C7.  In the sequence of SPI commands that any operation of the driver
    emits (under any pattern of SPI failures, any answers of the flash, any
    tick values, returning or still polling), every page-program (0x02),
    sector-erase (0x20), 64 KiB block-erase (0xD8) and chip-erase (0xC7)
    command has a successfully transmitted write-enable (0x06) as the
    command immediately before it, and the command before that one, if
    any, is not a write-enable. *)
Theorem write_enable_pairing (fuel : nat) (op : DriverOp) (w : World) :
  exists evs,
    log (run_op fuel op w) = log w ++ evs
    /\ write_enable_paired None None (opcodes false evs) = true
    /\ forall i c,
         nth_error (opcodes false evs) i = Some c ->
         needs_write_enable (fst c) = true ->
         exists j,
           i = S j
           /\ nth_error (opcodes false evs) j = Some (W25Q128_CMD_WRITE_ENABLE, true)
           /\ forall k, j = S k -> is_write_enable (nth_error (opcodes false evs) k) = false.
Proof.
  assert (H : forall A (m : M A) (Q : option A -> WeState -> Prop),
             triple we_step (mkWe false None None) m Q ->
             exists evs,
               log (exec m w) = log w ++ evs
               /\ write_enable_paired None None (opcodes false evs) = true).
  { intros A m Q T. destruct (T w) as [evs [L [s' [R _]]]].
    exists evs. split; [exact L|].
    exact (we_run_paired evs _ _ R). }
  assert (G : exists evs,
             log (run_op fuel op w) = log w ++ evs
             /\ write_enable_paired None None (opcodes false evs) = true).
  { destruct op; cbn [run_op].
    - apply (H _ _ _ (we_ReadID None None)).
    - apply (H _ _ _ (we_ReadJEDECID None None)).
    - apply (H _ _ _ (we_ReadStatusRegister None None)).
    - apply (H _ _ _ (we_WaitForWriteEnd fuel None None)).
    - apply (H _ _ _ (we_WriteEnable None None)).
    - apply (H _ _ _ (we_WriteDisable None None)).
    - apply (H _ _ _ (we_Read None None address length)).
    - apply (H _ _ _ (we_WritePage fuel address buffer length None None eq_refl)).
    - apply (H _ _ _ (we_Write_loop _ fuel address buffer length None None eq_refl)).
    - apply (H _ _ _ (we_EraseSector fuel sector_address None None eq_refl)).
    - apply (H _ _ _ (we_EraseBlock64KB fuel block_address None None eq_refl)).
    - apply (H _ _ _ (we_EraseChip fuel None None eq_refl)).
    - apply (H _ _ _ (we_PowerDown None None)).
    - apply (H _ _ _ (we_WakeUp None None)). }
  destruct G as [evs [L P]]. exists evs. split; [exact L|]. split; [exact P|].
  intros i c Hi Hn.
  pose proof (write_enable_paired_at _ None None i c P Hi Hn) as A.
  unfold armed in A. apply andb_true_iff in A. destruct A as [A1 A2].
  destruct i as [|j]; [discriminate A1|]. exists j. split; [reflexivity|].
  assert (P1 : snd (context_at None None (opcodes false evs) (S j))
               = nth_error (opcodes false evs) j) by (destruct j; reflexivity).
  rewrite P1 in A1.
  destruct (nth_error (opcodes false evs) j) as [[o ok]|]; [|discriminate A1].
  apply andb_true_iff in A1. destruct A1 as [Ao Aok].
  apply Z.eqb_eq in Ao. subst o ok. split; [reflexivity|].
  intros k ->. cbn [context_at fst] in A2. apply negb_true_iff. exact A2.
Qed.

Lemma write_enable_pairing_check :
  opcodes false
    (log (run_op 1 (Op_Write 0xF0 (repeat 0xA5 32) 32) (fresh_world quiet_env [])))
  = [ (0x06, true); (0x02, true); (0x05, true);
      (0x06, true); (0x02, true); (0x05, true) ].
Proof. vm_compute. reflexivity. Qed.

Lemma write_enable_pairing_witness :
  exists evs,
    log (run_op 1 (Op_EraseChip) (fresh_world quiet_env [])) = [] ++ evs
    /\ write_enable_paired None None (opcodes false evs) = true
    /\ forall i c,
         nth_error (opcodes false evs) i = Some c ->
         needs_write_enable (fst c) = true ->
         exists j,
           i = S j
           /\ nth_error (opcodes false evs) j = Some (W25Q128_CMD_WRITE_ENABLE, true)
           /\ forall k, j = S k -> is_write_enable (nth_error (opcodes false evs) k) = false.
Proof.
  exact (write_enable_pairing 1 Op_EraseChip (fresh_world quiet_env [])).
Defined.

(* ================================================================== *)
(** ** Page-aware write *)

Lemma keeps_ret {A : Type} (a : A) : keeps_pages (ret a).
Proof. intro w. reflexivity. Qed.

Lemma keeps_bind {A B : Type} (m : M A) (k : A -> M B) :
  keeps_pages m -> (forall a, keeps_pages (k a)) -> keeps_pages (bind m k).
Proof.
  intros Hm Hk w. unfold bind. specialize (Hm w).
  destruct (m w) as [[a|] w1]; cbn [snd] in *; [|exact Hm].
  rewrite Hk. exact Hm.
Qed.

Lemma keeps_if {A : Type} (b : bool) (m1 m2 : M A) :
  keeps_pages m1 -> keeps_pages m2 -> keeps_pages (if b then m1 else m2).
Proof. destruct b; auto. Qed.

Lemma keeps_gpio (level : bool) : keeps_pages (HAL_GPIO_WritePin level).
Proof. intro w. reflexivity. Qed.

Lemma keeps_spi_tx (d : list Z) : keeps_pages (HAL_SPI_Transmit d).
Proof. intro w. reflexivity. Qed.

Lemma keeps_spi_rx (n : Z) : keeps_pages (HAL_SPI_Receive n).
Proof. intro w. unfold HAL_SPI_Receive. destruct (spi_ok _ _); reflexivity. Qed.

Lemma keeps_tick : keeps_pages HAL_GetTick.
Proof. intro w. reflexivity. Qed.

Create HintDb keeps discriminated.
#[local] Hint Resolve keeps_ret keeps_bind keeps_if keeps_gpio keeps_spi_tx
  keeps_spi_rx keeps_tick : keeps.

Lemma keeps_WriteEnable : keeps_pages W25Q128_WriteEnable.
Proof. unfold W25Q128_WriteEnable, CS_LOW, CS_HIGH. auto 10 with keeps. Qed.

Lemma keeps_WaitForWriteEnd (fuel : nat) : keeps_pages (W25Q128_WaitForWriteEnd fuel).
Proof.
  intros [e i l p h].
  destruct (W25Q128_WaitForWriteEnd_run fuel e i l p h) as [polls [r [E _]]].
  rewrite E. reflexivity.
Qed.

#[local] Hint Resolve keeps_WriteEnable keeps_WaitForWriteEnd : keeps.

Lemma W25Q128_WritePage_call (fuel : nat) (address : Z) (buffer : list Z) (length : Z) (w : World) :
  page_calls (snd (W25Q128_WritePage fuel address buffer length w))
  = page_calls w ++ [(address, length)].
Proof.
  unfold W25Q128_WritePage. unfold bind at 1.
  match goal with
  | |- page_calls (snd (?m ?w1)) = _ =>
      assert (K : keeps_pages m)
  end.
  { unfold CS_LOW, CS_HIGH. auto 20 with keeps. }
  rewrite K. reflexivity.
Qed.

Lemma single_page_call (addr wl remaining : Z) :
  0 < wl <= remaining ->
  addr mod 256 + wl <= 256 ->
  Forall within_page [(addr, wl)]
  /\ Forall (fun c => 0 < snd c) [(addr, wl)]
  /\ contiguous_from addr [(addr, wl)]
  /\ total_length [(addr, wl)] <= remaining.
Proof.
  intros H1 H2. repeat split.
  - constructor; [exact H2 | constructor].
  - constructor; [cbn [snd]; lia | constructor].
  - cbn [total_length fold_right snd]. lia.
Qed.

Lemma W25Q128_Write_loop_pages (n : nat) :
  forall (fuel : nat) (addr : Z) (buf : list Z) (remaining : Z) (w : World),
    0 <= remaining <= Z.of_nat n ->
    exists calls,
      page_calls (snd (W25Q128_Write_loop n fuel addr buf remaining w))
      = page_calls w ++ calls
      /\ Forall within_page calls
      /\ Forall (fun c => 0 < snd c) calls
      /\ contiguous_from addr calls
      /\ total_length calls <= remaining
      /\ (fst (W25Q128_Write_loop n fuel addr buf remaining w) = Some W25Q128_OK ->
          total_length calls = remaining).
Proof.
  induction n as [|n IH]; intros fuel addr buf remaining w Hr.
  - assert (remaining = 0) by lia. subst remaining.
    exists []. cbn. rewrite app_nil_r. repeat split; auto; lia.
  - cbn [W25Q128_Write_loop].
    destruct (Z.gtb_spec remaining 0) as [Hpos | Hz].
    2:{ exists []. cbn. rewrite app_nil_r.
        repeat split; auto; try lia. }
    cbv zeta.
    remember (if W25Q128_PAGE_SIZE - addr mod W25Q128_PAGE_SIZE >? remaining
              then remaining
              else W25Q128_PAGE_SIZE - addr mod W25Q128_PAGE_SIZE) as wl eqn:Ewl.
    assert (Hwl : 0 < wl <= remaining /\ addr mod 256 + wl <= 256).
    { subst wl. unfold W25Q128_PAGE_SIZE.
      pose proof (Z.mod_pos_bound addr 256 eq_refl).
      destruct (Z.gtb_spec (256 - addr mod 256) remaining); lia. }
    destruct Hwl as [Hwl1 Hwl2].
    destruct (single_page_call addr wl remaining Hwl1 Hwl2) as [S1 [S2 [S3 S4]]].
    pose proof (W25Q128_WritePage_call fuel addr buf wl w) as C.
    unfold bind at 1 2.
    destruct (W25Q128_WritePage fuel addr buf wl w) as [[st|] w1];
      cbn [snd] in C.
    2:{ exists [(addr, wl)]. cbn [fst snd].
        repeat (split; [assumption|]). discriminate. }
    destruct (is_OK st); cbn [negb].
    + destruct (IH fuel (u32 (addr + wl))
                  (skipn (Z.to_nat wl) buf) (remaining - wl) w1)
        as [calls [P [W [Q [Ct [T E]]]]]]; [lia|].
      exists ((addr, wl) :: calls). rewrite P, C, <- app_assoc.
      split; [reflexivity|].
      split; [constructor; [exact Hwl2 | exact W]|].
      split; [constructor; [cbn [snd]; lia | exact Q]|].
      split; [split; [reflexivity | exact Ct]|].
      split; [cbn [total_length fold_right snd]; fold (total_length calls); lia|].
      intro H. cbn [total_length fold_right snd]. fold (total_length calls).
      rewrite (E H). lia.
    + exists [(addr, wl)]. cbn [fst snd ret].
      repeat (split; [assumption|]). discriminate.
Qed.

(* ================================================================== *)
(** ** Page programs as the flash sees them *)

Lemma pg_run_within_page (evs : list Event) :
  forall st st',
    run pg_step st evs = Some st' ->
    Forall within_page (wire_programs st evs).
Proof.
  induction evs as [|ev evs IH]; intros st st' H; [constructor|].
  cbn [run] in H.
  destruct (pg_step st ev) as [st1|] eqn:E; [|discriminate H].
  specialize (IH st1 st' H).
  destruct ev; cbn [pg_step] in E; cbn [wire_programs];
    try (inversion E; subst; exact IH).
  destruct st.
  - inversion E; subst. exact IH.
  - destruct (nth 0 data 0 =? W25Q128_CMD_PAGE_PROGRAM); inversion E; subst; exact IH.
  - destruct (Z.leb_spec (address mod 256 + Z.of_nat (length data)) 256) as [L|L];
      [|discriminate E].
    inversion E; subst. constructor; [exact L | exact IH].
  - inversion E; subst. exact IH.
Qed.

Lemma addr24_cmd_addr_low (opcode address : Z) :
  addr24 (cmd_addr opcode address) mod 256 = address mod 256.
Proof.
  unfold addr24, cmd_addr. cbn [nth].
  change 0xFF with (Z.ones 8). rewrite !Z.land_ones by lia.
  change (2 ^ 8) with 256.
  replace (Z.shiftr address 16 mod 256 * 65536 + Z.shiftr address 8 mod 256 * 256
           + address mod 256)
    with (address mod 256
          + (Z.shiftr address 16 mod 256 * 256 + Z.shiftr address 8 mod 256) * 256)
    by lia.
  rewrite Z.mod_add by lia. apply Z.mod_mod. lia.
Qed.

Lemma pg_then {A B : Type} (m : M A) (k : A -> M B) :
  triple pg_step PgIdle m pg_idle ->
  (forall a, triple pg_step PgIdle (k a) pg_idle) ->
  triple pg_step PgIdle (bind m k) pg_idle.
Proof.
  intros Hm Hk. eapply triple_bind; [exact Hm | | ].
  - unfold pg_idle. intros a s1 ->. apply Hk.
  - auto.
Qed.

Lemma pg_ReadStatusRegister :
  triple pg_step PgIdle W25Q128_ReadStatusRegister pg_idle.
Proof. unfold W25Q128_ReadStatusRegister, CS_LOW, CS_HIGH. repeat hal_step. Qed.

Lemma pg_WriteEnable : triple pg_step PgIdle W25Q128_WriteEnable pg_idle.
Proof. unfold W25Q128_WriteEnable, CS_LOW, CS_HIGH. repeat hal_step. Qed.

Lemma pg_WaitForWriteEnd_loop (fuel : nat) :
  forall timeout status,
    triple pg_step PgIdle (W25Q128_WaitForWriteEnd_loop fuel timeout status) pg_idle.
Proof.
  induction fuel as [|fuel IH]; intros timeout status.
  - apply triple_spin. reflexivity.
  - cbn [W25Q128_WaitForWriteEnd_loop].
    apply pg_then; [apply pg_ReadStatusRegister|].
    intros [st out]. cbn [fst snd].
    destruct (is_OK st); cbn [negb]; [|hal_step].
    hal_step.
    destruct (_ >? timeout); [hal_step|].
    destruct (negb _); [apply IH | hal_step].
Qed.

Lemma pg_WaitForWriteEnd (fuel : nat) :
  triple pg_step PgIdle (W25Q128_WaitForWriteEnd fuel) pg_idle.
Proof.
  unfold W25Q128_WaitForWriteEnd. hal_step. apply pg_WaitForWriteEnd_loop.
Qed.

Lemma pg_WritePage (fuel : nat) (address : Z) (buffer : list Z) (length : Z) :
  0 <= length ->
  address mod 256 + length <= 256 ->
  triple pg_step PgIdle (W25Q128_WritePage fuel address buffer length) pg_idle.
Proof.
  intros Hlen Hpage. unfold W25Q128_WritePage.
  eapply triple_bind;
    [ apply (triple_silent pg_step _ _ tt (fun r s => r = Some tt /\ s = PgIdle));
      [reflexivity | auto]
    | cbv beta; intros [] ? [_ ->]
    | cbv beta; intros ? [H _]; discriminate H ].
  destruct (length >? W25Q128_PAGE_SIZE); [hal_step|].
  apply pg_then; [apply pg_WriteEnable|]. intro we.
  destruct (is_OK we); cbn [negb]; [|hal_step].
  unfold CS_LOW, CS_HIGH. hal_step.
  assert (Hfit : forall ok,
             pg_step (PgData (addr24 (cmd_addr W25Q128_CMD_PAGE_PROGRAM address)))
               (SPI_TX (firstn (Z.to_nat length) buffer) ok)
             = Some PgOther).
  { intro ok. cbn [pg_step]. rewrite addr24_cmd_addr_low.
    replace (_ <=? 256) with true; [reflexivity|].
    symmetry. apply Z.leb_le.
    pose proof (firstn_le_length (Z.to_nat length) buffer). lia. }
  eapply triple_bind;
    [ apply sp_spi_tx; intro; cbn; discriminate
    | cbv beta; intros ? ? [ok1 [Hr1 Es1]]; inversion Hr1; subst; cbn in Es1;
      inversion Es1; subst; destruct ok1; cbn [negb]
    | cbv beta; intros ? [? [H _]]; discriminate H ].
  2:{ repeat hal_step. }
  eapply triple_bind;
    [ apply sp_spi_tx; intro ok; rewrite Hfit; discriminate
    | cbv beta; intros ? ? [ok2 [Hr2 Es2]]; inversion Hr2; subst; rewrite Hfit in Es2;
      inversion Es2; subst; destruct ok2; cbn [negb]
    | cbv beta; intros ? [? [H _]]; discriminate H ].
  - hal_step. apply pg_WaitForWriteEnd.
  - repeat hal_step.
Qed.

Lemma pg_Write_loop (n : nat) :
  forall fuel addr buf remaining,
    triple pg_step PgIdle (W25Q128_Write_loop n fuel addr buf remaining) pg_idle.
Proof.
  induction n as [|n IH]; intros fuel addr buf remaining; cbn [W25Q128_Write_loop];
    destruct (Z.gtb_spec remaining 0) as [Hpos|Hz];
    try (apply triple_ret; reflexivity);
    try (apply triple_spin; reflexivity).
  cbv zeta.
  remember (if W25Q128_PAGE_SIZE - addr mod W25Q128_PAGE_SIZE >? remaining
            then remaining
            else W25Q128_PAGE_SIZE - addr mod W25Q128_PAGE_SIZE) as wl eqn:Ewl.
  assert (Hwl : 0 < wl <= remaining /\ addr mod 256 + wl <= 256).
  { subst wl. unfold W25Q128_PAGE_SIZE.
    pose proof (Z.mod_pos_bound addr 256 eq_refl).
    destruct (Z.gtb_spec (256 - addr mod 256) remaining); lia. }
  apply pg_then; [apply pg_WritePage; lia|]. intro st.
  destruct (is_OK st); cbn [negb]; [apply IH | hal_step].
Qed.

Example scenario_write_wire_programs :
  wire_programs PgIdle
    (log (snd (W25Q128_Write 1 0x80 (repeat 0x5A 768) 768 (fresh_world quiet_env []))))
  = [(0x80, 128); (0x100, 256); (0x200, 256); (0x300, 128)].
Proof. vm_compute. reflexivity. Qed.

(** *** A write on a working bus, and where a write stops *)

Lemma W25Q128_WriteEnable_sound e i l p h :
  spi_sound e ->
  W25Q128_WriteEnable (mkWorld e i l p h)
  = (Some W25Q128_OK, mkWorld e i (l ++ write_enable_ok) p h).
Proof.
  intro Hs. unfold spi_sound in Hs.
  unfold W25Q128_WriteEnable, CS_LOW, CS_HIGH, HAL_GPIO_WritePin,
    HAL_SPI_Transmit, bind, ret, emit, step, write_enable_ok.
  cbn [env uart_in log page_calls hboot fst snd].
  repeat (rewrite Hs; cbn [negb env uart_in log page_calls hboot fst snd]).
  rewrite <- !app_assoc. reflexivity.
Qed.

Lemma W25Q128_ReadStatusRegister_idle e i l p h :
  spi_sound e ->
  flash_idle e ->
  exists st,
    Z.land st W25Q128_STATUS_BUSY = 0
    /\ W25Q128_ReadStatusRegister (mkWorld e i l p h)
       = (Some (W25Q128_OK, Some st), mkWorld e i (l ++ status_read_ok st) p h).
Proof.
  intros Hs [Hidle _]. unfold spi_sound in Hs.
  unfold W25Q128_ReadStatusRegister, CS_LOW, CS_HIGH, HAL_GPIO_WritePin,
    HAL_SPI_Transmit, HAL_SPI_Receive, bind, ret, emit, step, status_read_ok.
  cbn [env uart_in log page_calls hboot fst snd].
  repeat (rewrite Hs; cbn [negb env uart_in log page_calls hboot fst snd]).
  eexists. split; [|rewrite <- !app_assoc; cbn [app map seq Z.to_nat Pos.to_nat
                                                 Pos.iter_op Nat.add nth];
                    reflexivity].
  apply Hidle.
Qed.

Lemma W25Q128_WaitForWriteEnd_idle (fuel : nat) e i l p h :
  spi_sound e ->
  flash_idle e ->
  exists t0 st t1,
    W25Q128_WaitForWriteEnd (S fuel) (mkWorld e i l p h)
    = (Some W25Q128_OK, mkWorld e i (l ++ idle_wait t0 st t1) p h).
Proof.
  intros Hs Hi.
  unfold W25Q128_WaitForWriteEnd. unfold bind at 1. rewrite HAL_GetTick_run.
  cbn [W25Q128_WaitForWriteEnd_loop]. unfold bind at 1.
  destruct (W25Q128_ReadStatusRegister_idle e i
              (l ++ [TICK (u32 (clock e (length l)))]) p h Hs Hi) as [st [Hst E]].
  rewrite E. cbn [fst snd is_OK negb].
  unfold bind at 1. rewrite HAL_GetTick_run.
  replace (length ((l ++ [TICK (u32 (clock e (length l)))]) ++ status_read_ok st))
    with (length l + 5)%nat
    by (rewrite !length_app; cbn [length status_read_ok]; lia).
  destruct Hi as [_ Ht]. specialize (Ht (length l)).
  replace (u32 (clock e (length l + 5)) >? u32 (u32 (clock e (length l)) + 5000))
    with false by (symmetry; rewrite Z.gtb_ltb; apply Z.ltb_ge; exact Ht).
  rewrite Hst. cbn [Z.eqb negb]. unfold ret, idle_wait.
  exists (u32 (clock e (length l))), st, (u32 (clock e (length l + 5))).
  rewrite <- !app_assoc. reflexivity.
Qed.

Lemma W25Q128_WritePage_idle (fuel : nat) (a : Z) (buf : list Z) (len : Z) e i l p h :
  spi_sound e ->
  flash_idle e ->
  len <= W25Q128_PAGE_SIZE ->
  exists evs,
    W25Q128_WritePage (S fuel) a buf len (mkWorld e i l p h)
    = (Some W25Q128_OK, mkWorld e i (l ++ evs) (p ++ [(a, len)]) h).
Proof.
  intros Hs Hi Hlen. unfold W25Q128_WritePage. unfold bind at 1.
  cbn [fst snd]. unfold note_page_call. cbn [env uart_in log page_calls hboot].
  replace (len >? W25Q128_PAGE_SIZE) with false
    by (symmetry; rewrite Z.gtb_ltb; apply Z.ltb_ge; exact Hlen).
  unfold bind at 1.
  rewrite W25Q128_WriteEnable_sound by exact Hs. cbn [is_OK negb].
  unfold CS_LOW, CS_HIGH, HAL_GPIO_WritePin, HAL_SPI_Transmit, bind, emit, step.
  cbn [env uart_in log page_calls hboot fst snd].
  repeat (rewrite (Hs _); cbn [negb env uart_in log page_calls hboot fst snd]).
  match goal with
  | |- context [W25Q128_WaitForWriteEnd (S fuel) (mkWorld e i ?l1 ?p1 h)] =>
      destruct (W25Q128_WaitForWriteEnd_idle fuel e i l1 p1 h Hs Hi)
        as [t0 [st [t1 E]]]
  end.
  rewrite E. eexists. rewrite <- !app_assoc. reflexivity.
Qed.

Lemma W25Q128_Write_loop_idle (n : nat) :
  forall (fuel : nat) (a : Z) (buf : list Z) (remaining : Z) e i l p h,
    spi_sound e ->
    flash_idle e ->
    remaining <= Z.of_nat n ->
    exists evs p',
      W25Q128_Write_loop n (S fuel) a buf remaining (mkWorld e i l p h)
      = (Some W25Q128_OK, mkWorld e i (l ++ evs) p' h).
Proof.
  induction n as [|n IH]; intros fuel a buf remaining e i l p h Hs Hi Hn;
    cbn [W25Q128_Write_loop];
    destruct (Z.gtb_spec remaining 0) as [Hpos|Hz]; try lia;
    try (exists [], p; unfold ret; rewrite app_nil_r; reflexivity).
  cbv zeta.
  remember (if W25Q128_PAGE_SIZE - a mod W25Q128_PAGE_SIZE >? remaining
            then remaining
            else W25Q128_PAGE_SIZE - a mod W25Q128_PAGE_SIZE) as wl eqn:Ewl.
  assert (Hwl : 0 < wl <= remaining /\ a mod 256 + wl <= 256).
  { subst wl. unfold W25Q128_PAGE_SIZE.
    pose proof (Z.mod_pos_bound a 256 eq_refl).
    destruct (Z.gtb_spec (256 - a mod 256) remaining); lia. }
  clear Ewl.
  destruct (W25Q128_WritePage_idle fuel a buf wl e i l p h Hs Hi) as [evs1 E1].
  { unfold W25Q128_PAGE_SIZE. pose proof (Z.mod_pos_bound a 256 eq_refl). lia. }
  unfold bind at 1. rewrite E1. cbn [is_OK negb].
  destruct (IH fuel (u32 (a + wl)) (skipn (Z.to_nat wl) buf) (remaining - wl)
              e i (l ++ evs1) (p ++ [(a, wl)]) h Hs Hi ltac:(lia))
    as [evs2 [p' E2]].
  exists (evs1 ++ evs2), p'. rewrite E2, <- app_assoc. reflexivity.
Qed.

Lemma total_length_cons (c : Z * Z) (cs : list (Z * Z)) :
  total_length (c :: cs) = snd c + total_length cs.
Proof. reflexivity. Qed.

Lemma page_split_total (n : nat) :
  forall (addr remaining : Z),
    0 <= remaining <= Z.of_nat n ->
    total_length (page_split n addr remaining) = remaining.
Proof.
  induction n as [|n IH]; intros addr remaining Hr; cbn [page_split];
    destruct (Z.gtb_spec remaining 0) as [Hpos|Hz];
    try (cbn [total_length fold_right]; lia).
  cbv zeta. rewrite total_length_cons. cbn [snd].
  pose proof (Z.mod_pos_bound addr 256 eq_refl).
  rewrite IH; lia.
Qed.

Lemma Forall_removelast_cons {A : Type} (P : A -> Prop) (a : A) (l : list A) :
  P a -> Forall P (removelast l) -> Forall P (removelast (a :: l)).
Proof.
  intros Ha Hl. destruct l as [|b l]; [constructor|].
  change (removelast (a :: b :: l)) with (a :: removelast (b :: l)).
  constructor; assumption.
Qed.

Lemma last_cons_keeps {A : Type} (a d : A) (l : list A) :
  last l d <> d -> last (a :: l) d = last l d.
Proof.
  destruct l as [|b l]; [intro K; contradiction K; reflexivity | reflexivity].
Qed.

Lemma W25Q128_Write_loop_outcomes (n : nat) :
  forall (fuel : nat) (addr : Z) (buf : list Z) (remaining : Z) (w : World),
    0 <= remaining <= Z.of_nat n ->
    exists calls,
      page_calls (snd (W25Q128_Write_loop n fuel addr buf remaining w))
      = page_calls w ++ calls
      /\ (exists k, calls = firstn k (page_split n addr remaining))
      /\ Forall (eq (Some W25Q128_OK)) (removelast (page_outcomes fuel calls buf w))
      /\ (fst (W25Q128_Write_loop n fuel addr buf remaining w) = Some W25Q128_OK <->
          calls = page_split n addr remaining
          /\ Forall (eq (Some W25Q128_OK)) (page_outcomes fuel calls buf w))
      /\ (fst (W25Q128_Write_loop n fuel addr buf remaining w) <> Some W25Q128_OK ->
          last (page_outcomes fuel calls buf w) (Some W25Q128_OK) <> Some W25Q128_OK).
Proof.
  assert (Hnil : forall fuel buf w addr remaining n',
             page_split n' addr remaining = [] ->
             exists calls : list (Z * Z),
               page_calls w = page_calls w ++ calls
               /\ (exists k, calls = firstn k (page_split n' addr remaining))
               /\ Forall (eq (Some W25Q128_OK))
                    (removelast (page_outcomes fuel calls buf w))
               /\ (Some W25Q128_OK = Some W25Q128_OK <->
                   calls = page_split n' addr remaining
                   /\ Forall (eq (Some W25Q128_OK)) (page_outcomes fuel calls buf w))
               /\ (Some W25Q128_OK <> Some W25Q128_OK ->
                   last (page_outcomes fuel calls buf w) (Some W25Q128_OK)
                   <> Some W25Q128_OK)).
  { intros fuel buf w addr remaining n' E. exists []. rewrite E, app_nil_r.
    split; [reflexivity|].
    split; [exists 0%nat; reflexivity|].
    split; [constructor|].
    split; [split; [intros _; split; [reflexivity | constructor] | reflexivity]|].
    intro K. contradiction K. reflexivity. }
  induction n as [|n IH]; intros fuel addr buf remaining w Hr.
  - assert (remaining = 0) by lia. subst remaining.
    apply (Hnil fuel buf w addr 0 0%nat). reflexivity.
  - cbn [W25Q128_Write_loop].
    destruct (Z.gtb_spec remaining 0) as [Hpos | Hz].
    2:{ apply (Hnil fuel buf w addr remaining (S n)). cbn [page_split].
        destruct (Z.gtb_spec remaining 0); [lia | reflexivity]. }
    assert (Esplit : page_split (S n) addr remaining
                     = (addr, Z.min (256 - addr mod 256) remaining)
                       :: page_split n (u32 (addr + Z.min (256 - addr mod 256) remaining))
                            (remaining - Z.min (256 - addr mod 256) remaining)).
    { cbn [page_split]. destruct (Z.gtb_spec remaining 0); [reflexivity | lia]. }
    rewrite Esplit. cbv zeta.
    replace (if W25Q128_PAGE_SIZE - addr mod W25Q128_PAGE_SIZE >? remaining
             then remaining
             else W25Q128_PAGE_SIZE - addr mod W25Q128_PAGE_SIZE)
      with (Z.min (256 - addr mod 256) remaining)
      by (unfold W25Q128_PAGE_SIZE;
          destruct (Z.gtb_spec (256 - addr mod 256) remaining); lia).
    pose proof (Z.mod_pos_bound addr 256 eq_refl) as Hm.
    set (wl := Z.min (256 - addr mod 256) remaining).
    assert (Hwl : 0 < wl <= remaining) by (unfold wl; lia).
    pose proof (W25Q128_WritePage_call fuel addr buf wl w) as C.
    unfold bind at 1 2 3.
    remember (W25Q128_WritePage fuel addr buf wl w) as r eqn:Er.
    destruct r as [[st|] w1]; cbn [snd] in C.
    2:{ exists [(addr, wl)]. cbn [fst snd page_outcomes]. rewrite <- Er.
        cbn [fst snd page_outcomes removelast last].
        split; [exact C|].
        split; [exists 1%nat; reflexivity|].
        split; [constructor|].
        split; [split; [discriminate | intros [_ K]; inversion K; discriminate]|].
        intros _. discriminate. }
    destruct st; cbn [is_OK negb].
    2-4: exists [(addr, wl)]; cbn [fst snd ret page_outcomes]; rewrite <- Er;
      cbn [fst snd page_outcomes removelast last];
      (split; [exact C|]);
      (split; [exists 1%nat; reflexivity|]);
      (split; [constructor|]);
      (split; [split; [discriminate | intros [_ K]; inversion K; discriminate]|]);
      intros _; discriminate.
    destruct (IH fuel (u32 (addr + wl)) (skipn (Z.to_nat wl) buf) (remaining - wl) w1)
      as [calls [P [[k Pk] [Po [Piff Plast]]]]]; [lia|].
    exists ((addr, wl) :: calls). rewrite P, C, <- app_assoc.
    cbn [page_outcomes]. rewrite <- Er. cbn [fst snd].
    split; [reflexivity|].
    split; [exists (S k); cbn [firstn]; rewrite <- Pk; reflexivity|].
    split; [apply Forall_removelast_cons; [reflexivity | exact Po]|].
    split.
    + split.
      * intro K. apply Piff in K. destruct K as [K1 K2].
        split; [rewrite <- K1; reflexivity | constructor; [reflexivity | exact K2]].
      * intros [K1 K2]. apply Piff.
        split; [congruence | inversion K2; assumption].
    + intro K. rewrite last_cons_keeps; apply Plast; exact K.
Qed.

(** C1 (as amended).  Whatever the transports and the flash do,
    [W25Q128_Write address buffer length] calls [W25Q128_WritePage] with
    chunks [(a_i, n_i)] that are non-empty, satisfy
    [(a_i mod 256) + n_i <= 256], and lie end to end starting at [address]
    (addresses being [uint32_t]); their lengths sum to at most [length],
    and to exactly [length] when the write returns [W25Q128_OK].  On the
    SPI bus likewise, the data sent after each page-program header ends
    within the page of the header's address.

    The chunks called for are an initial part of the pages of
    [length] bytes at [address] (whose lengths sum to [length]), and
    every call but the last has returned [W25Q128_OK]: the write goes on
    after a page that succeeds and stops at the first one that does not.
    It returns [W25Q128_OK] exactly when all the pages have been called
    for and each call has returned [W25Q128_OK]; when it does not, the
    last call made is one that has not returned [W25Q128_OK].  When no
    SPI transfer fails and the flash is idle, the write returns
    [W25Q128_OK]. *)
Theorem W25Q128_Write_never_crosses_a_page
  (fuel : nat) (address : Z) (buffer : list Z) (length : Z) (w : World) :
  0 <= length ->
  exists calls evs,
    page_calls (snd (W25Q128_Write fuel address buffer length w))
    = page_calls w ++ calls
    /\ Forall within_page calls
    /\ Forall (fun c => 0 < snd c) calls
    /\ contiguous_from address calls
    /\ total_length calls <= length
    /\ (fst (W25Q128_Write fuel address buffer length w) = Some W25Q128_OK ->
        total_length calls = length)
    /\ log (snd (W25Q128_Write fuel address buffer length w)) = log w ++ evs
    /\ Forall within_page (wire_programs PgIdle evs)
    /\ total_length (page_split (Z.to_nat length) address length) = length
    /\ (exists k, calls = firstn k (page_split (Z.to_nat length) address length))
    /\ Forall (eq (Some W25Q128_OK)) (removelast (page_outcomes fuel calls buffer w))
    /\ (fst (W25Q128_Write fuel address buffer length w) = Some W25Q128_OK <->
        calls = page_split (Z.to_nat length) address length
        /\ Forall (eq (Some W25Q128_OK)) (page_outcomes fuel calls buffer w))
    /\ (fst (W25Q128_Write fuel address buffer length w) <> Some W25Q128_OK ->
        last (page_outcomes fuel calls buffer w) (Some W25Q128_OK) <> Some W25Q128_OK)
    /\ (spi_sound (env w) -> flash_idle (env w) -> (0 < fuel)%nat ->
        fst (W25Q128_Write fuel address buffer length w) = Some W25Q128_OK).
Proof.
  intro H. unfold W25Q128_Write.
  destruct (W25Q128_Write_loop_pages (Z.to_nat length) fuel address buffer length w)
    as [calls [C1 [C2 [C3 [C4 [C5 C6]]]]]]; [lia|].
  destruct (W25Q128_Write_loop_outcomes (Z.to_nat length) fuel address buffer length w)
    as [calls' [D1 [D2 [D3 [D4 D5]]]]]; [lia|].
  assert (calls' = calls)
    by (rewrite C1 in D1; apply app_inv_head in D1; symmetry; exact D1).
  subst calls'.
  destruct (pg_Write_loop (Z.to_nat length) fuel address buffer length w)
    as [evs [L [st' [R _]]]].
  exists calls, evs.
  repeat (split; [assumption|]).
  split; [exact (pg_run_within_page evs _ _ R)|].
  split; [apply page_split_total; lia|].
  repeat (split; [assumption|]).
  intros Hs Hi Hf. destruct fuel as [|fuel]; [lia|]. destruct w as [e i l p h].
  destruct (W25Q128_Write_loop_idle (Z.to_nat length) fuel address buffer length
              e i l p h Hs Hi ltac:(lia)) as [evs' [p' E]].
  rewrite E. reflexivity.
Qed.

Lemma W25Q128_Write_never_crosses_a_page_witness :
  fst (W25Q128_Write 1 0x80 (repeat 0xA5 768) 768 (fresh_world quiet_env []))
    = Some W25Q128_OK
  /\ page_calls (snd (W25Q128_Write 1 0x80 (repeat 0xA5 768) 768 (fresh_world quiet_env [])))
     = [(0x80, 128); (0x100, 256); (0x200, 256); (0x300, 128)]
  /\ exists calls evs,
       page_calls (snd (W25Q128_Write 1 0x80 (repeat 0xA5 768) 768 (fresh_world quiet_env [])))
       = page_calls (fresh_world quiet_env []) ++ calls
       /\ Forall within_page calls
       /\ Forall (fun c => 0 < snd c) calls
       /\ contiguous_from 0x80 calls
       /\ total_length calls <= 768
       /\ (fst (W25Q128_Write 1 0x80 (repeat 0xA5 768) 768 (fresh_world quiet_env []))
             = Some W25Q128_OK ->
           total_length calls = 768)
       /\ log (snd (W25Q128_Write 1 0x80 (repeat 0xA5 768) 768 (fresh_world quiet_env [])))
          = log (fresh_world quiet_env []) ++ evs
       /\ Forall within_page (wire_programs PgIdle evs)
       /\ total_length (page_split (Z.to_nat 768) 0x80 768) = 768
       /\ (exists k, calls = firstn k (page_split (Z.to_nat 768) 0x80 768))
       /\ Forall (eq (Some W25Q128_OK))
            (removelast (page_outcomes 1 calls (repeat 0xA5 768) (fresh_world quiet_env [])))
       /\ (fst (W25Q128_Write 1 0x80 (repeat 0xA5 768) 768 (fresh_world quiet_env []))
             = Some W25Q128_OK <->
           calls = page_split (Z.to_nat 768) 0x80 768
           /\ Forall (eq (Some W25Q128_OK))
                (page_outcomes 1 calls (repeat 0xA5 768) (fresh_world quiet_env [])))
       /\ (fst (W25Q128_Write 1 0x80 (repeat 0xA5 768) 768 (fresh_world quiet_env []))
             <> Some W25Q128_OK ->
           last (page_outcomes 1 calls (repeat 0xA5 768) (fresh_world quiet_env []))
             (Some W25Q128_OK) <> Some W25Q128_OK)
       /\ (spi_sound (env (fresh_world quiet_env [])) ->
           flash_idle (env (fresh_world quiet_env [])) -> (0 < 1)%nat ->
           fst (W25Q128_Write 1 0x80 (repeat 0xA5 768) 768 (fresh_world quiet_env []))
           = Some W25Q128_OK).
Proof.
  split; [vm_compute; reflexivity|].
  split; [vm_compute; reflexivity|].
  apply (W25Q128_Write_never_crosses_a_page 1 0x80 (repeat 0xA5 768) 768
           (fresh_world quiet_env [])).
  lia.
Defined.

(** C1 (as stated).  When the SPI bus is dead, a write of 300 bytes at
    address 0 stops after the first page-program call: the chunks called
    for, [(0, 256)], sum to 256 and not to the 300 bytes of the buffer. *)
Lemma W25Q128_Write_chunks_may_fall_short :
  fst (W25Q128_Write 1 0 (repeat 0xA5 300) 300 (fresh_world dead_spi_env []))
    = Some W25Q128_ERROR
  /\ page_calls (snd (W25Q128_Write 1 0 (repeat 0xA5 300) 300 (fresh_world dead_spi_env [])))
     = [(0, 256)]
  /\ total_length
       (page_calls (snd (W25Q128_Write 1 0 (repeat 0xA5 300) 300 (fresh_world dead_spi_env []))))
     <> Z.of_nat (List.length (repeat 0xA5 300)).
Proof.
  split; [vm_compute; reflexivity|].
  split; [vm_compute; reflexivity|].
  vm_compute. discriminate.
Qed.

(* ================================================================== *)
(** ** The model on the scenarios of the specification *)

(** S2: ERASE_SECTOR at 0x1000.  Write-enable, then opcode 0x20 with the
    address bytes 00 10 00, one status poll, ACK. *)
Example scenario_erase_sector :
  log (snd (BOOT_Process 1
              (fresh_world quiet_env [0xAA; 0x55; 0x03; 0x00; 0x10; 0x00; 0x00])))
  = [ UART_RX [0xAA; 0x55] true; UART_RX [0x03] true;
      UART_RX [0x00; 0x10; 0x00; 0x00] true;
      GPIO_CS false; SPI_TX [0x06] true; GPIO_CS true;
      GPIO_CS false; SPI_TX [0x20; 0x00; 0x10; 0x00] true; GPIO_CS true;
      TICK 9;
      GPIO_CS false; SPI_TX [0x05] true; SPI_RX [0x00] true; GPIO_CS true;
      TICK 14;
      UART_TX [0x79] true ].
Proof. vm_compute. reflexivity. Qed.

(** S3: WRITE of 768 bytes at 0x80 with a matching CRC.  Four page
    programs, ACK, and the counter advanced by 768. *)
Example scenario_write_unaligned :
  let w := snd (BOOT_Process 1
                  (fresh_world quiet_env (write_frame 0x80 (repeat 0x5A 768)))) in
  page_calls w = [(0x80, 128); (0x100, 256); (0x200, 256); (0x300, 128)]
  /\ uart_sent (log w) = [0x79]
  /\ total_bytes_written (hboot w) = 768.
Proof. vm_compute. repeat split; reflexivity. Qed.

(** S5: READ of 4 bytes at 0 from a flash holding DE AD BE EF.  ACK, the
    data, and its CRC-16 (0x4097) low byte first. *)
Example scenario_read :
  let w := snd (BOOT_Process 1
                  (fresh_world deadbeef_env
                     [0xAA; 0x55; 0x02; 0x04; 0x00; 0x00; 0x00; 0x00; 0x00; 0x00; 0x00])) in
  uart_sent (log w) = [0x79; 0xDE; 0xAD; 0xBE; 0xEF; 0x97; 0x40]
  /\ BOOT_CalculateCRC16 [0xDE; 0xAD; 0xBE; 0xEF] 4 = 0x4097
  /\ total_bytes_read (hboot w) = 4.
Proof. vm_compute. repeat split; reflexivity. Qed.

(** S6: an unknown command byte is answered with NACK. *)
Example scenario_unknown_command :
  log (snd (BOOT_Process 1 (fresh_world quiet_env [0xAA; 0x55; 0xFF])))
  = [ UART_RX [0xAA; 0x55] true; UART_RX [0xFF] true; UART_TX [0x1F] true ].
Proof. vm_compute. reflexivity. Qed.

(* ================================================================== *)
(** * Further properties of the code *)

(** ** Field encodings *)

Lemma byte_land (x : Z) : is_byte (Z.land x 0xFF).
Proof.
  unfold is_byte. change 0xFF with (Z.ones 8). rewrite Z.land_ones by lia.
  apply Z.mod_pos_bound. reflexivity.
Qed.

Lemma u8_byte (x : Z) : is_byte (u8 x).
Proof. unfold is_byte, u8. apply Z.mod_pos_bound. reflexivity. Qed.

Lemma u8_of_byte (x : Z) : is_byte x -> u8 x = x.
Proof. unfold is_byte, u8. intro H. apply Z.mod_small. exact H. Qed.

Lemma le16_sum (b0 b1 : Z) :
  is_byte b0 -> is_byte b1 -> le16 [b0; b1] = b0 + 256 * b1.
Proof.
  unfold is_byte, le16. cbn [nth]. intros H0 H1.
  rewrite Z.shiftl_mul_pow2 by lia.
  rewrite <- Z.lxor_lor, <- Z.add_nocarry_lxor; try lia.
  all: apply Z.bits_inj'; intros i Hi; rewrite Z.land_spec, Z.bits_0;
    rewrite Z.mul_pow2_bits by lia;
    destruct (Z.ltb_spec i 8) as [L|L];
    [ rewrite (Z.testbit_neg_r b1) by lia; apply andb_false_r
    | rewrite <- (Z.mod_small b0 (2 ^ 8)) by (change (2 ^ 8) with 256; lia);
      rewrite Z.mod_pow2_bits_high by lia; reflexivity ].
Qed.

Lemma lor_shiftl_sum (lo hi k : Z) :
  0 <= k -> 0 <= lo < 2 ^ k ->
  Z.lor lo (Z.shiftl hi k) = lo + hi * 2 ^ k.
Proof.
  intros Hk Hlo.
  rewrite Z.shiftl_mul_pow2 by lia.
  rewrite <- Z.lxor_lor, <- Z.add_nocarry_lxor; try reflexivity.
  all: apply Z.bits_inj'; intros i Hi; rewrite Z.land_spec, Z.bits_0;
    rewrite Z.mul_pow2_bits by lia;
    destruct (Z.ltb_spec i k) as [L|L];
    [ rewrite (Z.testbit_neg_r hi) by lia; apply andb_false_r
    | rewrite <- (Z.mod_small lo (2 ^ k)) by lia;
      rewrite Z.mod_pow2_bits_high by lia; reflexivity ].
Qed.

Lemma le32_sum (b0 b1 b2 b3 : Z) :
  is_byte b0 -> is_byte b1 -> is_byte b2 -> is_byte b3 ->
  le32 [b0; b1; b2; b3] = b0 + 256 * b1 + 65536 * b2 + 16777216 * b3.
Proof.
  unfold is_byte, le32. cbn [nth]. intros H0 H1 H2 H3.
  rewrite (lor_shiftl_sum b0 b1 8) by lia.
  rewrite (lor_shiftl_sum _ b2 16) by lia.
  rewrite (lor_shiftl_sum _ b3 24) by lia.
  lia.
Qed.

Lemma le32_bytes_sum (v : Z) :
  0 <= v < 4294967296 ->
  Z.land v 0xFF + 256 * Z.land (Z.shiftr v 8) 0xFF
  + 65536 * Z.land (Z.shiftr v 16) 0xFF
  + 16777216 * Z.land (Z.shiftr v 24) 0xFF = v.
Proof.
  intro H. change 0xFF with (Z.ones 8).
  rewrite !Z.land_ones, !Z.shiftr_div_pow2 by lia.
  change (2 ^ 8) with 256. change (2 ^ 16) with 65536. change (2 ^ 24) with 16777216.
  Z.div_mod_to_equations. lia.
Qed.

(** X1.  The engine's decoding of a 4-byte field is the little-endian
    value of the bytes, a number below 2^32; and it inverts the layout the
    engine itself uses for the capacity in the info block. *)
Theorem le32_decodes_little_endian (b0 b1 b2 b3 v : Z) :
  0 <= v < 4294967296 ->
  le32 (map u8 [b0; b1; b2; b3])
    = u8 b0 + 256 * u8 b1 + 65536 * u8 b2 + 16777216 * u8 b3
  /\ 0 <= le32 (map u8 [b0; b1; b2; b3]) < 4294967296
  /\ le32 (map u8 (le32_bytes v)) = v.
Proof.
  intro Hv.
  assert (E : le32 (map u8 [b0; b1; b2; b3])
              = u8 b0 + 256 * u8 b1 + 65536 * u8 b2 + 16777216 * u8 b3)
    by (cbn [map]; apply le32_sum; apply u8_byte).
  split; [exact E|]. split.
  - rewrite E.
    pose proof (u8_byte b0). pose proof (u8_byte b1).
    pose proof (u8_byte b2). pose proof (u8_byte b3).
    unfold is_byte in *. lia.
  - unfold le32_bytes. cbn [map].
    rewrite !u8_of_byte by apply byte_land.
    rewrite le32_sum by apply byte_land.
    apply le32_bytes_sum. exact Hv.
Qed.

Lemma le32_decodes_little_endian_witness :
  le32 (map u8 [0x00; 0x03; 0x00; 0x00]) = 768
  /\ le32 (map u8 (le32_bytes 16777216)) = 16777216.
Proof.
  destruct (le32_decodes_little_endian 0x00 0x03 0x00 0x00 16777216) as [A [_ B]];
    [lia|].
  split; [exact A | exact B].
Defined.

Lemma crc_shift_u16 (c : Z) : is_u16 (crc_shift c).
Proof.
  unfold crc_shift, u16, is_u16.
  destruct (Z.land c 0x8000 =? 0); apply Z.mod_pos_bound; reflexivity.
Qed.

Lemma crc_byte_u16 (c b : Z) : is_u16 (crc_byte c b).
Proof. unfold crc_byte. cbn [crc_shifts]. apply crc_shift_u16. Qed.

Lemma BOOT_CalculateCRC16_u16 (data : list Z) (n : Z) :
  is_u16 (BOOT_CalculateCRC16 data n).
Proof.
  unfold BOOT_CalculateCRC16.
  generalize (firstn (Z.to_nat n) data). intro l.
  assert (H : forall c, is_u16 c -> is_u16 (fold_left crc_byte l c)).
  { induction l as [|b l IH]; intros c Hc; [exact Hc|].
    cbn [fold_left]. apply IH, crc_byte_u16. }
  apply H. unfold is_u16. lia.
Qed.

Lemma le16_bytes_sum (v : Z) :
  0 <= v < 65536 ->
  Z.land v 0xFF + 256 * Z.land (Z.shiftr v 8) 0xFF = v.
Proof.
  intro H. change 0xFF with (Z.ones 8).
  rewrite !Z.land_ones, !Z.shiftr_div_pow2 by lia.
  change (2 ^ 8) with 256.
  Z.div_mod_to_equations. lia.
Qed.

(** X2.  Whatever the data, the CRC the code computes is a 16-bit value,
    and the two trailer bytes the READ handler makes of it are read back
    by the WRITE handler's decoder as the same CRC: data returned by READ,
    with its trailer, passes the CRC check of WRITE. *)
Theorem crc_trailer_round_trip (data : list Z) (n : Z) :
  0 <= BOOT_CalculateCRC16 data n < 65536
  /\ le16 (map u8 (le16_bytes (BOOT_CalculateCRC16 data n)))
     = BOOT_CalculateCRC16 data n.
Proof.
  pose proof (BOOT_CalculateCRC16_u16 data n) as H. unfold is_u16 in H.
  split; [exact H|].
  unfold le16_bytes. cbn [map].
  rewrite !u8_of_byte by apply byte_land.
  rewrite le16_sum by apply byte_land.
  apply le16_bytes_sum. exact H.
Qed.

(* ================================================================== *)
(** ** The 24-bit address on the SPI bus *)

Lemma addr24_cmd_addr (opcode address : Z) :
  addr24 (cmd_addr opcode address) = address mod 16777216.
Proof.
  unfold addr24, cmd_addr. cbn [nth].
  change 0xFF with (Z.ones 8).
  rewrite !Z.land_ones, !Z.shiftr_div_pow2 by lia.
  change (2 ^ 8) with 256. change (2 ^ 16) with 65536.
  Z.div_mod_to_equations. lia.
Qed.

Lemma cmd_addr_alias (opcode address k : Z) :
  cmd_addr opcode (address + k * 16777216) = cmd_addr opcode address.
Proof.
  unfold cmd_addr. change 0xFF with (Z.ones 8).
  rewrite !Z.land_ones, !Z.shiftr_div_pow2 by lia.
  change (2 ^ 8) with 256. change (2 ^ 16) with 65536.
  assert (E16 : (address + k * 16777216) / 65536 mod 256 = address / 65536 mod 256).
  { replace (address + k * 16777216) with (address + k * 256 * 65536) by lia.
    rewrite Z.div_add by lia. apply Z.mod_add. lia. }
  assert (E8 : (address + k * 16777216) / 256 mod 256 = address / 256 mod 256).
  { replace (address + k * 16777216) with (address + k * 65536 * 256) by lia.
    rewrite Z.div_add by lia.
    replace (k * 65536) with (k * 256 * 256) by lia. apply Z.mod_add. lia. }
  assert (E0 : (address + k * 16777216) mod 256 = address mod 256).
  { replace (address + k * 16777216) with (address + k * 65536 * 256) by lia.
    apply Z.mod_add. lia. }
  rewrite E16, E8, E0. reflexivity.
Qed.

(** X3.  The command header the driver sends is the opcode followed by
    three bytes that are the address modulo 2^24, most significant byte
    first; the driver does not check the address range, so reads and
    erases at addresses that differ by a multiple of 16 MiB are the same
    operation on the bus. *)
Theorem address_is_sent_modulo_16MiB (fuel : nat) (opcode address k length : Z) :
  Forall is_byte (tl (cmd_addr opcode address))
  /\ addr24 (cmd_addr opcode address) = address mod 16777216
  /\ W25Q128_Read (address + k * 16777216) length = W25Q128_Read address length
  /\ W25Q128_EraseSector fuel (address + k * 16777216) = W25Q128_EraseSector fuel address
  /\ W25Q128_EraseBlock64KB fuel (address + k * 16777216)
     = W25Q128_EraseBlock64KB fuel address.
Proof.
  split; [repeat constructor; apply byte_land|].
  split; [apply addr24_cmd_addr|].
  unfold W25Q128_Read, W25Q128_EraseSector, W25Q128_EraseBlock64KB.
  rewrite !cmd_addr_alias. repeat split.
Qed.

(* ================================================================== *)
(** ** What the CRC detects *)

Lemma all_from_spec (P : Z -> bool) (k : nat) :
  forall z, all_from k z P = true ->
            forall x, z <= x < z + Z.of_nat k -> P x = true.
Proof.
  induction k as [|k IH]; intros z H x Hx; [lia|].
  cbn [all_from] in H. apply andb_true_iff in H. destruct H as [H0 H1].
  destruct (Z.eq_dec x z) as [->|Hne]; [exact H0|].
  apply (IH (z + 1) H1). lia.
Qed.

Lemma crc_unshift_shift_all :
  all_from (Z.to_nat 65536) 0 (fun c => crc_unshift (crc_shift c) =? c) = true.
Proof. vm_compute. reflexivity. Qed.

Lemma crc_unshift_shift (c : Z) : is_u16 c -> crc_unshift (crc_shift c) = c.
Proof.
  intro H. apply Z.eqb_eq.
  apply (all_from_spec _ (Z.to_nat 65536) 0 crc_unshift_shift_all).
  unfold is_u16 in H. lia.
Qed.

Lemma crc_shifts_u16 (n : nat) (c : Z) : is_u16 c -> is_u16 (crc_shifts n c).
Proof.
  revert c. induction n as [|n IH]; intros c H; [exact H|].
  cbn [crc_shifts]. apply IH, crc_shift_u16.
Qed.

Lemma crc_shifts_inj (n : nat) :
  forall a b, is_u16 a -> is_u16 b -> crc_shifts n a = crc_shifts n b -> a = b.
Proof.
  induction n as [|n IH]; intros a b Ha Hb E; [exact E|].
  cbn [crc_shifts] in E.
  apply IH in E; try apply crc_shift_u16.
  rewrite <- (crc_unshift_shift a Ha), <- (crc_unshift_shift b Hb), E. reflexivity.
Qed.

Lemma lxor_cancel_r (a b x : Z) : Z.lxor a x = Z.lxor b x -> a = b.
Proof.
  intro E. apply (f_equal (fun z => Z.lxor z x)) in E.
  rewrite !Z.lxor_assoc, !Z.lxor_nilpotent, !Z.lxor_0_r in E. exact E.
Qed.

Lemma lxor_cancel_l (a x y : Z) : Z.lxor a x = Z.lxor a y -> x = y.
Proof.
  intro E. rewrite (Z.lxor_comm a x), (Z.lxor_comm a y) in E.
  exact (lxor_cancel_r _ _ _ E).
Qed.

(** The XOR of the next byte into the accumulator, as [crc_byte] does it. *)
Lemma crc_xor_in (c b : Z) :
  is_u16 c ->
  u16 (Z.lxor c (Z.shiftl (u16 b) 8)) = Z.lxor c (u16 (Z.shiftl (u16 b) 8)).
Proof.
  unfold is_u16, u16. intro Hc. change 65536 with (2 ^ 16).
  apply Z.bits_inj'. intros i Hi.
  rewrite Z.lxor_spec, !Z.testbit_mod_pow2, Z.lxor_spec by lia.
  destruct (Z.ltb_spec i 16) as [L|L]; cbn [andb]; [reflexivity|].
  rewrite <- (Z.mod_small c (2 ^ 16)) by lia.
  rewrite Z.mod_pow2_bits_high by lia. reflexivity.
Qed.

Lemma crc_byte_inj_acc (b : Z) (c c' : Z) :
  is_u16 c -> is_u16 c' -> crc_byte c b = crc_byte c' b -> c = c'.
Proof.
  intros Hc Hc' E. unfold crc_byte in E.
  apply crc_shifts_inj in E;
    try (unfold is_u16, u16; apply Z.mod_pos_bound; reflexivity).
  rewrite !crc_xor_in in E by assumption.
  exact (lxor_cancel_r _ _ _ E).
Qed.

Lemma crc_byte_inj_byte (c x y : Z) :
  is_u16 c -> is_byte x -> is_byte y -> crc_byte c x = crc_byte c y -> x = y.
Proof.
  intros Hc Hx Hy E. unfold crc_byte in E.
  apply crc_shifts_inj in E;
    try (unfold is_u16, u16; apply Z.mod_pos_bound; reflexivity).
  rewrite !crc_xor_in in E by assumption.
  apply lxor_cancel_l in E.
  unfold is_byte in *. unfold u16 in E.
  rewrite !Z.shiftl_mul_pow2 in E by lia.
  rewrite (Z.mod_small x), (Z.mod_small y) in E by lia.
  rewrite !Z.mod_small in E by lia. lia.
Qed.

Lemma fold_crc_byte_u16 (s : list Z) :
  forall c, is_u16 c -> is_u16 (fold_left crc_byte s c).
Proof.
  induction s as [|b s IH]; intros c Hc; [exact Hc|].
  cbn [fold_left]. apply IH, crc_byte_u16.
Qed.

Lemma fold_crc_byte_inj (s : list Z) :
  forall c c', is_u16 c -> is_u16 c' ->
               fold_left crc_byte s c = fold_left crc_byte s c' -> c = c'.
Proof.
  induction s as [|b s IH]; intros c c' Hc Hc' E; [exact E|].
  cbn [fold_left] in E.
  apply IH in E; try apply crc_byte_u16.
  exact (crc_byte_inj_acc b c c' Hc Hc' E).
Qed.

(** X4.  Two messages of the same length that differ in exactly one byte
    never have the same CRC: a payload with one corrupted byte cannot pass
    the CRC comparison of WRITE. *)
Theorem crc_detects_one_wrong_byte (p s : list Z) (x y : Z) :
  is_byte x -> is_byte y -> x <> y ->
  BOOT_CalculateCRC16 (p ++ x :: s) (Z.of_nat (length (p ++ x :: s)))
  <> BOOT_CalculateCRC16 (p ++ y :: s) (Z.of_nat (length (p ++ y :: s))).
Proof.
  intros Hx Hy Hne E. unfold BOOT_CalculateCRC16 in E.
  rewrite !Nat2Z.id, !firstn_all, !fold_left_app in E. cbn [fold_left] in E.
  assert (Hc : is_u16 (fold_left crc_byte p 0xFFFF))
    by (apply fold_crc_byte_u16; unfold is_u16; lia).
  apply fold_crc_byte_inj in E; try apply crc_byte_u16.
  apply Hne. exact (crc_byte_inj_byte _ x y Hc Hx Hy E).
Qed.

Lemma crc_detects_one_wrong_byte_witness :
  BOOT_CalculateCRC16 [0xDE; 0xAD; 0xBE; 0xEF] 4
  <> BOOT_CalculateCRC16 [0xDE; 0xAD; 0xBF; 0xEF] 4.
Proof.
  apply (crc_detects_one_wrong_byte [0xDE; 0xAD] [0xEF] 0xBE 0xBF);
    unfold is_byte; lia.
Defined.

(* ================================================================== *)
(** ** The driver seen from outside *)

Lemma ks_ret {A : Type} (a : A) : keeps_session (ret a).
Proof. intro w. reflexivity. Qed.

Lemma ks_spin {A : Type} : keeps_session (@spin A).
Proof. intro w. reflexivity. Qed.

Lemma ks_bind {A B : Type} (m : M A) (k : A -> M B) :
  keeps_session m -> (forall a, keeps_session (k a)) -> keeps_session (bind m k).
Proof.
  intros Hm Hk w. unfold bind. specialize (Hm w).
  destruct (m w) as [[a|] w1]; cbn [snd] in *; [|exact Hm].
  rewrite Hk. exact Hm.
Qed.

Lemma ks_gpio (level : bool) : keeps_session (HAL_GPIO_WritePin level).
Proof. intro w. reflexivity. Qed.

Lemma ks_spi_tx (d : list Z) : keeps_session (HAL_SPI_Transmit d).
Proof. intro w. reflexivity. Qed.

Lemma ks_spi_rx (n : Z) : keeps_session (HAL_SPI_Receive n).
Proof. intro w. unfold HAL_SPI_Receive. destruct (spi_ok _ _); reflexivity. Qed.

Lemma ks_tick : keeps_session HAL_GetTick.
Proof. intro w. reflexivity. Qed.

Lemma ks_delay (ms : Z) : keeps_session (HAL_Delay ms).
Proof. intro w. reflexivity. Qed.

Lemma ks_note (c : Z * Z) :
  keeps_session (fun w => (Some tt, note_page_call c w)).
Proof. intro w. reflexivity. Qed.

(** Takes a computation apart along its binds, conditionals and matches. *)
Ltac ks_go :=
  repeat first
    [ apply ks_ret | apply ks_spin | apply ks_gpio | apply ks_spi_tx
    | apply ks_spi_rx | apply ks_tick | apply ks_delay | apply ks_note
    | assumption
    | apply ks_bind; [ | intro ]
    | match goal with
      | |- keeps_session (if ?b then _ else _) => destruct b
      | |- keeps_session (match ?x with _ => _ end) => destruct x
      end ].

Lemma ks_ReadID : keeps_session W25Q128_ReadID.
Proof. unfold W25Q128_ReadID, CS_LOW, CS_HIGH. ks_go. Qed.

Lemma ks_ReadJEDECID : keeps_session W25Q128_ReadJEDECID.
Proof. unfold W25Q128_ReadJEDECID, CS_LOW, CS_HIGH. ks_go. Qed.

Lemma ks_ReadStatusRegister : keeps_session W25Q128_ReadStatusRegister.
Proof. unfold W25Q128_ReadStatusRegister, CS_LOW, CS_HIGH. ks_go. Qed.

Lemma ks_WriteEnable : keeps_session W25Q128_WriteEnable.
Proof. unfold W25Q128_WriteEnable, CS_LOW, CS_HIGH. ks_go. Qed.

Lemma ks_WriteDisable : keeps_session W25Q128_WriteDisable.
Proof. unfold W25Q128_WriteDisable, CS_LOW, CS_HIGH. ks_go. Qed.

Lemma ks_Read (address length : Z) : keeps_session (W25Q128_Read address length).
Proof. unfold W25Q128_Read, CS_LOW, CS_HIGH. ks_go. Qed.

Lemma ks_PowerDown : keeps_session W25Q128_PowerDown.
Proof. unfold W25Q128_PowerDown, CS_LOW, CS_HIGH. ks_go. Qed.

Lemma ks_WakeUp : keeps_session W25Q128_WakeUp.
Proof. unfold W25Q128_WakeUp, CS_LOW, CS_HIGH. ks_go. Qed.

Lemma ks_WaitForWriteEnd_loop (fuel : nat) :
  forall timeout status,
    keeps_session (W25Q128_WaitForWriteEnd_loop fuel timeout status).
Proof.
  induction fuel as [|fuel IH]; intros timeout status;
    cbn [W25Q128_WaitForWriteEnd_loop]; [apply ks_spin|].
  apply ks_bind; [apply ks_ReadStatusRegister|]. intros [st out]. cbn [fst snd].
  pose proof (IH timeout) as IH'. ks_go; apply IH.
Qed.

Lemma ks_WaitForWriteEnd (fuel : nat) : keeps_session (W25Q128_WaitForWriteEnd fuel).
Proof.
  unfold W25Q128_WaitForWriteEnd. apply ks_bind; [apply ks_tick|].
  intro. apply ks_WaitForWriteEnd_loop.
Qed.

Lemma ks_WritePage (fuel : nat) (address : Z) (buffer : list Z) (length : Z) :
  keeps_session (W25Q128_WritePage fuel address buffer length).
Proof.
  pose proof ks_WriteEnable. pose proof (ks_WaitForWriteEnd fuel).
  unfold W25Q128_WritePage, CS_LOW, CS_HIGH. ks_go.
Qed.

Lemma ks_Write_loop (n : nat) :
  forall fuel addr buf remaining,
    keeps_session (W25Q128_Write_loop n fuel addr buf remaining).
Proof.
  induction n as [|n IH]; intros fuel addr buf remaining; cbn [W25Q128_Write_loop];
    destruct (remaining >? 0); try apply ks_ret; try apply ks_spin.
  cbv zeta. apply ks_bind; [apply ks_WritePage|]. intro st.
  destruct (negb (is_OK st)); [apply ks_ret | apply IH].
Qed.

Lemma ks_EraseSector (fuel : nat) (a : Z) : keeps_session (W25Q128_EraseSector fuel a).
Proof.
  pose proof ks_WriteEnable. pose proof (ks_WaitForWriteEnd fuel).
  unfold W25Q128_EraseSector, CS_LOW, CS_HIGH. ks_go.
Qed.

Lemma ks_EraseBlock64KB (fuel : nat) (a : Z) :
  keeps_session (W25Q128_EraseBlock64KB fuel a).
Proof.
  pose proof ks_WriteEnable. pose proof (ks_WaitForWriteEnd fuel).
  unfold W25Q128_EraseBlock64KB, CS_LOW, CS_HIGH. ks_go.
Qed.

Lemma ks_EraseChip (fuel : nat) : keeps_session (W25Q128_EraseChip fuel).
Proof.
  pose proof ks_WriteEnable. pose proof (ks_WaitForWriteEnd fuel).
  unfold W25Q128_EraseChip, CS_LOW, CS_HIGH. ks_go.
Qed.

Lemma ks_run_op (fuel : nat) (op : DriverOp) (w : World) :
  session (run_op fuel op w) = session w.
Proof.
  destruct op; cbn [run_op]; unfold exec.
  - apply ks_ReadID.
  - apply ks_ReadJEDECID.
  - apply ks_ReadStatusRegister.
  - apply ks_WaitForWriteEnd.
  - apply ks_WriteEnable.
  - apply ks_WriteDisable.
  - apply ks_Read.
  - apply ks_WritePage.
  - apply ks_Write_loop.
  - apply ks_EraseSector.
  - apply ks_EraseBlock64KB.
  - apply ks_EraseChip.
  - apply ks_PowerDown.
  - apply ks_WakeUp.
Qed.

Lemma nu_run_not_uart (evs : list Event) :
  forall s s', run nu_step s evs = Some s' -> Forall not_uart evs.
Proof.
  induction evs as [|ev evs IH]; intros s s' H; [constructor|].
  cbn [run] in H. destruct (nu_step s ev) as [s1|] eqn:E; [|discriminate H].
  constructor; [|exact (IH _ _ H)].
  destruct ev; cbn in E; try discriminate E; exact I.
Qed.

Lemma nu_ReadID : triple nu_step tt W25Q128_ReadID (codes_fst ok_or_error).
Proof. unfold W25Q128_ReadID, CS_LOW, CS_HIGH. repeat hal_step. Qed.

Lemma nu_ReadJEDECID : triple nu_step tt W25Q128_ReadJEDECID (codes_fst ok_or_error).
Proof. unfold W25Q128_ReadJEDECID, CS_LOW, CS_HIGH. repeat hal_step. Qed.

Lemma nu_ReadStatusRegister :
  triple nu_step tt W25Q128_ReadStatusRegister (codes_fst ok_or_error).
Proof. unfold W25Q128_ReadStatusRegister, CS_LOW, CS_HIGH. repeat hal_step. Qed.

Lemma nu_Read (address length : Z) :
  triple nu_step tt (W25Q128_Read address length) (codes_fst ok_or_error).
Proof. unfold W25Q128_Read, CS_LOW, CS_HIGH. repeat hal_step. Qed.

Lemma nu_WriteEnable : triple nu_step tt W25Q128_WriteEnable (codes ok_or_error false).
Proof. unfold W25Q128_WriteEnable, CS_LOW, CS_HIGH. repeat hal_step. Qed.

Lemma nu_WriteDisable : triple nu_step tt W25Q128_WriteDisable (codes ok_or_error false).
Proof. unfold W25Q128_WriteDisable, CS_LOW, CS_HIGH. repeat hal_step. Qed.

Lemma nu_PowerDown : triple nu_step tt W25Q128_PowerDown (codes ok_or_error false).
Proof. unfold W25Q128_PowerDown, CS_LOW, CS_HIGH. repeat hal_step. Qed.

Lemma nu_WakeUp : triple nu_step tt W25Q128_WakeUp (codes ok_or_error false).
Proof. unfold W25Q128_WakeUp, CS_LOW, CS_HIGH. repeat hal_step. Qed.

Lemma nu_WaitForWriteEnd_loop (fuel : nat) :
  forall timeout status,
    triple nu_step tt (W25Q128_WaitForWriteEnd_loop fuel timeout status)
      (codes not_busy true).
Proof.
  induction fuel as [|fuel IH]; intros timeout status.
  - apply triple_spin. reflexivity.
  - cbn [W25Q128_WaitForWriteEnd_loop].
    eapply triple_bind; [apply nu_ReadStatusRegister | | ].
    + intros [st out] [] _. cbn [fst snd].
      destruct (is_OK st); cbn [negb]; [|hal_step].
      hal_step.
      destruct (_ >? timeout); [hal_step|].
      destruct (negb _); [apply IH | hal_step].
    + intros [] H. destruct H.
Qed.

Lemma nu_WaitForWriteEnd (fuel : nat) :
  triple nu_step tt (W25Q128_WaitForWriteEnd fuel) (codes not_busy true).
Proof.
  unfold W25Q128_WaitForWriteEnd. hal_step. apply nu_WaitForWriteEnd_loop.
Qed.

(** After a write-enable: go on when it returned [W25Q128_OK]. *)
Ltac nu_after_enable :=
  eapply triple_bind;
  [ apply nu_WriteEnable
  | let st := fresh "we" in intros st [] _; destruct (is_OK st); cbn [negb]
  | intros [] H; discriminate H ].

Lemma nu_WritePage (fuel : nat) (address : Z) (buffer : list Z) (length : Z) :
  triple nu_step tt (W25Q128_WritePage fuel address buffer length)
    (codes not_busy true).
Proof.
  unfold W25Q128_WritePage.
  eapply triple_bind;
    [ apply (triple_silent nu_step _ _ tt (fun r s => r = Some tt));
      [reflexivity | auto]
    | cbv beta; intros [] [] _
    | cbv beta; intros ? H; discriminate H ].
  destruct (length >? W25Q128_PAGE_SIZE); [hal_step|].
  nu_after_enable; [|hal_step].
  unfold CS_LOW, CS_HIGH. repeat hal_step.
  apply nu_WaitForWriteEnd.
Qed.

Lemma nu_Write_loop (n : nat) :
  forall fuel addr buf remaining,
    triple nu_step tt (W25Q128_Write_loop n fuel addr buf remaining)
      (codes ok_or_error true).
Proof.
  induction n as [|n IH]; intros fuel addr buf remaining; cbn [W25Q128_Write_loop];
    destruct (remaining >? 0);
    try (apply triple_ret; reflexivity); try (apply triple_spin; reflexivity).
  cbv zeta.
  eapply triple_bind; [apply nu_WritePage | | ].
  - intros st [] _. destruct (is_OK st); cbn [negb]; [apply IH | hal_step].
  - intros [] _. reflexivity.
Qed.

Lemma nu_EraseSector (fuel : nat) (a : Z) :
  triple nu_step tt (W25Q128_EraseSector fuel a) (codes not_busy true).
Proof.
  unfold W25Q128_EraseSector. nu_after_enable; [|hal_step].
  unfold CS_LOW, CS_HIGH. repeat hal_step. apply nu_WaitForWriteEnd.
Qed.

Lemma nu_EraseBlock64KB (fuel : nat) (a : Z) :
  triple nu_step tt (W25Q128_EraseBlock64KB fuel a) (codes not_busy true).
Proof.
  unfold W25Q128_EraseBlock64KB. nu_after_enable; [|hal_step].
  unfold CS_LOW, CS_HIGH. repeat hal_step. apply nu_WaitForWriteEnd.
Qed.

Lemma nu_EraseChip (fuel : nat) :
  triple nu_step tt (W25Q128_EraseChip fuel) (codes not_busy true).
Proof.
  unfold W25Q128_EraseChip. nu_after_enable; [|hal_step].
  unfold CS_LOW, CS_HIGH. repeat hal_step. apply nu_WaitForWriteEnd.
Qed.

Lemma nu_triple_log {A : Type} (m : M A) (Q : option A -> unit -> Prop) (w : World) :
  triple nu_step tt m Q ->
  exists evs, log (exec m w) = log w ++ evs /\ Forall not_uart evs.
Proof.
  intro T. destruct (T w) as [evs [L [s' [R _]]]].
  exists evs. split; [exact L | exact (nu_run_not_uart evs _ _ R)].
Qed.

Lemma nu_triple_result {A : Type} (m : M A) (Q : option A -> unit -> Prop) (w : World) :
  triple nu_step tt m Q -> Q (fst (m w)) tt.
Proof.
  intro T. destruct (T w) as [evs [_ [[] [_ H]]]]. exact H.
Qed.

(** X5.  The driver keeps to its side: whatever operation is run, from
    any state and under any behaviour of the transports, the serial line,
    the session record and the environment are as before, and the HAL
    calls it has made are chip-select, SPI, tick and delay calls only,
    never a serial transfer. *)
Theorem driver_never_touches_the_serial_side (fuel : nat) (op : DriverOp) (w : World) :
  env (run_op fuel op w) = env w
  /\ uart_in (run_op fuel op w) = uart_in w
  /\ hboot (run_op fuel op w) = hboot w
  /\ exists evs,
       log (run_op fuel op w) = log w ++ evs
       /\ Forall not_uart evs.
Proof.
  pose proof (ks_run_op fuel op w) as K. unfold session in K.
  inversion K as [[K1 K2 K3]]. rewrite K1, K2, K3.
  repeat (split; [reflexivity|]).
  destruct op; cbn [run_op].
  - exact (nu_triple_log _ _ w nu_ReadID).
  - exact (nu_triple_log _ _ w nu_ReadJEDECID).
  - exact (nu_triple_log _ _ w nu_ReadStatusRegister).
  - exact (nu_triple_log _ _ w (nu_WaitForWriteEnd fuel)).
  - exact (nu_triple_log _ _ w nu_WriteEnable).
  - exact (nu_triple_log _ _ w nu_WriteDisable).
  - exact (nu_triple_log _ _ w (nu_Read address length)).
  - exact (nu_triple_log _ _ w (nu_WritePage fuel address buffer length)).
  - exact (nu_triple_log _ _ w (nu_Write_loop _ fuel address buffer length)).
  - exact (nu_triple_log _ _ w (nu_EraseSector fuel sector_address)).
  - exact (nu_triple_log _ _ w (nu_EraseBlock64KB fuel block_address)).
  - exact (nu_triple_log _ _ w (nu_EraseChip fuel)).
  - exact (nu_triple_log _ _ w nu_PowerDown).
  - exact (nu_triple_log _ _ w nu_WakeUp).
Qed.

Lemma codes_fst_status {B : Type} (allowed : W25Q128_Status_t -> bool)
  (r : option (W25Q128_Status_t * B)) :
  codes_fst allowed r tt ->
  exists st, option_map fst r = Some st /\ allowed st = true.
Proof.
  destruct r as [[st b]|]; cbn; [|contradiction].
  intro H. exists st. auto.
Qed.

(** X6.  The statuses of the driver.  No operation ever returns
    [W25Q128_BUSY].  [W25Q128_TIMEOUT] comes only from the busy wait, the
    page program and the three erases; [W25Q128_Write] reports every
    failure of a page, a time-out included, as [W25Q128_ERROR].  The
    operations that do not wait for the flash always return. *)
Theorem driver_status_codes (fuel : nat) (op : DriverOp) (w : World) :
  match run_status fuel op w with
  | Some W25Q128_OK | Some W25Q128_ERROR => True
  | Some W25Q128_TIMEOUT => reports_timeout op = true
  | Some W25Q128_BUSY => False
  | None => polls op = true
  end.
Proof.
  assert (S2 : forall r, codes ok_or_error false r tt ->
                         match r with
                         | Some W25Q128_OK | Some W25Q128_ERROR => True
                         | _ => False
                         end).
  { intros [[| | |]|]; cbn; intro H; try exact I; discriminate H. }
  assert (S3 : forall B (r : option (W25Q128_Status_t * B)),
             codes_fst ok_or_error r tt ->
             match option_map fst r with
             | Some W25Q128_OK | Some W25Q128_ERROR => True
             | _ => False
             end).
  { intros B [[[| | |] b]|]; cbn; intro H; try exact I; try discriminate H; exact H. }
  assert (S4 : forall r, codes not_busy true r tt ->
                         match r with
                         | Some W25Q128_BUSY => False
                         | _ => True
                         end).
  { intros [[| | |]|]; cbn; intro H; try exact I; discriminate H. }
  destruct op; cbn [run_status reports_timeout polls].
  - pose proof (S3 _ _ (nu_triple_result _ _ w nu_ReadID)) as H.
    destruct (option_map fst _) as [[| | |]|]; tauto.
  - pose proof (S3 _ _ (nu_triple_result _ _ w nu_ReadJEDECID)) as H.
    destruct (option_map fst _) as [[| | |]|]; tauto.
  - pose proof (S3 _ _ (nu_triple_result _ _ w nu_ReadStatusRegister)) as H.
    destruct (option_map fst _) as [[| | |]|]; tauto.
  - pose proof (S4 _ (nu_triple_result _ _ w (nu_WaitForWriteEnd fuel))) as H.
    destruct (fst _) as [[| | |]|]; tauto.
  - pose proof (S2 _ (nu_triple_result _ _ w nu_WriteEnable)) as H.
    destruct (fst _) as [[| | |]|]; tauto.
  - pose proof (S2 _ (nu_triple_result _ _ w nu_WriteDisable)) as H.
    destruct (fst _) as [[| | |]|]; tauto.
  - pose proof (S3 _ _ (nu_triple_result _ _ w (nu_Read address length))) as H.
    destruct (option_map fst _) as [[| | |]|]; tauto.
  - pose proof (S4 _ (nu_triple_result _ _ w
                        (nu_WritePage fuel address buffer length))) as H.
    destruct (fst _) as [[| | |]|]; tauto.
  - pose proof (nu_triple_result _ _ w
                  (nu_Write_loop (Z.to_nat length) fuel address buffer length)) as H.
    unfold W25Q128_Write.
    destruct (fst _) as [[| | |]|]; cbn in H; try exact I; try discriminate H;
      reflexivity.
  - pose proof (S4 _ (nu_triple_result _ _ w (nu_EraseSector fuel sector_address))) as H.
    destruct (fst _) as [[| | |]|]; tauto.
  - pose proof (S4 _ (nu_triple_result _ _ w (nu_EraseBlock64KB fuel block_address))) as H.
    destruct (fst _) as [[| | |]|]; tauto.
  - pose proof (S4 _ (nu_triple_result _ _ w (nu_EraseChip fuel))) as H.
    destruct (fst _) as [[| | |]|]; tauto.
  - pose proof (S2 _ (nu_triple_result _ _ w nu_PowerDown)) as H.
    destruct (fst _) as [[| | |]|]; tauto.
  - pose proof (S2 _ (nu_triple_result _ _ w nu_WakeUp)) as H.
    destruct (fst _) as [[| | |]|]; tauto.
Qed.

(** A page program that times out, and the write that contains it: the
    flash stays busy, the first deadline check is past the deadline. *)
Example write_reports_timeout_as_error :
  fst (W25Q128_WritePage 1 0 [0xA5] 1 (fresh_world stuck_busy_env []))
    = Some W25Q128_TIMEOUT
  /\ fst (W25Q128_Write 1 0 [0xA5] 1 (fresh_world stuck_busy_env []))
     = Some W25Q128_ERROR.
Proof. vm_compute. split; reflexivity. Qed.

(* ================================================================== *)
(** ** What a write puts on the bus *)

Lemma image_app (d1 d2 : list Z) :
  forall a, image a (d1 ++ d2) = image a d1 ++ image (a + Z.of_nat (length d1)) d2.
Proof.
  induction d1 as [|b d1 IH]; intro a.
  - cbn [app image length]. rewrite Z.add_0_r. reflexivity.
  - cbn [app image length]. rewrite IH. do 3 f_equal. lia.
Qed.

Lemma image_mod (d : list Z) :
  forall a b, a mod 16777216 = b mod 16777216 -> image a d = image b d.
Proof.
  induction d as [|x d IH]; intros a b H; [reflexivity|].
  cbn [image]. rewrite H. f_equal. apply IH.
  rewrite (Z.add_mod a 1), (Z.add_mod b 1), H by lia. reflexivity.
Qed.

Lemma image_u32 (d : list Z) (a : Z) : image (u32 a) d = image a d.
Proof.
  apply image_mod. unfold u32.
  change 4294967296 with (16777216 * 256).
  rewrite Z.rem_mul_r by lia.
  rewrite Z.add_mod, Z.mul_comm, Z.mod_mul, Z.add_0_r, !Z.mod_mod by lia.
  reflexivity.
Qed.

Lemma placed_image (d : list Z) :
  forall a,
    0 <= a < 16777216 ->
    a mod 256 + Z.of_nat (length d) <= 256 ->
    placed a d = image a d.
Proof.
  induction d as [|x d IH]; intros a Ha Hp; [reflexivity|].
  cbn [placed image length] in *.
  rewrite (Z.mod_small a) by lia.
  destruct d as [|y d]; [reflexivity|].
  f_equal. cbn [length] in Hp.
  assert (a mod 256 + 1 < 256) by lia.
  assert (Hm : (a + 1) mod 256 = a mod 256 + 1).
  { pose proof (Z.mod_pos_bound a 256 eq_refl).
    rewrite Z.add_mod by lia. rewrite (Z.mod_small 1) by lia.
    apply Z.mod_small. lia. }
  apply IH.
  - pose proof (Z.div_mod a 256 ltac:(lia)).
    pose proof (Z.mod_pos_bound a 256 eq_refl).
    assert (a / 256 < 65536) by (apply Z.div_lt_upper_bound; lia).
    lia.
  - rewrite Hm. cbn [length]. lia.
Qed.

Lemma wb_then {A B : Type} (acc : list (Z * Z)) (m : M A) (k : A -> M B)
  (R : option B -> PgState * list (Z * Z) -> Prop) :
  triple wb_step (PgIdle, acc) m (wb_at acc) ->
  (forall a, triple wb_step (PgIdle, acc) (k a) R) ->
  R None (PgIdle, acc) ->
  triple wb_step (PgIdle, acc) (bind m k) R.
Proof.
  intros Hm Hk Hn. eapply triple_bind; [exact Hm | | ].
  - unfold wb_at. intros a s1 ->. apply Hk.
  - unfold wb_at. intros s1 ->. exact Hn.
Qed.

Lemma wb_ReadStatusRegister (acc : list (Z * Z)) :
  triple wb_step (PgIdle, acc) W25Q128_ReadStatusRegister (wb_at acc).
Proof. unfold W25Q128_ReadStatusRegister, CS_LOW, CS_HIGH. repeat hal_step. Qed.

Lemma wb_WriteEnable (acc : list (Z * Z)) :
  triple wb_step (PgIdle, acc) W25Q128_WriteEnable (wb_at acc).
Proof. unfold W25Q128_WriteEnable, CS_LOW, CS_HIGH. repeat hal_step. Qed.

Lemma wb_WaitForWriteEnd_loop (acc : list (Z * Z)) (fuel : nat) :
  forall timeout status,
    triple wb_step (PgIdle, acc) (W25Q128_WaitForWriteEnd_loop fuel timeout status)
      (wb_at acc).
Proof.
  induction fuel as [|fuel IH]; intros timeout status.
  - apply triple_spin. reflexivity.
  - cbn [W25Q128_WaitForWriteEnd_loop].
    apply wb_then; [apply wb_ReadStatusRegister| |reflexivity].
    intros [st out]. cbn [fst snd].
    destruct (is_OK st); cbn [negb]; [|hal_step].
    hal_step.
    destruct (_ >? timeout); [hal_step|].
    destruct (negb _); [apply IH | hal_step].
Qed.

Lemma wb_WaitForWriteEnd (acc : list (Z * Z)) (fuel : nat) :
  triple wb_step (PgIdle, acc) (W25Q128_WaitForWriteEnd fuel) (wb_at acc).
Proof.
  unfold W25Q128_WaitForWriteEnd. hal_step. apply wb_WaitForWriteEnd_loop.
Qed.

Lemma wb_page_none (acc : list (Z * Z)) (address : Z) (data : list Z)
  (r : option W25Q128_Status_t) :
  r <> Some W25Q128_OK -> wb_page acc address data r (PgIdle, acc).
Proof. intro H. exists false. split; [reflexivity | intro E; contradiction]. Qed.

Lemma wb_page_done (acc : list (Z * Z)) (address : Z) (data : list Z)
  (r : option W25Q128_Status_t) :
  wb_page acc address data r (PgIdle, acc ++ image address data).
Proof. exists true. split; [reflexivity | auto]. Qed.

Lemma wb_WritePage (acc : list (Z * Z)) (fuel : nat) (address : Z) (buffer : list Z)
  (length : Z) :
  0 <= length ->
  address mod 256 + length <= 256 ->
  triple wb_step (PgIdle, acc) (W25Q128_WritePage fuel address buffer length)
    (wb_page acc address (firstn (Z.to_nat length) buffer)).
Proof.
  intros Hlen Hpage. unfold W25Q128_WritePage.
  eapply triple_bind;
    [ apply (triple_silent wb_step _ _ tt (fun r s => r = Some tt /\ s = (PgIdle, acc)));
      [reflexivity | auto]
    | cbv beta; intros [] ? [_ ->]
    | cbv beta; intros ? [H _]; discriminate H ].
  destruct (length >? W25Q128_PAGE_SIZE).
  { apply triple_ret. apply wb_page_none. discriminate. }
  apply wb_then; [apply wb_WriteEnable| |apply wb_page_none; discriminate]. intro we.
  destruct (is_OK we); cbn [negb].
  2:{ apply triple_ret. apply wb_page_none. discriminate. }
  unfold CS_LOW, CS_HIGH. hal_step.
  set (data := firstn (Z.to_nat length) buffer).
  assert (Hfit : forall ok,
             wb_step (PgData (addr24 (cmd_addr W25Q128_CMD_PAGE_PROGRAM address)), acc)
               (SPI_TX data ok)
             = Some (PgOther, acc ++ image address data)).
  { intro ok. cbn [wb_step fst snd]. rewrite addr24_cmd_addr.
    rewrite placed_image.
    - rewrite (image_mod data (address mod 16777216) address); [reflexivity|].
      apply Z.mod_mod. lia.
    - apply Z.mod_pos_bound. lia.
    - rewrite Z.mod_mod_divide by (exists 65536; reflexivity).
      subst data. pose proof (firstn_le_length (Z.to_nat length) buffer). lia. }
  eapply triple_bind;
    [ apply sp_spi_tx; intro; cbn; discriminate
    | cbv beta; intros ? ? [ok1 [Hr1 Es1]]; inversion Hr1; subst; cbn in Es1;
      inversion Es1; subst; destruct ok1; cbn [negb]
    | cbv beta; intros ? [? [H _]]; discriminate H ].
  2:{ eapply triple_bind;
        [ apply sp_gpio; reflexivity
        | cbv beta; intros [] ? [_ ->]
        | cbv beta; intros ? [H _]; discriminate H ].
      apply triple_ret. apply wb_page_none. discriminate. }
  eapply triple_bind;
    [ apply sp_spi_tx; intro ok; rewrite Hfit; discriminate
    | cbv beta; intros ? ? [ok2 [Hr2 Es2]]; inversion Hr2; subst; rewrite Hfit in Es2;
      inversion Es2; subst; destruct ok2; cbn [negb]
    | cbv beta; intros ? [? [H _]]; discriminate H ].
  - eapply triple_bind;
      [ apply sp_gpio; reflexivity
      | cbv beta; intros [] ? [_ ->]
      | cbv beta; intros ? [H _]; discriminate H ].
    eapply triple_weaken; [apply wb_WaitForWriteEnd|].
    unfold wb_at. intros r s' ->. apply wb_page_done.
  - eapply triple_bind;
      [ apply sp_gpio; reflexivity
      | cbv beta; intros [] ? [_ ->]
      | cbv beta; intros ? [H _]; discriminate H ].
    apply triple_ret. apply wb_page_done.
Qed.

Lemma firstn_plus {A : Type} (a b : nat) (l : list A) :
  firstn (a + b) l = firstn a l ++ firstn b (skipn a l).
Proof.
  revert l. induction a as [|a IH]; intro l; [reflexivity|].
  destruct l as [|x l]; cbn [Nat.add firstn skipn app].
  - rewrite firstn_nil. reflexivity.
  - rewrite IH. reflexivity.
Qed.

Lemma wb_Write_loop (n : nat) :
  forall fuel addr buf remaining acc,
    0 <= remaining <= Z.of_nat (length buf) ->
    triple wb_step (PgIdle, acc) (W25Q128_Write_loop n fuel addr buf remaining)
      (wb_prefix acc addr buf remaining).
Proof.
  assert (Z0 : forall acc addr buf remaining r,
             0 <= remaining ->
             (r = Some W25Q128_OK -> remaining = 0) ->
             wb_prefix acc addr buf remaining r (PgIdle, acc)).
  { intros acc addr buf remaining r H0 H. exists 0. cbn [Z.to_nat firstn image].
    rewrite app_nil_r. split; [lia|]. split; [reflexivity|].
    intro E. symmetry. auto. }
  induction n as [|n IH]; intros fuel addr buf remaining acc Hr;
    cbn [W25Q128_Write_loop];
    destruct (Z.gtb_spec remaining 0) as [Hpos|Hz];
    try (apply triple_ret; apply Z0; [lia | intros _; lia]);
    try (apply triple_spin; apply Z0; [lia | discriminate]).
  cbv zeta.
  remember (if W25Q128_PAGE_SIZE - addr mod W25Q128_PAGE_SIZE >? remaining
            then remaining
            else W25Q128_PAGE_SIZE - addr mod W25Q128_PAGE_SIZE) as wl eqn:Ewl.
  assert (Hwl : 0 < wl <= remaining /\ addr mod 256 + wl <= 256).
  { subst wl. unfold W25Q128_PAGE_SIZE.
    pose proof (Z.mod_pos_bound addr 256 eq_refl).
    destruct (Z.gtb_spec (256 - addr mod 256) remaining); lia. }
  clear Ewl. destruct Hwl as [Hwl Hpage].
  assert (Hcut : length (firstn (Z.to_nat wl) buf) = Z.to_nat wl).
  { rewrite length_firstn. lia. }
  eapply triple_bind; [apply wb_WritePage; lia | | ].
  - intros st s1 [b [-> Hb]].
    destruct st; cbn [is_OK negb].
    + rewrite (Hb eq_refl).
      eapply triple_weaken.
      * apply (IH fuel (u32 (addr + wl)) (skipn (Z.to_nat wl) buf) (remaining - wl)).
        rewrite length_skipn. lia.
      * intros r s' [k [Hk [-> Hok]]]. exists (wl + k).
        split; [lia|]. split.
        -- rewrite Z2Nat.inj_add, firstn_plus, image_app, Hcut, image_u32,
             Z2Nat.id, <- app_assoc by lia.
           reflexivity.
        -- intro E. specialize (Hok E). lia.
    + apply triple_ret. destruct b.
      * exists wl. split; [lia|]. split; [reflexivity | discriminate].
      * apply Z0; [lia | discriminate].
    + apply triple_ret. destruct b.
      * exists wl. split; [lia|]. split; [reflexivity | discriminate].
      * apply Z0; [lia | discriminate].
    + apply triple_ret. destruct b.
      * exists wl. split; [lia|]. split; [reflexivity | discriminate].
      * apply Z0; [lia | discriminate].
  - intros s1 [b [-> Hb]]. destruct b.
    + exists wl. split; [lia|]. split; [reflexivity | discriminate].
    + apply Z0; [lia | discriminate].
Qed.

Lemma st_ReadStatusRegister (dl : option Z) :
  triple stop_step (mkStop false false dl) W25Q128_ReadStatusRegister
    (fun r s =>
       exists st out, r = Some (st, out) /\ s = mkStop (negb (is_OK st)) false dl).
Proof.
  unfold W25Q128_ReadStatusRegister, CS_LOW, CS_HIGH.
  repeat hal_step; apply triple_ret; do 2 eexists; split; reflexivity.
Qed.

Lemma st_WriteEnable (dl : option Z) :
  triple stop_step (mkStop false false dl) W25Q128_WriteEnable
    (fun r s => exists st, r = Some st /\ s = mkStop (negb (is_OK st)) false None).
Proof.
  unfold W25Q128_WriteEnable, CS_LOW, CS_HIGH.
  repeat hal_step; apply triple_ret; eexists; split; reflexivity.
Qed.

Lemma st_WaitForWriteEnd_loop (fuel : nat) :
  forall timeout status,
    triple stop_step (mkStop false false (Some timeout))
      (W25Q128_WaitForWriteEnd_loop fuel timeout status)
      (fun r s => s = mkStop (stop_failed r) false (Some timeout)).
Proof.
  induction fuel as [|fuel IH]; intros timeout status.
  - apply triple_spin. reflexivity.
  - cbn [W25Q128_WaitForWriteEnd_loop].
    eapply triple_bind; [apply st_ReadStatusRegister | | ].
    2:{ intros s1 [st [out [E _]]]. discriminate E. }
    intros [st out] s1 [st' [out' [E ->]]]. inversion E; subst st' out'.
    cbn [fst snd].
    destruct st; cbn [is_OK negb]; try (apply triple_ret; reflexivity).
    hal_step.
    destruct (_ >? timeout); [apply triple_ret; reflexivity|].
    destruct (negb _); [apply IH | apply triple_ret; reflexivity].
Qed.

Lemma st_WaitForWriteEnd (fuel : nat) :
  triple stop_step stop_init (W25Q128_WaitForWriteEnd fuel) stop_at.
Proof.
  unfold W25Q128_WaitForWriteEnd, stop_init. hal_step.
  eapply triple_weaken; [apply st_WaitForWriteEnd_loop|].
  intros r s' ->. eexists. reflexivity.
Qed.

Lemma st_WritePage (dl : option Z) (fuel : nat) (address : Z) (buffer : list Z)
  (length : Z) :
  length <= W25Q128_PAGE_SIZE ->
  triple stop_step (mkStop false false dl)
    (W25Q128_WritePage fuel address buffer length) stop_at.
Proof.
  intro Hlen. unfold W25Q128_WritePage.
  eapply triple_bind;
    [ apply (triple_silent stop_step _ _ tt
               (fun r s => r = Some tt /\ s = mkStop false false dl));
      [reflexivity | auto]
    | cbv beta; intros [] ? [_ ->]
    | cbv beta; intros ? [H _]; discriminate H ].
  replace (length >? W25Q128_PAGE_SIZE) with false
    by (symmetry; rewrite Z.gtb_ltb; apply Z.ltb_ge; exact Hlen).
  eapply triple_bind; [apply st_WriteEnable | | intros s1 [st [E _]]; discriminate E].
  intros we s1 [st [E ->]]. inversion E; subst st.
  destruct we; cbn [is_OK negb]; try (apply triple_ret; eexists; reflexivity).
  unfold CS_LOW, CS_HIGH. hal_step.
  eapply triple_bind;
    [ apply sp_spi_tx; intro; discriminate
    | cbv beta; intros ? ? [ok1 [Hr1 Es1]]; inversion Hr1; subst;
      cbn [stop_step st_failed st_fresh st_deadline orb andb] in Es1;
      inversion Es1; subst; destruct ok1; cbn [negb]
    | cbv beta; intros ? [? [H _]]; discriminate H ].
  2:{ hal_step. apply triple_ret. eexists. reflexivity. }
  eapply triple_bind;
    [ apply sp_spi_tx; intro; discriminate
    | cbv beta; intros ? ? [ok2 [Hr2 Es2]]; inversion Hr2; subst;
      cbn [stop_step st_failed st_fresh st_deadline orb andb] in Es2;
      inversion Es2; subst; destruct ok2; cbn [negb]
    | cbv beta; intros ? [? [H _]]; discriminate H ].
  2:{ hal_step. apply triple_ret. eexists. reflexivity. }
  hal_step.
  apply st_WaitForWriteEnd.
Qed.

Lemma st_Write_loop (n : nat) :
  forall fuel addr buf remaining dl,
    triple stop_step (mkStop false false dl)
      (W25Q128_Write_loop n fuel addr buf remaining)
      (fun r s => stop_at r s /\ (stop_failed r = true -> r = Some W25Q128_ERROR)).
Proof.
  induction n as [|n IH]; intros fuel addr buf remaining dl;
    cbn [W25Q128_Write_loop];
    destruct (remaining >? 0);
    try (apply triple_ret; split; [eexists; reflexivity | discriminate]);
    try (apply triple_spin; split; [eexists; reflexivity | discriminate]).
  cbv zeta.
  eapply triple_bind.
  - apply (st_WritePage dl). unfold W25Q128_PAGE_SIZE.
    pose proof (Z.mod_pos_bound addr 256 eq_refl).
    destruct (_ >? remaining) eqn:E; [apply Z.gtb_lt in E|]; lia.
  - intros st s1 [dl' ->].
    destruct st; cbn [is_OK negb stop_failed];
      [apply IH | | | ];
      apply triple_ret; (split; [eexists; reflexivity | reflexivity]).
  - intros s1 [dl' ->]. split; [eexists; reflexivity | discriminate].
Qed.

Example stop_step_refuses_a_retry :
  run stop_step stop_init
    [GPIO_CS false; SPI_TX [W25Q128_CMD_WRITE_ENABLE] true; GPIO_CS true;
     GPIO_CS false; SPI_TX (cmd_addr W25Q128_CMD_PAGE_PROGRAM 254) true;
     SPI_TX [1; 2] false; GPIO_CS true;
     GPIO_CS false]
  = None.
Proof. reflexivity. Qed.

Example stop_step_refuses_a_page_after_a_timeout :
  run stop_step stop_init
    [GPIO_CS false; SPI_TX [W25Q128_CMD_WRITE_ENABLE] true; GPIO_CS true;
     GPIO_CS false; SPI_TX (cmd_addr W25Q128_CMD_PAGE_PROGRAM 254) true;
     SPI_TX [1; 2] true; GPIO_CS true;
     TICK 10;
     GPIO_CS false; SPI_TX [W25Q128_CMD_READ_STATUS_REG1] true; SPI_RX [1] true;
     GPIO_CS true; TICK 5011;
     GPIO_CS false]
  = None.
Proof. reflexivity. Qed.

Example stop_step_follows_a_clean_write :
  option_map st_failed
    (run stop_step stop_init
       (log (snd (W25Q128_Write 1 0xFE [1; 2; 3; 4] 4 (fresh_world calm_env [])))))
  = Some false.
Proof. vm_compute. reflexivity. Qed.

(** X7.  What [W25Q128_Write] hands to the flash.  For a buffer that
    holds the [len] bytes asked for, the data phases of the page programs
    on the bus, taken together, are a prefix of the buffer in order, byte
    [i] at [address + i] in the 24 bits of address the commands carry;
    when the write returns [W25Q128_OK] the prefix is the whole of the
    [len] bytes: nothing is skipped, repeated or misplaced at a page
    boundary.

    The write stops at the first failure: once an SPI transfer has
    failed or a busy wait has read a tick past its deadline, the flash
    is not selected again, and the write returns [W25Q128_ERROR] exactly
    when its log holds such a failure.  When no SPI transfer fails and
    the flash is idle, the write returns [W25Q128_OK], with the whole
    buffer programmed. *)
Theorem W25Q128_Write_programs_the_buffer
  (fuel : nat) (address : Z) (buffer : list Z) (len : Z) (w : World) :
  0 <= len <= Z.of_nat (length buffer) ->
  exists evs k s,
    log (exec (W25Q128_Write fuel address buffer len) w) = log w ++ evs
    /\ 0 <= k <= len
    /\ programmed evs = image address (firstn (Z.to_nat k) buffer)
    /\ (fst (W25Q128_Write fuel address buffer len w) = Some W25Q128_OK -> k = len)
    /\ run stop_step stop_init evs = Some s
    /\ (st_failed s = true <->
        fst (W25Q128_Write fuel address buffer len w) = Some W25Q128_ERROR)
    /\ (st_failed s = false <->
        fst (W25Q128_Write fuel address buffer len w) = Some W25Q128_OK
        \/ fst (W25Q128_Write fuel address buffer len w) = None)
    /\ (spi_sound (env w) -> flash_idle (env w) -> (0 < fuel)%nat ->
        fst (W25Q128_Write fuel address buffer len w) = Some W25Q128_OK
        /\ programmed evs = image address (firstn (Z.to_nat len) buffer)).
Proof.
  intro H. unfold W25Q128_Write, exec.
  destruct (wb_Write_loop (Z.to_nat len) fuel address buffer len [] H w)
    as [evs [L [s' [R [k [Hk [-> Hok]]]]]]].
  destruct (st_Write_loop (Z.to_nat len) fuel address buffer len None w)
    as [evs' [L' [s [Rs [[dl ->] Hf]]]]].
  assert (evs' = evs) by (rewrite L in L'; apply app_inv_head in L'; symmetry; exact L').
  subst evs'.
  exists evs, k, (mkStop (stop_failed (fst (W25Q128_Write_loop (Z.to_nat len) fuel address
                                              buffer len w))) false dl).
  assert (P : programmed evs = image address (firstn (Z.to_nat k) buffer))
    by (unfold programmed; rewrite R; reflexivity).
  split; [exact L|]. split; [exact Hk|]. split; [exact P|]. split; [exact Hok|].
  split; [exact Rs|]. cbn [st_failed].
  split; [split; [exact Hf | intros ->; reflexivity]|].
  split.
  { destruct (fst (W25Q128_Write_loop (Z.to_nat len) fuel address buffer len w))
      as [[| | |]|]; cbn [stop_failed]; split; auto; try discriminate;
      intros [K|K]; discriminate K. }
  intros Hs Hi Hfuel. destruct fuel as [|fuel]; [lia|]. destruct w as [e i l p h].
  destruct (W25Q128_Write_loop_idle (Z.to_nat len) fuel address buffer len
              e i l p h Hs Hi ltac:(lia)) as [evs2 [p' E]].
  rewrite E in Hok |- *. cbn [fst] in Hok |- *.
  split; [reflexivity|]. rewrite P, (Hok eq_refl). reflexivity.
Qed.

Lemma W25Q128_Write_programs_the_buffer_witness :
  exists evs,
    log (exec (W25Q128_Write 1 0x1234FE [0x11; 0x22; 0x33; 0x44] 4)
           (fresh_world calm_env []))
    = evs
    /\ programmed evs
       = [(0x1234FE, 0x11); (0x1234FF, 0x22); (0x123500, 0x33); (0x123501, 0x44)]
    /\ fst (W25Q128_Write 1 0x1234FE [0x11; 0x22; 0x33; 0x44] 4 (fresh_world calm_env []))
       = Some W25Q128_OK
    /\ exists s, run stop_step stop_init evs = Some s /\ st_failed s = false.
Proof.
  destruct (W25Q128_Write_programs_the_buffer 1 0x1234FE [0x11; 0x22; 0x33; 0x44] 4
              (fresh_world calm_env []))
    as [evs [k [s [L [Hk [P [Hok [R [Ht [Hf Hgo]]]]]]]]]].
  - cbn [length]. lia.
  - destruct Hgo as [Eok Eall].
    + intro n. reflexivity.
    + split; intro n; vm_compute; [reflexivity | discriminate].
    + lia.
    + exists evs. split; [exact L|]. split; [exact Eall|]. split; [exact Eok|].
      exists s. split; [exact R|]. apply Hf. left. exact Eok.
Defined.

(* ================================================================== *)
(** ** One command on the serial line *)

Lemma map_u8_bytes (l : list Z) : Forall is_byte (map u8 l).
Proof.
  apply Forall_forall. intros x Hx. apply in_map_iff in Hx.
  destruct Hx as [y [<- _]]. apply u8_byte.
Qed.

Lemma nth_byte (d : list Z) (i : nat) : Forall is_byte d -> is_byte (nth i d 0).
Proof.
  intro H. destruct (Nat.lt_ge_cases i (length d)) as [L|L].
  - rewrite Forall_forall in H. apply H. apply nth_In. exact L.
  - rewrite nth_overflow by exact L. unfold is_byte. lia.
Qed.

Lemma le32_nonneg (d : list Z) : Forall is_byte d -> 0 <= le32 d.
Proof.
  intro H. unfold le32.
  pose proof (nth_byte d 0 H). pose proof (nth_byte d 1 H).
  pose proof (nth_byte d 2 H). pose proof (nth_byte d 3 H).
  unfold is_byte in *.
  repeat (apply Z.lor_nonneg; split); try apply Z.shiftl_nonneg; lia.
Qed.

Lemma ph_ReadStatusRegister (b : bool) :
  triple ph_step (PhFrame b) W25Q128_ReadStatusRegister ph_driven.
Proof. unfold W25Q128_ReadStatusRegister, CS_LOW, CS_HIGH. repeat hal_step. Qed.

Lemma ph_ReadID (b : bool) : triple ph_step (PhFrame b) W25Q128_ReadID ph_driven.
Proof. unfold W25Q128_ReadID, CS_LOW, CS_HIGH. repeat hal_step. Qed.

Lemma ph_ReadJEDECID (b : bool) : triple ph_step (PhFrame b) W25Q128_ReadJEDECID ph_driven.
Proof. unfold W25Q128_ReadJEDECID, CS_LOW, CS_HIGH. repeat hal_step. Qed.

Lemma ph_Read (b : bool) (address length : Z) :
  triple ph_step (PhFrame b) (W25Q128_Read address length) ph_driven.
Proof. unfold W25Q128_Read, CS_LOW, CS_HIGH. repeat hal_step. Qed.

Lemma ph_WriteEnable (b : bool) : triple ph_step (PhFrame b) W25Q128_WriteEnable ph_driven.
Proof. unfold W25Q128_WriteEnable, CS_LOW, CS_HIGH. repeat hal_step. Qed.

Lemma ph_then {A B : Type} (b : bool) (m : M A) (k : A -> M B) :
  triple ph_step (PhFrame b) m ph_driven ->
  (forall a, triple ph_step (PhFrame true) (k a) ph_driven) ->
  triple ph_step (PhFrame b) (bind m k) ph_driven.
Proof.
  intros Hm Hk. eapply triple_bind; [exact Hm | | ].
  - unfold ph_driven. intros a s1 ->. apply Hk.
  - auto.
Qed.

Lemma ph_WaitForWriteEnd_loop (fuel : nat) :
  forall timeout status,
    triple ph_step (PhFrame true) (W25Q128_WaitForWriteEnd_loop fuel timeout status)
      ph_driven.
Proof.
  induction fuel as [|fuel IH]; intros timeout status.
  - apply triple_spin. reflexivity.
  - cbn [W25Q128_WaitForWriteEnd_loop].
    apply ph_then; [apply ph_ReadStatusRegister|].
    intros [st out]. cbn [fst snd].
    destruct (is_OK st); cbn [negb]; [|hal_step].
    hal_step.
    destruct (_ >? timeout); [hal_step|].
    destruct (negb _); [apply IH | hal_step].
Qed.

Lemma ph_WaitForWriteEnd (b : bool) (fuel : nat) :
  triple ph_step (PhFrame b) (W25Q128_WaitForWriteEnd fuel) ph_driven.
Proof.
  unfold W25Q128_WaitForWriteEnd. hal_step. apply ph_WaitForWriteEnd_loop.
Qed.

Lemma ph_WritePage (b : bool) (fuel : nat) (address : Z) (buffer : list Z) (length : Z) :
  b = true \/ length <= W25Q128_PAGE_SIZE ->
  triple ph_step (PhFrame b) (W25Q128_WritePage fuel address buffer length) ph_driven.
Proof.
  intro Hb. unfold W25Q128_WritePage.
  eapply triple_bind;
    [ apply (triple_silent ph_step _ _ tt (fun r s => r = Some tt /\ s = PhFrame b));
      [reflexivity | auto]
    | cbv beta; intros [] ? [_ ->]
    | cbv beta; intros ? [E _]; discriminate E ].
  destruct (Z.gtb_spec length W25Q128_PAGE_SIZE) as [Hbig|Hfit].
  { apply triple_ret. destruct Hb as [-> | Hb]; [reflexivity | lia]. }
  apply ph_then; [apply ph_WriteEnable|]. intro we.
  destruct (is_OK we); cbn [negb]; [|hal_step].
  clear Hb. unfold CS_LOW, CS_HIGH. repeat hal_step. apply ph_WaitForWriteEnd.
Qed.

Lemma ph_Write_loop (n : nat) :
  forall b fuel addr buf remaining,
    b = true \/ 0 < remaining <= Z.of_nat n ->
    triple ph_step (PhFrame b) (W25Q128_Write_loop n fuel addr buf remaining) ph_driven.
Proof.
  induction n as [|n IH]; intros b fuel addr buf remaining Hb;
    cbn [W25Q128_Write_loop];
    destruct (Z.gtb_spec remaining 0) as [Hpos|Hz];
    try (apply triple_ret; destruct Hb as [-> | Hb]; [reflexivity | lia]);
    try (apply triple_spin; destruct Hb as [-> | Hb]; [reflexivity | lia]).
  cbv zeta.
  remember (if W25Q128_PAGE_SIZE - addr mod W25Q128_PAGE_SIZE >? remaining
            then remaining
            else W25Q128_PAGE_SIZE - addr mod W25Q128_PAGE_SIZE) as wl eqn:Ewl.
  assert (Hwl : 0 < wl <= remaining /\ addr mod 256 + wl <= 256).
  { subst wl. unfold W25Q128_PAGE_SIZE.
    pose proof (Z.mod_pos_bound addr 256 eq_refl).
    destruct (Z.gtb_spec (256 - addr mod 256) remaining); lia. }
  clear Ewl.
  apply ph_then.
  - apply ph_WritePage. right. unfold W25Q128_PAGE_SIZE.
    pose proof (Z.mod_pos_bound addr 256 eq_refl). lia.
  - intro st. destruct (is_OK st); cbn [negb]; [|hal_step].
    apply IH. left. reflexivity.
Qed.

Lemma ph_EraseSector (b : bool) (fuel : nat) (a : Z) :
  triple ph_step (PhFrame b) (W25Q128_EraseSector fuel a) ph_driven.
Proof.
  unfold W25Q128_EraseSector. apply ph_then; [apply ph_WriteEnable|]. intro we.
  destruct (is_OK we); cbn [negb]; [|hal_step].
  unfold CS_LOW, CS_HIGH. repeat hal_step. apply ph_WaitForWriteEnd.
Qed.

Lemma ph_EraseChip (b : bool) (fuel : nat) :
  triple ph_step (PhFrame b) (W25Q128_EraseChip fuel) ph_driven.
Proof.
  unfold W25Q128_EraseChip. apply ph_then; [apply ph_WriteEnable|]. intro we.
  destruct (is_OK we); cbn [negb]; [|hal_step].
  unfold CS_LOW, CS_HIGH. repeat hal_step. apply ph_WaitForWriteEnd.
Qed.

Lemma ph_ReceiveData (n : Z) :
  triple ph_step (PhFrame false) (BOOT_ReceiveData n)
    (fun r s =>
       (exists d, r = Some (Some d) /\ Forall is_byte d /\ s = PhFrame false)
       \/ (r = Some None /\ s = PhLost)).
Proof.
  intro w. unfold BOOT_ReceiveData, HAL_UART_Receive. cbv zeta.
  change (BOOT_TIMEOUT_MS =? HAL_MAX_DELAY) with false. cbv iota.
  destruct (Z.to_nat (u16 n) <=? length (uart_in w))%nat.
  - eexists. split; [reflexivity|]. exists (PhFrame false).
    split; [reflexivity|]. left. eexists.
    split; [reflexivity|]. split; [apply map_u8_bytes | reflexivity].
  - eexists. split; [reflexivity|]. exists PhLost.
    split; [reflexivity|]. right. split; reflexivity.
Qed.

Lemma ph_SendResponse (s s' : Phase) (c : Z) :
  (forall ok, ph_step s (UART_TX [c] ok) = Some s') ->
  triple ph_step s (BOOT_SendResponse c) (fun r s1 => r <> None /\ s1 = s').
Proof.
  intro H. unfold BOOT_SendResponse.
  eapply triple_bind.
  - apply sp_uart_tx. intro ok. rewrite H. discriminate.
  - cbv beta. intros ok s1 [ok' [_ E]]. rewrite H in E. inversion E; subst.
    destruct (negb ok); apply triple_ret; split; [discriminate | reflexivity
                                                  | discriminate | reflexivity].
  - cbv beta. intros s1 [ok [E _]]. discriminate E.
Qed.

Lemma ph_SendData (s s' : Phase) (data : list Z) (n : Z) :
  (forall d ok, ph_step s (UART_TX d ok) = Some s') ->
  triple ph_step s (BOOT_SendData data n) (fun r s1 => r <> None /\ s1 = s').
Proof.
  intro H. unfold BOOT_SendData.
  eapply triple_bind.
  - apply sp_uart_tx. intro ok. rewrite H. discriminate.
  - cbv beta. intros ok s1 [ok' [_ E]]. rewrite H in E. inversion E; subst.
    destruct (negb ok); apply triple_ret; split; [discriminate | reflexivity
                                                  | discriminate | reflexivity].
  - cbv beta. intros s1 [ok [E _]]. discriminate E.
Qed.

(** NACK, then return [st]. *)
Lemma ph_nack {A : Type} (s : Phase) (st : A) :
  (forall ok, ph_step s (UART_TX [BOOT_NACK] ok) = Some PhDone) ->
  triple ph_step s (BOOT_SendResponse BOOT_NACK ;; ret st) ph_end.
Proof.
  intro H. eapply triple_bind; [apply (ph_SendResponse s PhDone); exact H | | ].
  - cbv beta. intros a s1 [_ ->]. apply triple_ret. left. reflexivity.
  - cbv beta. intros s1 [E _]. contradiction.
Qed.

Lemma ph_ReceivePayload (n : nat) :
  forall acc remaining,
    remaining <= Z.of_nat n ->
    triple ph_step (PhFrame false) (BOOT_ReceivePayload n acc remaining)
      (fun r s =>
         (exists d, r = Some (Some d) /\ s = PhFrame false)
         \/ (r = Some None /\ s = PhLost)).
Proof.
  induction n as [|n IH]; intros acc remaining H; cbn [BOOT_ReceivePayload];
    destruct (Z.gtb_spec remaining 0) as [Hpos|Hz]; try lia;
    try (apply triple_ret; left; eexists; split; reflexivity).
  cbv zeta.
  set (chunk_size := if remaining >? BOOT_BUFFER_SIZE then BOOT_BUFFER_SIZE else remaining).
  assert (Hc : 0 < chunk_size).
  { subst chunk_size. unfold BOOT_BUFFER_SIZE.
    destruct (Z.gtb_spec remaining 256); lia. }
  eapply triple_bind; [apply ph_ReceiveData | | ].
  - cbv beta. intros r s1 [[d [E [_ ->]]] | [E ->]]; inversion E; subst.
    + apply IH. lia.
    + apply triple_ret. right. split; reflexivity.
  - cbv beta. intros s1 [[d [E _]] | [E _]]; discriminate E.
Qed.

(** A field receive inside a frame: the field, or a time-out. *)
Ltac ph_recv d Hd :=
  eapply triple_bind;
  [ apply ph_ReceiveData
  | let E := fresh "E" in
    cbv beta; intros ? ? [[d [E [Hd ->]]] | [E ->]]; inversion E; subst; clear E
  | let E := fresh "E" in
    cbv beta; intros ? [[? [E _]] | [E _]]; discriminate E ].

Ltac ph_nack_now := apply ph_nack; intro; reflexivity.

Lemma ph_HandleWrite (fuel : nat) :
  triple ph_step (PhFrame false) (BOOT_HandleWrite fuel) ph_end.
Proof.
  unfold BOOT_HandleWrite.
  ph_recv lenf Hlenf; [|ph_nack_now].
  cbv zeta.
  destruct (Z.eqb_spec (le32 lenf) 0) as [Hz|Hnz]; cbn [orb]; [ph_nack_now|].
  destruct (le32 lenf >? BOOT_MAX_DATA_SIZE); [ph_nack_now|].
  pose proof (le32_nonneg lenf Hlenf) as Hpos.
  ph_recv addrf Haddrf; [|ph_nack_now].
  eapply triple_bind; [apply ph_ReceivePayload; lia | | ].
  2:{ cbv beta. intros s1 [[d [E _]] | [E _]]; discriminate E. }
  cbv beta. intros r s1 [[payload [E ->]] | [E ->]]; inversion E; subst; clear E;
    [|ph_nack_now].
  ph_recv crcf Hcrcf; [|ph_nack_now].
  destruct (negb _); [ph_nack_now|].
  eapply triple_bind; [apply ph_Write_loop; right; lia | | ].
  2:{ unfold ph_driven, ph_end. auto. }
  unfold ph_driven. intros st s1 ->.
  destruct (is_OK st); cbn [negb]; [|ph_nack_now].
  eapply triple_bind;
    [ apply (triple_silent ph_step _ _ tt (fun r s => r = Some tt /\ s = PhFrame true));
      [reflexivity | auto]
    | cbv beta; intros [] ? [_ ->]
    | cbv beta; intros ? [E _]; discriminate E ].
  eapply triple_bind; [apply (ph_SendResponse _ (PhAcked 2)); intro; reflexivity | | ].
  - cbv beta. intros a s1 [_ ->]. apply triple_ret. right. eexists. reflexivity.
  - cbv beta. intros s1 [E _]. contradiction.
Qed.

Lemma ph_HandleRead : triple ph_step (PhFrame false) BOOT_HandleRead ph_end.
Proof.
  unfold BOOT_HandleRead.
  ph_recv lenf Hlenf; [|ph_nack_now].
  cbv zeta.
  destruct ((le32 lenf =? 0) || (le32 lenf >? BOOT_MAX_DATA_SIZE)); [ph_nack_now|].
  ph_recv addrf Haddrf; [|ph_nack_now].
  eapply triple_bind; [apply ph_Read | | ].
  2:{ unfold ph_driven, ph_end. auto. }
  unfold ph_driven. intros [st out] s1 ->.
  destruct st; try ph_nack_now.
  destruct out as [data_buffer|]; [|ph_nack_now].
  eapply triple_bind; [apply (ph_SendResponse _ (PhAcked 2)); intro; reflexivity | | ].
  2:{ cbv beta. intros s1 [E _]. contradiction. }
  cbv beta. intros a s1 [_ ->].
  eapply triple_bind; [apply (ph_SendData _ (PhAcked 1)); intros; reflexivity | | ].
  2:{ cbv beta. intros s1 [E _]. contradiction. }
  cbv beta. intros sent s1 [_ ->].
  destruct sent; try (apply triple_ret; right; eexists; reflexivity).
  eapply triple_bind; [apply (ph_SendData _ (PhAcked 0)); intros; reflexivity | | ].
  2:{ cbv beta. intros s1 [E _]. contradiction. }
  cbv beta. intros a2 s1 [_ ->].
  eapply triple_bind;
    [ apply (triple_silent ph_step _ _ tt (fun r s => r = Some tt /\ s = PhAcked 0));
      [reflexivity | auto]
    | cbv beta; intros [] ? [_ ->]
    | cbv beta; intros ? [E _]; discriminate E ].
  apply triple_ret. right. eexists. reflexivity.
Qed.

Lemma ph_HandleEraseSector (fuel : nat) :
  triple ph_step (PhFrame false) (BOOT_HandleEraseSector fuel) ph_end.
Proof.
  unfold BOOT_HandleEraseSector.
  ph_recv addrf Haddrf; [|ph_nack_now].
  cbv zeta.
  eapply triple_bind; [apply ph_EraseSector | | ].
  2:{ unfold ph_driven, ph_end. auto. }
  unfold ph_driven. intros st s1 ->.
  destruct (is_OK st); cbn [negb]; [|ph_nack_now].
  eapply triple_bind; [apply (ph_SendResponse _ (PhAcked 2)); intro; reflexivity | | ].
  - cbv beta. intros a s1 [_ ->]. apply triple_ret. right. eexists. reflexivity.
  - cbv beta. intros s1 [E _]. contradiction.
Qed.

Lemma ph_HandleEraseChip (fuel : nat) :
  triple ph_step (PhFrame false) (BOOT_HandleEraseChip fuel) ph_end.
Proof.
  unfold BOOT_HandleEraseChip.
  eapply triple_bind; [apply ph_EraseChip | | ].
  2:{ unfold ph_driven, ph_end. auto. }
  unfold ph_driven. intros st s1 ->.
  destruct (is_OK st); cbn [negb]; [|ph_nack_now].
  eapply triple_bind; [apply (ph_SendResponse _ (PhAcked 2)); intro; reflexivity | | ].
  - cbv beta. intros a s1 [_ ->]. apply triple_ret. right. eexists. reflexivity.
  - cbv beta. intros s1 [E _]. contradiction.
Qed.

Lemma ph_HandleGetInfo : triple ph_step (PhFrame false) BOOT_HandleGetInfo ph_end.
Proof.
  unfold BOOT_HandleGetInfo.
  eapply triple_bind; [apply ph_ReadID | | ].
  2:{ unfold ph_driven, ph_end. auto. }
  unfold ph_driven. intros [st id] s1 ->.
  destruct st; try ph_nack_now.
  destruct id as [[manufacturer_id device_id]|]; [|ph_nack_now].
  eapply triple_bind; [apply ph_ReadJEDECID | | ].
  2:{ unfold ph_driven, ph_end. auto. }
  unfold ph_driven. intros [st jd] s1 ->.
  destruct st; try ph_nack_now.
  destruct jd as [jedec_id|]; [|ph_nack_now].
  cbv zeta.
  eapply triple_bind; [apply (ph_SendResponse _ (PhAcked 2)); intro; reflexivity | | ].
  2:{ cbv beta. intros s1 [E _]. contradiction. }
  cbv beta. intros a s1 [_ ->].
  eapply triple_bind; [apply (ph_SendData _ (PhAcked 1)); intros; reflexivity | | ].
  2:{ cbv beta. intros s1 [E _]. contradiction. }
  cbv beta. intros sent s1 [_ ->].
  apply triple_ret. right. eexists. reflexivity.
Qed.

(** A handler's status is dropped by [BOOT_Process]. *)
Lemma ph_dispatch {A : Type} (m : M A) :
  triple ph_step (PhFrame false) m ph_end ->
  triple ph_step (PhFrame false) (m ;; ret tt) ph_process_end.
Proof.
  intro H. eapply triple_bind; [exact H | | ].
  - intros a s1 E. apply triple_ret. exact E.
  - intros s1 E. left. exact E.
Qed.

Lemma ph_Process (fuel : nat) :
  triple ph_step PhHeader (BOOT_Process fuel) ph_process_end.
Proof.
  unfold BOOT_Process.
  eapply triple_bind.
  - apply (triple_uart_rx_wait ph_step PhHeader 2
             (fun r s1 =>
                match r with
                | Some (Some d) =>
                    s1 = if (nth 0 d 0 =? BOOT_START_MARKER1)
                            && (nth 1 d 0 =? BOOT_START_MARKER2)
                         then PhFrame false else PhDone
                | Some None => False
                | None => s1 = PhHeader
                end)).
    + intro d. eexists. split; reflexivity.
    + reflexivity.
  - cbv beta. intros [d|] s1 E; [subst s1 | contradiction].
    destruct (nth 0 d 0 =? BOOT_START_MARKER1); cbn [negb orb andb];
      [|apply triple_ret; left; reflexivity].
    destruct (nth 1 d 0 =? BOOT_START_MARKER2); cbn [negb orb andb];
      [|apply triple_ret; left; reflexivity].
    ph_recv cmd Hcmd.
    2:{ eapply triple_weaken; [ph_nack_now|]. intros [a|] s'; cbn; auto. }
    cbv zeta.
    destruct (_ =? BOOT_CMD_WRITE); [apply ph_dispatch, ph_HandleWrite|].
    destruct (_ =? BOOT_CMD_READ); [apply ph_dispatch, ph_HandleRead|].
    destruct (_ =? BOOT_CMD_ERASE_SECTOR); [apply ph_dispatch, ph_HandleEraseSector|].
    destruct (_ =? BOOT_CMD_ERASE_CHIP); [apply ph_dispatch, ph_HandleEraseChip|].
    destruct (_ =? BOOT_CMD_GET_INFO); [apply ph_dispatch, ph_HandleGetInfo|].
    eapply triple_weaken; [ph_nack_now|]. intros [a|] s'; cbn; auto.
  - cbv beta. intros s1 ->. right. reflexivity.
Qed.

Lemma ph_step_leaves_header (s s1 : Phase) (ev : Event) :
  ph_step s ev = Some s1 -> s1 <> PhHeader.
Proof.
  destruct s as [|driven| |more|]; destruct ev; cbn [ph_step];
    repeat match goal with
           | |- context [if ?b then _ else _] => destruct b
           | |- context [match ?m with O => _ | S _ => _ end] => destruct m
           end;
    intro E; inversion E; discriminate.
Qed.

Lemma ph_run_at_header (evs : list Event) :
  run ph_step PhHeader evs = Some PhHeader -> evs = [].
Proof.
  assert (H : forall evs s s', s <> PhHeader -> run ph_step s evs = Some s' ->
                               s' <> PhHeader).
  { clear evs. induction evs as [|ev evs IH]; intros s s' Hs R; cbn [run] in R.
    - inversion R; subst. exact Hs.
    - destruct (ph_step s ev) as [s1|] eqn:E; [|discriminate R].
      exact (IH s1 s' (ph_step_leaves_header s s1 ev E) R). }
  destruct evs as [|ev evs]; [reflexivity|]. cbn [run].
  destruct (ph_step PhHeader ev) as [s1|] eqn:E; [|discriminate].
  intro R. exfalso.
  exact (H evs s1 PhHeader (ph_step_leaves_header _ _ _ E) R eq_refl).
Qed.

(** X8.  The order of HAL calls in one call of [BOOT_Process], whatever
    is on the serial line and however the transports and the flash
    behave.  The call starts with the two-byte header receive, which has
    no time-out: with fewer than two bytes to come the call does not
    return, and has done nothing.  Without the two markers nothing else
    happens.  Inside a frame every receive comes before the first flash
    activity; a receive that times out is answered by NACK at once.
    NACK is the last call of the command; ACK is sent only after the
    flash has been driven, and after it come at most two transmissions
    and no flash activity.  A call that has returned has sent NACK, sent
    ACK, or found no frame; one that has not is waiting for the flash, or
    for the header bytes with no HAL call completed. *)
Theorem BOOT_Process_call_order (fuel : nat) (w : World) :
  exists evs s,
    log (exec (BOOT_Process fuel) w) = log w ++ evs
    /\ run ph_step PhHeader evs = Some s
    /\ match fst (BOOT_Process fuel w) with
       | Some _ => s = PhDone \/ exists more, s = PhAcked more
       | None => s = PhFrame true \/ (s = PhHeader /\ evs = [])
       end
    /\ ((length (uart_in w) < 2)%nat -> BOOT_Process fuel w = (None, w)).
Proof.
  destruct (ph_Process fuel w) as [evs [L [s [R E]]]]. exists evs, s.
  split; [exact L|]. split; [exact R|]. split.
  - unfold ph_process_end in E.
    destruct (fst (BOOT_Process fuel w)); [exact E|].
    destruct E as [E | E]; [left; exact E | right].
    split; [exact E|]. subst s. exact (ph_run_at_header evs R).
  - intro H. unfold BOOT_Process. unfold bind at 1.
    rewrite uart_receive_waits by exact H. reflexivity.
Qed.

(* ================================================================== *)
(** ** The session counters *)

Lemma hb_bind {A B : Type} (m : M A) (k : A -> M B) (P : A -> Prop)
  (Q : option B -> BOOT_Handle_t -> BOOT_Handle_t -> Prop) :
  hb_keeps m P ->
  (forall a, P a -> hb (k a) Q) ->
  (forall h, Q None h h) ->
  hb (bind m k) Q.
Proof.
  intros Hm Hk Hn w. unfold bind. destruct (Hm w) as [E Pa].
  destruct (m w) as [[a|] w1]; cbn [fst snd] in *.
  - rewrite <- E. apply Hk, Pa.
  - rewrite E. apply Hn.
Qed.

Lemma hb_ret {A : Type} (a : A)
  (Q : option A -> BOOT_Handle_t -> BOOT_Handle_t -> Prop) :
  (forall h, Q (Some a) h h) -> hb (ret a) Q.
Proof. intros H w. apply H. Qed.

Lemma hb_keeps_session {A : Type} (m : M A) :
  keeps_session m -> hb_keeps m (fun _ => True).
Proof.
  intros K w. specialize (K w). unfold session in K.
  assert (E : hboot (snd (m w)) = hboot w) by congruence.
  split; [exact E|]. destruct (fst (m w)); exact I.
Qed.

Lemma hb_keeps_bind {A B : Type} (m : M A) (k : A -> M B) (P : A -> Prop)
  (R : B -> Prop) :
  hb_keeps m P -> (forall a, P a -> hb_keeps (k a) R) -> hb_keeps (bind m k) R.
Proof.
  intros Hm Hk w. unfold bind. destruct (Hm w) as [E Pa].
  destruct (m w) as [[a|] w1]; cbn [fst snd] in *.
  - destruct (Hk a Pa w1) as [E1 R1]. rewrite E1. auto.
  - auto.
Qed.

Lemma hb_keeps_ret {A : Type} (a : A) (P : A -> Prop) : P a -> hb_keeps (ret a) P.
Proof. intros H w. split; [reflexivity | exact H]. Qed.

Lemma hb_ReceiveData (n : Z) :
  hb_keeps (BOOT_ReceiveData n)
    (fun r => match r with Some d => Forall is_byte d | None => True end).
Proof.
  intro w. unfold BOOT_ReceiveData, HAL_UART_Receive. cbv zeta.
  change (BOOT_TIMEOUT_MS =? HAL_MAX_DELAY) with false. cbv iota.
  destruct (Z.to_nat (u16 n) <=? length (uart_in w))%nat; cbn [fst snd];
    (split; [reflexivity|]); [apply map_u8_bytes | exact I].
Qed.

Lemma hb_SendResponse (c : Z) : hb_keeps (BOOT_SendResponse c) (fun _ => True).
Proof.
  intro w. unfold BOOT_SendResponse, HAL_UART_Transmit, bind. cbn [fst snd].
  destruct (negb _); split; reflexivity || exact I.
Qed.

Lemma hb_SendData (data : list Z) (n : Z) : hb_keeps (BOOT_SendData data n) (fun _ => True).
Proof.
  intro w. unfold BOOT_SendData, HAL_UART_Transmit, bind. cbn [fst snd].
  destruct (negb _); split; reflexivity || exact I.
Qed.

Lemma hb_ReceivePayload (n : nat) :
  forall acc remaining, hb_keeps (BOOT_ReceivePayload n acc remaining) (fun _ => True).
Proof.
  induction n as [|n IH]; intros acc remaining; cbn [BOOT_ReceivePayload];
    destruct (remaining >? 0);
    try (apply hb_keeps_ret; exact I);
    try (intro w; split; [reflexivity | exact I]).
  cbv zeta. eapply hb_keeps_bind; [apply hb_ReceiveData|].
  intros [chunk|] _; [apply IH | apply hb_keeps_ret; exact I].
Qed.

(** NACK, then a status that is not [BOOT_OK]. *)
Lemma hb_nack (bump : Z -> BOOT_Handle_t -> BOOT_Handle_t) (st : BOOT_Status_t) :
  st <> BOOT_OK ->
  hb (BOOT_SendResponse BOOT_NACK ;; ret st) (counts bump).
Proof.
  intro H. eapply hb_bind; [apply hb_SendResponse | | reflexivity].
  intros _ _. apply hb_ret. intro h. destruct st; try reflexivity. contradiction.
Qed.

Lemma hb_nack_untouched {A : Type} (a : A) :
  hb (BOOT_SendResponse BOOT_NACK ;; ret a) untouched.
Proof.
  eapply hb_bind; [apply hb_SendResponse | | reflexivity].
  intros _ _. apply hb_ret. reflexivity.
Qed.

Lemma hb_HandleWrite (fuel : nat) : hb (BOOT_HandleWrite fuel) (counts bump_written).
Proof.
  unfold BOOT_HandleWrite.
  eapply hb_bind; [apply hb_ReceiveData | | reflexivity].
  intros [lenf|] Hlenf; [|apply hb_nack; discriminate].
  cbv zeta.
  destruct (Z.eqb_spec (le32 lenf) 0) as [Hz|Hnz]; cbn [orb];
    [apply hb_nack; discriminate|].
  destruct (Z.gtb_spec (le32 lenf) BOOT_MAX_DATA_SIZE) as [Hbig|Hfit];
    [apply hb_nack; discriminate|].
  pose proof (le32_nonneg lenf Hlenf) as Hpos.
  eapply hb_bind; [apply hb_ReceiveData | | reflexivity].
  intros [addrf|] _; [|apply hb_nack; discriminate].
  eapply hb_bind; [apply hb_ReceivePayload | | reflexivity].
  intros [payload|] _; [|apply hb_nack; discriminate].
  eapply hb_bind; [apply hb_ReceiveData | | reflexivity].
  intros [crcf|] _; [|apply hb_nack; discriminate].
  destruct (negb _); [apply hb_nack; discriminate|].
  eapply hb_bind; [apply hb_keeps_session, ks_Write_loop | | reflexivity].
  intros st _. destruct (is_OK st); cbn [negb]; [|apply hb_nack; discriminate].
  intros [e i l p h]. unfold bind, set_hboot, ret.
  cbn [fst snd env uart_in log page_calls hboot].
  rewrite send_response_run. cbn [fst snd counts hboot].
  exists (le32 lenf). split; [lia | reflexivity].
Qed.

Lemma hb_HandleRead : hb BOOT_HandleRead (counts bump_read).
Proof.
  unfold BOOT_HandleRead.
  eapply hb_bind; [apply hb_ReceiveData | | reflexivity].
  intros [lenf|] Hlenf; [|apply hb_nack; discriminate].
  cbv zeta.
  destruct (Z.eqb_spec (le32 lenf) 0) as [Hz|Hnz]; cbn [orb];
    [apply hb_nack; discriminate|].
  destruct (Z.gtb_spec (le32 lenf) BOOT_MAX_DATA_SIZE) as [Hbig|Hfit];
    [apply hb_nack; discriminate|].
  pose proof (le32_nonneg lenf Hlenf) as Hpos.
  eapply hb_bind; [apply hb_ReceiveData | | reflexivity].
  intros [addrf|] _; [|apply hb_nack; discriminate].
  eapply hb_bind; [apply hb_keeps_session, ks_Read | | reflexivity].
  intros [st out] _.
  destruct st; try (apply hb_nack; discriminate).
  destruct out as [data_buffer|]; [|apply hb_nack; discriminate].
  eapply hb_bind; [apply hb_SendResponse | | reflexivity].
  intros _ _.
  eapply hb_bind; [apply hb_SendData | | reflexivity].
  intros sent _. destruct sent; try (apply hb_ret; reflexivity).
  eapply hb_bind; [apply hb_SendData | | reflexivity].
  intros _ _.
  intro w. unfold bind, ret. cbn [fst snd counts].
  exists (le32 lenf). split; [lia | reflexivity].
Qed.

Lemma hb_HandleEraseSector (fuel : nat) : hb (BOOT_HandleEraseSector fuel) untouched.
Proof.
  unfold BOOT_HandleEraseSector.
  eapply hb_bind; [apply hb_ReceiveData | | reflexivity].
  intros [addrf|] _; [|apply hb_nack_untouched].
  cbv zeta.
  eapply hb_bind; [apply hb_keeps_session, ks_EraseSector | | reflexivity].
  intros st _. destruct (negb _); [apply hb_nack_untouched|].
  eapply hb_bind; [apply hb_SendResponse | | reflexivity].
  intros _ _. apply hb_ret. reflexivity.
Qed.

Lemma hb_HandleEraseChip (fuel : nat) : hb (BOOT_HandleEraseChip fuel) untouched.
Proof.
  unfold BOOT_HandleEraseChip.
  eapply hb_bind; [apply hb_keeps_session, ks_EraseChip | | reflexivity].
  intros st _. destruct (negb _); [apply hb_nack_untouched|].
  eapply hb_bind; [apply hb_SendResponse | | reflexivity].
  intros _ _. apply hb_ret. reflexivity.
Qed.

Lemma hb_HandleGetInfo : hb BOOT_HandleGetInfo untouched.
Proof.
  unfold BOOT_HandleGetInfo.
  eapply hb_bind; [apply hb_keeps_session, ks_ReadID | | reflexivity].
  intros [st id] _.
  destruct st; try apply hb_nack_untouched.
  destruct id as [[manufacturer_id device_id]|]; [|apply hb_nack_untouched].
  eapply hb_bind; [apply hb_keeps_session, ks_ReadJEDECID | | reflexivity].
  intros [st jd] _.
  destruct st; try apply hb_nack_untouched.
  destruct jd as [jedec_id|]; [|apply hb_nack_untouched].
  cbv zeta.
  eapply hb_bind; [apply hb_SendResponse | | reflexivity].
  intros _ _.
  eapply hb_bind; [apply hb_SendData | | reflexivity].
  intros _ _. apply hb_ret. reflexivity.
Qed.

(** X9.  The session record under the command handlers, whatever is on
    the serial line and however the transports and the flash behave.
    The WRITE handler adds to [total_bytes_written], and the READ handler
    to [total_bytes_read], when it returns [BOOT_OK] and not otherwise:
    a rejected, truncated or failed command, and a READ whose data could
    not be sent, leave the record as it was.  The amount is a length the
    handler accepts (1 to 4096), added modulo 2^32; nothing else in the
    record changes.  The erase and GET_INFO handlers never change it. *)
Theorem handlers_count_successes_only (fuel : nat) (w : World) :
  counts bump_written (fst (BOOT_HandleWrite fuel w)) (hboot w)
    (hboot (exec (BOOT_HandleWrite fuel) w))
  /\ counts bump_read (fst (BOOT_HandleRead w)) (hboot w)
       (hboot (exec BOOT_HandleRead w))
  /\ hboot (exec (BOOT_HandleEraseSector fuel) w) = hboot w
  /\ hboot (exec (BOOT_HandleEraseChip fuel) w) = hboot w
  /\ hboot (exec BOOT_HandleGetInfo w) = hboot w.
Proof.
  split; [apply hb_HandleWrite|].
  split; [apply hb_HandleRead|].
  split; [apply hb_HandleEraseSector|].
  split; [apply hb_HandleEraseChip | apply hb_HandleGetInfo].
Qed.

(* ================================================================== *)
(** ** The bus rules under the protocol engine *)

(** A rule of the SPI bus that does not look at serial transfers, and
    that every driver operation the engine uses keeps ([I] before an
    operation, [K] between the two identification reads, [J] after),
    is kept by [BOOT_Process]. *)
Section EngineOverDriver.

Context {S : Type}.
Variable step_of : S -> Event -> option S.
Variable I : S -> Prop.
Variable K : S -> Prop.
Variable J : S -> Prop.

Hypothesis I_J : forall s, I s -> J s.
Hypothesis K_J : forall s, K s -> J s.
Hypothesis tx_keeps : forall s d ok, step_of s (UART_TX d ok) = Some s.
Hypothesis rx_keeps : forall s d ok, step_of s (UART_RX d ok) = Some s.
Hypothesis H_ReadID :
  forall s, I s -> triple step_of s W25Q128_ReadID (fun _ s' => K s').
Hypothesis H_ReadJEDECID :
  forall s, K s -> triple step_of s W25Q128_ReadJEDECID (fun _ s' => J s').
Hypothesis H_Read :
  forall a n s, I s -> triple step_of s (W25Q128_Read a n) (fun _ s' => J s').
Hypothesis H_Write :
  forall fuel a b n s, I s -> triple step_of s (W25Q128_Write fuel a b n) (fun _ s' => J s').
Hypothesis H_EraseSector :
  forall fuel a s, I s -> triple step_of s (W25Q128_EraseSector fuel a) (fun _ s' => J s').
Hypothesis H_EraseChip :
  forall fuel s, I s -> triple step_of s (W25Q128_EraseChip fuel) (fun _ s' => J s').

Lemma eo_recv (n : Z) (s : S) :
  triple step_of s (BOOT_ReceiveData n) (fun _ s' => s' = s).
Proof.
  apply triple_uart_rx; [discriminate | |];
    intro d; exists s; (split; [apply rx_keeps | reflexivity]).
Qed.

Lemma eo_header (s : S) :
  triple step_of s (HAL_UART_Receive 2 HAL_MAX_DELAY) (fun _ s' => s' = s).
Proof.
  apply triple_uart_rx_wait; [|reflexivity].
  intro d; exists s; (split; [apply rx_keeps | reflexivity]).
Qed.

Lemma eo_send_response (c : Z) (s : S) :
  triple step_of s (BOOT_SendResponse c) (fun _ s' => s' = s).
Proof.
  unfold BOOT_SendResponse.
  eapply triple_bind;
    [ apply (triple_uart_tx step_of s _ (fun _ s' => s' = s)); intro ok; exists s;
      split; [apply tx_keeps | reflexivity]
    | intros ok s1 ->; destruct (negb ok); apply triple_ret; reflexivity
    | intros s1 ->; reflexivity ].
Qed.

Lemma eo_send_data (data : list Z) (n : Z) (s : S) :
  triple step_of s (BOOT_SendData data n) (fun _ s' => s' = s).
Proof.
  unfold BOOT_SendData.
  eapply triple_bind;
    [ apply (triple_uart_tx step_of s _ (fun _ s' => s' = s)); intro ok; exists s;
      split; [apply tx_keeps | reflexivity]
    | intros ok s1 ->; destruct (negb ok); apply triple_ret; reflexivity
    | intros s1 ->; reflexivity ].
Qed.

Lemma eo_answer {A : Type} (c : Z) (a : A) (s : S) :
  J s -> triple step_of s (BOOT_SendResponse c ;; ret a) (fun _ s' => J s').
Proof.
  intro H. eapply triple_bind; [apply eo_send_response | | ].
  - intros _ s1 ->. apply triple_ret. exact H.
  - intros s1 ->. exact H.
Qed.

Lemma eo_payload (n : nat) (s : S) :
  forall acc remaining,
    triple step_of s (BOOT_ReceivePayload n acc remaining) (fun _ s' => s' = s).
Proof.
  induction n as [|n IH]; intros acc remaining; cbn [BOOT_ReceivePayload];
    destruct (remaining >? 0);
    try (apply triple_ret; reflexivity); try (apply triple_spin; reflexivity).
  cbv zeta. eapply triple_bind; [apply eo_recv | | ].
  - intros [chunk|] s1 ->; [apply IH | apply triple_ret; reflexivity].
  - intros s1 ->. reflexivity.
Qed.

(** A receive in a state where [I] holds, with the rest of the handler. *)
Lemma eo_field {A B : Type} (m : M A) (k : A -> M B) (s : S) :
  I s ->
  triple step_of s m (fun _ s' => s' = s) ->
  (forall a, triple step_of s (k a) (fun _ s' => J s')) ->
  triple step_of s (bind m k) (fun _ s' => J s').
Proof.
  intros Hs Hm Hk. eapply triple_bind; [exact Hm | | ].
  - intros a s1 ->. apply Hk.
  - intros s1 ->. apply I_J, Hs.
Qed.

(** A driver call, with the rest of the handler. *)
Lemma eo_call {A B : Type} (P : S -> Prop) (m : M A) (k : A -> M B) (s : S) :
  (forall s', P s' -> J s') ->
  triple step_of s m (fun _ s' => P s') ->
  (forall a s', P s' -> triple step_of s' (k a) (fun _ s'' => J s'')) ->
  triple step_of s (bind m k) (fun _ s' => J s').
Proof.
  intros HP Hm Hk. eapply triple_bind; [exact Hm | | ].
  - intros a s1 H1. apply Hk, H1.
  - intros s1 H1. apply HP, H1.
Qed.

Lemma eo_HandleWrite (fuel : nat) (s : S) :
  I s -> triple step_of s (BOOT_HandleWrite fuel) (fun _ s' => J s').
Proof.
  intro Hs. pose proof (I_J s Hs) as Js. unfold BOOT_HandleWrite.
  apply eo_field; [exact Hs | apply eo_recv|].
  intros [lenf|]; [|apply eo_answer, Js].
  cbv zeta. destruct (_ || _); [apply eo_answer, Js|].
  apply eo_field; [exact Hs | apply eo_recv|].
  intros [addrf|]; [|apply eo_answer, Js].
  apply eo_field; [exact Hs | apply eo_payload|].
  intros [payload|]; [|apply eo_answer, Js].
  apply eo_field; [exact Hs | apply eo_recv|].
  intros [crcf|]; [|apply eo_answer, Js].
  destruct (negb _); [apply eo_answer, Js|].
  apply (eo_call J); [auto | apply H_Write, Hs|].
  intros st s1 J1. destruct (negb _); [apply eo_answer, J1|].
  eapply triple_bind;
    [ apply (triple_silent step_of _ _ tt (fun _ s' => s' = s1)); reflexivity
    | intros _ s2 ->; apply eo_answer, J1
    | intros s2 ->; exact J1 ].
Qed.

Lemma eo_HandleRead (s : S) :
  I s -> triple step_of s BOOT_HandleRead (fun _ s' => J s').
Proof.
  intro Hs. pose proof (I_J s Hs) as Js. unfold BOOT_HandleRead.
  apply eo_field; [exact Hs | apply eo_recv|].
  intros [lenf|]; [|apply eo_answer, Js].
  cbv zeta. destruct (_ || _); [apply eo_answer, Js|].
  apply eo_field; [exact Hs | apply eo_recv|].
  intros [addrf|]; [|apply eo_answer, Js].
  apply (eo_call J); [auto | apply H_Read, Hs|].
  intros [st out] s1 J1.
  destruct st; try apply eo_answer, J1.
  destruct out as [data_buffer|]; [|apply eo_answer, J1].
  eapply triple_bind; [apply eo_send_response | | intros s2 ->; exact J1].
  intros _ s2 ->.
  eapply triple_bind; [apply eo_send_data | | intros s2 ->; exact J1].
  intros sent s2 ->.
  destruct sent; try (apply triple_ret; exact J1).
  eapply triple_bind; [apply eo_send_data | | intros s2 ->; exact J1].
  intros _ s2 ->.
  eapply triple_bind;
    [ apply (triple_silent step_of _ _ tt (fun _ s' => s' = s1)); reflexivity
    | intros _ s2 ->; apply triple_ret; exact J1
    | intros s2 ->; exact J1 ].
Qed.

Lemma eo_HandleEraseSector (fuel : nat) (s : S) :
  I s -> triple step_of s (BOOT_HandleEraseSector fuel) (fun _ s' => J s').
Proof.
  intro Hs. pose proof (I_J s Hs) as Js. unfold BOOT_HandleEraseSector.
  apply eo_field; [exact Hs | apply eo_recv|].
  intros [addrf|]; [|apply eo_answer, Js].
  cbv zeta. apply (eo_call J); [auto | apply H_EraseSector, Hs|].
  intros st s1 J1. destruct (negb _); apply eo_answer, J1.
Qed.

Lemma eo_HandleEraseChip (fuel : nat) (s : S) :
  I s -> triple step_of s (BOOT_HandleEraseChip fuel) (fun _ s' => J s').
Proof.
  intro Hs. unfold BOOT_HandleEraseChip.
  apply (eo_call J); [auto | apply H_EraseChip, Hs|].
  intros st s1 J1. destruct (negb _); apply eo_answer, J1.
Qed.

Lemma eo_HandleGetInfo (s : S) :
  I s -> triple step_of s BOOT_HandleGetInfo (fun _ s' => J s').
Proof.
  intro Hs. unfold BOOT_HandleGetInfo.
  apply (eo_call K); [exact K_J | apply H_ReadID, Hs|].
  intros [st id] s1 K1. pose proof (K_J s1 K1) as J1.
  destruct st; try apply eo_answer, J1.
  destruct id as [[manufacturer_id device_id]|]; [|apply eo_answer, J1].
  apply (eo_call J); [auto | apply H_ReadJEDECID, K1|].
  intros [st jd] s2 J2.
  destruct st; try apply eo_answer, J2.
  destruct jd as [jedec_id|]; [|apply eo_answer, J2].
  cbv zeta.
  eapply triple_bind; [apply eo_send_response | | intros s3 ->; exact J2].
  intros _ s3 ->.
  eapply triple_bind; [apply eo_send_data | | intros s3 ->; exact J2].
  intros _ s3 ->. apply triple_ret. exact J2.
Qed.

Lemma eo_dispatch {A : Type} (m : M A) (s : S) :
  triple step_of s m (fun _ s' => J s') ->
  triple step_of s (m ;; ret tt) (fun _ s' => J s').
Proof.
  intro H. eapply triple_bind; [exact H | | ].
  - intros a s1 J1. apply triple_ret. exact J1.
  - intros s1 J1. exact J1.
Qed.

Lemma eo_Process (fuel : nat) (s : S) :
  I s -> triple step_of s (BOOT_Process fuel) (fun _ s' => J s').
Proof.
  intro Hs. pose proof (I_J s Hs) as Js. unfold BOOT_Process.
  apply eo_field; [exact Hs | apply eo_header|].
  intros [header|]; [|apply triple_ret; exact Js].
  destruct (_ || _); [apply triple_ret; exact Js|].
  apply eo_field; [exact Hs | apply eo_recv|].
  intros [cmd|]; [|apply eo_answer, Js].
  cbv zeta.
  destruct (_ =? BOOT_CMD_WRITE); [apply eo_dispatch, eo_HandleWrite, Hs|].
  destruct (_ =? BOOT_CMD_READ); [apply eo_dispatch, eo_HandleRead, Hs|].
  destruct (_ =? BOOT_CMD_ERASE_SECTOR); [apply eo_dispatch, eo_HandleEraseSector, Hs|].
  destruct (_ =? BOOT_CMD_ERASE_CHIP); [apply eo_dispatch, eo_HandleEraseChip, Hs|].
  destruct (_ =? BOOT_CMD_GET_INFO); [apply eo_dispatch, eo_HandleGetInfo, Hs|].
  apply eo_answer, Js.
Qed.

End EngineOverDriver.

Lemma pg_ReadID : triple pg_step PgIdle W25Q128_ReadID pg_idle.
Proof. unfold W25Q128_ReadID, CS_LOW, CS_HIGH. repeat hal_step. Qed.

Lemma pg_ReadJEDECID : triple pg_step PgIdle W25Q128_ReadJEDECID pg_idle.
Proof. unfold W25Q128_ReadJEDECID, CS_LOW, CS_HIGH. repeat hal_step. Qed.

Lemma pg_Read (address length : Z) :
  triple pg_step PgIdle (W25Q128_Read address length) pg_idle.
Proof. unfold W25Q128_Read, CS_LOW, CS_HIGH. repeat hal_step. Qed.

Lemma pg_EraseSector (fuel : nat) (a : Z) :
  triple pg_step PgIdle (W25Q128_EraseSector fuel a) pg_idle.
Proof.
  unfold W25Q128_EraseSector. apply pg_then; [apply pg_WriteEnable|]. intro we.
  destruct (is_OK we); cbn [negb]; [|hal_step].
  unfold CS_LOW, CS_HIGH. repeat hal_step. apply pg_WaitForWriteEnd.
Qed.

Lemma pg_EraseChip (fuel : nat) :
  triple pg_step PgIdle (W25Q128_EraseChip fuel) pg_idle.
Proof.
  unfold W25Q128_EraseChip. apply pg_then; [apply pg_WriteEnable|]. intro we.
  destruct (is_OK we); cbn [negb]; [|hal_step].
  unfold CS_LOW, CS_HIGH. repeat hal_step. apply pg_WaitForWriteEnd.
Qed.

Lemma cs_Process (fuel : nat) :
  triple cs_step false (BOOT_Process fuel) (fun _ s => s = false).
Proof.
  apply (eo_Process cs_step (fun s => s = false) (fun s => s = false)
           (fun s => s = false)); auto.
  - intros s ->. apply cs_ReadID.
  - intros s ->. apply cs_ReadJEDECID.
  - intros a n s ->. apply cs_Read.
  - intros f a b n s ->. apply cs_Write_loop.
  - intros f a s ->. apply cs_EraseSector.
  - intros f s ->. apply cs_EraseChip.
Qed.

Lemma we_Process (fuel : nat) :
  triple we_step (mkWe false None None) (BOOT_Process fuel)
    (fun _ s => we_fresh s = false).
Proof.
  apply (eo_Process we_step
           (fun s => we_fresh s = false /\ is_write_enable (we_prev1 s) = false)
           (fun s => we_fresh s = false)
           (fun s => we_fresh s = false)); auto.
  - intros s [H _]. exact H.
  - intros [f p2 p1] [Hf _]. cbn in Hf. subst f. apply we_ReadID.
  - intros [f p2 p1] Hf. cbn in Hf. subst f. apply we_ReadJEDECID.
  - intros a n [f p2 p1] [Hf _]. cbn in Hf. subst f. apply we_Read.
  - intros f a b n [f0 p2 p1] [Hf Hq]. cbn in Hf, Hq. subst f0.
    eapply triple_weaken; [apply we_Write_loop; exact Hq|].
    intros r s' [H _]. exact H.
  - intros f a [f0 p2 p1] [Hf Hq]. cbn in Hf, Hq. subst f0.
    eapply triple_weaken; [apply we_EraseSector; exact Hq|].
    intros r s' [H _]. exact H.
  - intros f [f0 p2 p1] [Hf Hq]. cbn in Hf, Hq. subst f0.
    eapply triple_weaken; [apply we_EraseChip; exact Hq|].
    intros r s' [H _]. exact H.
Qed.

Lemma pg_Process (fuel : nat) :
  triple pg_step PgIdle (BOOT_Process fuel) (fun _ s => s = PgIdle).
Proof.
  apply (eo_Process pg_step (fun s => s = PgIdle) (fun s => s = PgIdle)
           (fun s => s = PgIdle)); auto.
  - intros s ->. apply pg_ReadID.
  - intros s ->. apply pg_ReadJEDECID.
  - intros a n s ->. apply pg_Read.
  - intros f a b n s ->. apply pg_Write_loop.
  - intros f a s ->. apply pg_EraseSector.
  - intros f s ->. apply pg_EraseChip.
Qed.

(** X10.  The bus rules hold for whole commands.  Whatever the host
    sends and however the transports and the flash behave, the HAL calls
    of one call of [BOOT_Process] keep the chip-select discipline and end
    with the flash deselected; every page program and erase among them
    comes right after exactly one write-enable; and every page program
    stays inside one 256-byte page. *)
Theorem BOOT_Process_keeps_the_bus_rules (fuel : nat) (w : World) :
  exists evs,
    log (exec (BOOT_Process fuel) w) = log w ++ evs
    /\ cs_disciplined evs
    /\ write_enable_paired None None (opcodes false evs) = true
    /\ Forall within_page (wire_programs PgIdle evs).
Proof.
  destruct (cs_Process fuel w) as [evs [L [s1 [R1 E1]]]].
  destruct (we_Process fuel w) as [evs2 [L2 [s2 [R2 _]]]].
  destruct (pg_Process fuel w) as [evs3 [L3 [s3 [R3 _]]]].
  unfold exec. rewrite L in L2, L3.
  apply app_inv_head in L2. apply app_inv_head in L3. subst evs2 evs3.
  exists evs. split; [exact L|]. split; [|split].
  - unfold cs_disciplined. rewrite R1, E1. reflexivity.
  - exact (we_run_paired evs _ _ R2).
  - exact (pg_run_within_page evs _ _ R3).
Qed.

(* ================================================================== *)
(** ** Whole commands *)

Lemma map_u8_id (l : list Z) : Forall is_byte l -> map u8 l = l.
Proof.
  induction 1 as [|x l Hx _ IH]; [reflexivity|].
  cbn [map]. rewrite IH, (u8_of_byte x Hx). reflexivity.
Qed.

Lemma le32_bytes_are_bytes (v : Z) : Forall is_byte (le32_bytes v).
Proof. unfold le32_bytes. repeat constructor; apply byte_land. Qed.

Lemma le32_le32_bytes (v : Z) : 0 <= v < 4294967296 -> le32 (le32_bytes v) = v.
Proof.
  intro H. unfold le32_bytes.
  rewrite le32_sum by apply byte_land. apply le32_bytes_sum. exact H.
Qed.

Lemma send_data_run (data : list Z) (n : Z) e i l p h :
  BOOT_SendData data n (mkWorld e i l p h)
  = (Some (if uart_tx_ok e (length l) then BOOT_OK else BOOT_ERROR),
     mkWorld e i
       (l ++ [UART_TX (firstn (Z.to_nat (u16 n)) data) (uart_tx_ok e (length l))]) p h).
Proof.
  unfold BOOT_SendData, HAL_UART_Transmit, bind, ret, emit, step.
  cbn [env uart_in log page_calls hboot].
  destruct (uart_tx_ok e (length l)); reflexivity.
Qed.

Lemma W25Q128_Read_sound (address len : Z) e i l p h :
  spi_sound e ->
  0 <= len < 65536 ->
  exists data,
    Z.of_nat (length data) = len
    /\ W25Q128_Read address len (mkWorld e i l p h)
       = (Some (W25Q128_OK, Some data),
          mkWorld e i
            (l ++ [GPIO_CS false; SPI_TX (cmd_addr W25Q128_CMD_READ_DATA address) true;
                   SPI_RX data true; GPIO_CS true]) p h).
Proof.
  intros Hs Hlen.
  unfold W25Q128_Read, CS_LOW, CS_HIGH, HAL_GPIO_WritePin,
    HAL_SPI_Transmit, HAL_SPI_Receive, bind, ret, emit, step.
  cbn [env uart_in log page_calls hboot fst snd].
  unfold spi_sound in Hs.
  repeat (rewrite Hs; cbn [negb env uart_in log page_calls hboot fst snd]).
  eexists. split; [|rewrite <- !app_assoc; reflexivity].
  rewrite length_map, length_seq, u16_small by exact Hlen. lia.
Qed.

(** X11.  A READ frame for [len] bytes (1 to 4096) at [address], on
    transports that do not fail: the engine takes the frame and nothing
    more off the line, reads [len] bytes from the flash in one
    read-data transaction at the low 24 bits of [address], and answers
    ACK, the bytes as the flash gave them, and their CRC-16 low byte
    first; [total_bytes_read] grows by [len]. *)
Theorem READ_returns_the_flash_bytes
  (fuel : nat) (w : World) (address len : Z) (rest : list Z) :
  uart_in w = read_frame address len ++ rest ->
  0 < len <= BOOT_MAX_DATA_SIZE ->
  0 <= address < 4294967296 ->
  spi_sound (env w) ->
  uart_sound (env w) ->
  exists data,
    Z.of_nat (length data) = len
    /\ BOOT_Process fuel w
       = (Some tt,
          mkWorld (env w) rest
            (log w
             ++ header_rx BOOT_CMD_READ
             ++ [UART_RX (le32_bytes len) true; UART_RX (le32_bytes address) true;
                 GPIO_CS false; SPI_TX (cmd_addr W25Q128_CMD_READ_DATA address) true;
                 SPI_RX data true; GPIO_CS true;
                 UART_TX [BOOT_ACK] true; UART_TX data true;
                 UART_TX (le16_bytes (BOOT_CalculateCRC16 data len)) true])
            (page_calls w) (bump_read len (hboot w))).
Proof.
  intros Hin Hlen Haddr Hspi Huart.
  rewrite (BOOT_Process_header fuel w BOOT_CMD_READ
             (le32_bytes len ++ le32_bytes address ++ rest))
    by (rewrite Hin; unfold read_frame; rewrite <- !app_assoc; reflexivity).
  change (u8 BOOT_CMD_READ) with BOOT_CMD_READ. cbv zeta.
  change (BOOT_CMD_READ =? BOOT_CMD_WRITE) with false.
  change (BOOT_CMD_READ =? BOOT_CMD_READ) with true. cbv iota.
  unfold after_frame_header.
  destruct w as [e i l p h]. cbn [env uart_in log page_calls hboot] in *.
  unfold bind at 1. unfold BOOT_HandleRead, BOOT_ReceiveData. unfold bind at 1.
  rewrite uart_receive_enough by reflexivity.
  rewrite (map_u8_id _ (le32_bytes_are_bytes len)).
  cbv zeta. rewrite (le32_le32_bytes len) by (unfold BOOT_MAX_DATA_SIZE in Hlen; lia).
  replace ((len =? 0) || (len >? BOOT_MAX_DATA_SIZE)) with false.
  2:{ symmetry. apply orb_false_iff. split.
      - apply Z.eqb_neq. lia.
      - rewrite Z.gtb_ltb. apply Z.ltb_ge. lia. }
  unfold bind at 1. rewrite uart_receive_enough by reflexivity.
  rewrite (map_u8_id _ (le32_bytes_are_bytes address)).
  rewrite (le32_le32_bytes address Haddr).
  match goal with
  | |- context [mkWorld e rest ?l1 p h] =>
      destruct (W25Q128_Read_sound address len e rest l1 p h Hspi
                  ltac:(unfold BOOT_MAX_DATA_SIZE in Hlen; lia))
        as [data [Hd E]]
  end.
  exists data. split; [exact Hd|].
  unfold bind at 1. rewrite E.
  unfold bind at 1. rewrite send_response_run, Huart.
  unfold bind at 1. rewrite send_data_run, Huart.
  unfold bind at 1. rewrite send_data_run, Huart.
  unfold bind, ret, set_hboot. cbn [fst snd env uart_in log page_calls hboot].
  change (Z.to_nat (u16 2)) with 2%nat. cbn [firstn].
  rewrite (u16_small len) by (unfold BOOT_MAX_DATA_SIZE in Hlen; lia).
  rewrite <- Hd, Nat2Z.id, firstn_all.
  unfold header_rx, le16_bytes, bump_read.
  rewrite <- !app_assoc. reflexivity.
Qed.

Lemma READ_returns_the_flash_bytes_witness :
  exists data,
    Z.of_nat (length data) = 4
    /\ BOOT_Process 1 (fresh_world deadbeef_env (read_frame 0x1000 4 ++ []))
       = (Some tt,
          mkWorld deadbeef_env []
            ([]
             ++ header_rx BOOT_CMD_READ
             ++ [UART_RX (le32_bytes 4) true; UART_RX (le32_bytes 0x1000) true;
                 GPIO_CS false; SPI_TX (cmd_addr W25Q128_CMD_READ_DATA 0x1000) true;
                 SPI_RX data true; GPIO_CS true;
                 UART_TX [BOOT_ACK] true; UART_TX data true;
                 UART_TX (le16_bytes (BOOT_CalculateCRC16 data 4)) true])
            [] (bump_read 4 (mkBoot (repeat 0 (Z.to_nat BOOT_BUFFER_SIZE)) 0 0))).
Proof.
  apply (READ_returns_the_flash_bytes 1
           (fresh_world deadbeef_env (read_frame 0x1000 4 ++ [])) 0x1000 4 []).
  - reflexivity.
  - unfold BOOT_MAX_DATA_SIZE. lia.
  - lia.
  - intro s. reflexivity.
  - intro s. reflexivity.
Defined.

Lemma W25Q128_EraseSector_idle (fuel : nat) (a : Z) e i l p h :
  spi_sound e ->
  flash_idle e ->
  exists t0 st t1,
    W25Q128_EraseSector (S fuel) a (mkWorld e i l p h)
    = (Some W25Q128_OK,
       mkWorld e i
         (l ++ write_enable_ok
            ++ [GPIO_CS false; SPI_TX (cmd_addr W25Q128_CMD_SECTOR_ERASE_4KB a) true;
                GPIO_CS true]
            ++ idle_wait t0 st t1) p h).
Proof.
  intros Hs Hi. unfold W25Q128_EraseSector. unfold bind at 1.
  rewrite W25Q128_WriteEnable_sound by exact Hs. cbn [is_OK negb].
  unfold CS_LOW, CS_HIGH, HAL_GPIO_WritePin, HAL_SPI_Transmit, bind, emit, step.
  cbn [env uart_in log page_calls hboot fst snd].
  rewrite (Hs _). cbn [negb env uart_in log page_calls hboot fst snd].
  match goal with
  | |- context [W25Q128_WaitForWriteEnd (S fuel) (mkWorld e i ?l1 p h)] =>
      destruct (W25Q128_WaitForWriteEnd_idle fuel e i l1 p h Hs Hi)
        as [t0 [st [t1 E]]]
  end.
  exists t0, st, t1. rewrite E. rewrite <- !app_assoc. reflexivity.
Qed.

Lemma W25Q128_EraseChip_idle (fuel : nat) e i l p h :
  spi_sound e ->
  flash_idle e ->
  exists t0 st t1,
    W25Q128_EraseChip (S fuel) (mkWorld e i l p h)
    = (Some W25Q128_OK,
       mkWorld e i
         (l ++ write_enable_ok
            ++ [GPIO_CS false; SPI_TX [W25Q128_CMD_CHIP_ERASE] true; GPIO_CS true]
            ++ idle_wait t0 st t1) p h).
Proof.
  intros Hs Hi. unfold W25Q128_EraseChip. unfold bind at 1.
  rewrite W25Q128_WriteEnable_sound by exact Hs. cbn [is_OK negb].
  unfold CS_LOW, CS_HIGH, HAL_GPIO_WritePin, HAL_SPI_Transmit, bind, emit, step.
  cbn [env uart_in log page_calls hboot fst snd].
  rewrite (Hs _). cbn [negb env uart_in log page_calls hboot fst snd].
  match goal with
  | |- context [W25Q128_WaitForWriteEnd (S fuel) (mkWorld e i ?l1 p h)] =>
      destruct (W25Q128_WaitForWriteEnd_idle fuel e i l1 p h Hs Hi)
        as [t0 [st [t1 E]]]
  end.
  exists t0, st, t1. rewrite E. rewrite <- !app_assoc. reflexivity.
Qed.

(** X12.  An ERASE_SECTOR frame for [address], with SPI transfers that
    do not fail and a flash that is found idle: the engine takes the
    frame and nothing more off the line, issues a write-enable, then the
    4 KiB sector erase with the low 24 bits of [address] as received (no
    alignment or range check comes between), waits with one status
    poll, and answers ACK; the session record is unchanged. *)
Theorem ERASE_SECTOR_erases_and_acknowledges
  (fuel : nat) (w : World) (address : Z) (rest : list Z) :
  uart_in w = erase_sector_frame address ++ rest ->
  0 <= address < 4294967296 ->
  spi_sound (env w) ->
  flash_idle (env w) ->
  exists t0 st t1 ok,
    BOOT_Process (S fuel) w
    = (Some tt,
       mkWorld (env w) rest
         (log w
          ++ header_rx BOOT_CMD_ERASE_SECTOR
          ++ [UART_RX (le32_bytes address) true]
          ++ write_enable_ok
          ++ [GPIO_CS false;
              SPI_TX (cmd_addr W25Q128_CMD_SECTOR_ERASE_4KB address) true;
              GPIO_CS true]
          ++ idle_wait t0 st t1
          ++ [UART_TX [BOOT_ACK] ok])
         (page_calls w) (hboot w)).
Proof.
  intros Hin Haddr Hspi Hidle.
  rewrite (BOOT_Process_header (S fuel) w BOOT_CMD_ERASE_SECTOR
             (le32_bytes address ++ rest))
    by (rewrite Hin; unfold erase_sector_frame; rewrite <- !app_assoc; reflexivity).
  change (u8 BOOT_CMD_ERASE_SECTOR) with BOOT_CMD_ERASE_SECTOR. cbv zeta.
  change (BOOT_CMD_ERASE_SECTOR =? BOOT_CMD_WRITE) with false.
  change (BOOT_CMD_ERASE_SECTOR =? BOOT_CMD_READ) with false.
  change (BOOT_CMD_ERASE_SECTOR =? BOOT_CMD_ERASE_SECTOR) with true. cbv iota.
  unfold after_frame_header.
  destruct w as [e i l p h]. cbn [env uart_in log page_calls hboot] in *.
  unfold bind at 1. unfold BOOT_HandleEraseSector, BOOT_ReceiveData. unfold bind at 1.
  rewrite uart_receive_enough by reflexivity.
  rewrite (map_u8_id _ (le32_bytes_are_bytes address)).
  cbv zeta. rewrite (le32_le32_bytes address Haddr).
  match goal with
  | |- context [mkWorld e rest ?l1 p h] =>
      destruct (W25Q128_EraseSector_idle fuel address e rest l1 p h Hspi Hidle)
        as [t0 [st [t1 E]]]
  end.
  exists t0, st, t1. eexists.
  unfold bind at 1. rewrite E. cbn [is_OK negb].
  unfold bind at 1. rewrite send_response_run.
  unfold ret, header_rx. rewrite <- !app_assoc. reflexivity.
Qed.

Lemma ERASE_SECTOR_erases_and_acknowledges_witness :
  exists t0 st t1 ok,
    BOOT_Process 1 (fresh_world calm_env (erase_sector_frame 0x12345 ++ []))
    = (Some tt,
       mkWorld calm_env []
         ([]
          ++ header_rx BOOT_CMD_ERASE_SECTOR
          ++ [UART_RX (le32_bytes 0x12345) true]
          ++ write_enable_ok
          ++ [GPIO_CS false;
              SPI_TX (cmd_addr W25Q128_CMD_SECTOR_ERASE_4KB 0x12345) true;
              GPIO_CS true]
          ++ idle_wait t0 st t1
          ++ [UART_TX [BOOT_ACK] ok])
         [] (mkBoot (repeat 0 (Z.to_nat BOOT_BUFFER_SIZE)) 0 0)).
Proof.
  apply (ERASE_SECTOR_erases_and_acknowledges 0
           (fresh_world calm_env (erase_sector_frame 0x12345 ++ [])) 0x12345 []).
  - reflexivity.
  - lia.
  - intro s. reflexivity.
  - split; intro s; vm_compute; [reflexivity | discriminate].
Defined.

(** X13.  An ERASE_CHIP frame, with SPI transfers that do not fail and a
    flash that is found idle: after the three header bytes the engine
    issues a write-enable and the chip erase, waits with one status
    poll, and answers ACK; nothing after the header is taken off the
    line, and the session record is unchanged. *)
Theorem ERASE_CHIP_erases_and_acknowledges (fuel : nat) (w : World) (rest : list Z) :
  uart_in w = erase_chip_frame ++ rest ->
  spi_sound (env w) ->
  flash_idle (env w) ->
  exists t0 st t1 ok,
    BOOT_Process (S fuel) w
    = (Some tt,
       mkWorld (env w) rest
         (log w
          ++ header_rx BOOT_CMD_ERASE_CHIP
          ++ write_enable_ok
          ++ [GPIO_CS false; SPI_TX [W25Q128_CMD_CHIP_ERASE] true; GPIO_CS true]
          ++ idle_wait t0 st t1
          ++ [UART_TX [BOOT_ACK] ok])
         (page_calls w) (hboot w)).
Proof.
  intros Hin Hspi Hidle.
  rewrite (BOOT_Process_header (S fuel) w BOOT_CMD_ERASE_CHIP rest)
    by (rewrite Hin; reflexivity).
  change (u8 BOOT_CMD_ERASE_CHIP) with BOOT_CMD_ERASE_CHIP. cbv zeta.
  change (BOOT_CMD_ERASE_CHIP =? BOOT_CMD_WRITE) with false.
  change (BOOT_CMD_ERASE_CHIP =? BOOT_CMD_READ) with false.
  change (BOOT_CMD_ERASE_CHIP =? BOOT_CMD_ERASE_SECTOR) with false.
  change (BOOT_CMD_ERASE_CHIP =? BOOT_CMD_ERASE_CHIP) with true. cbv iota.
  unfold after_frame_header.
  destruct w as [e i l p h]. cbn [env uart_in log page_calls hboot] in *.
  unfold bind at 1. unfold BOOT_HandleEraseChip.
  match goal with
  | |- context [mkWorld e rest ?l1 p h] =>
      destruct (W25Q128_EraseChip_idle fuel e rest l1 p h Hspi Hidle)
        as [t0 [st [t1 E]]]
  end.
  exists t0, st, t1. eexists.
  unfold bind at 1. rewrite E. cbn [is_OK negb].
  unfold bind at 1. rewrite send_response_run.
  unfold ret, header_rx. rewrite <- !app_assoc. reflexivity.
Qed.

Lemma ERASE_CHIP_erases_and_acknowledges_witness :
  exists t0 st t1 ok,
    BOOT_Process 1 (fresh_world calm_env (erase_chip_frame ++ []))
    = (Some tt,
       mkWorld calm_env []
         ([]
          ++ header_rx BOOT_CMD_ERASE_CHIP
          ++ write_enable_ok
          ++ [GPIO_CS false; SPI_TX [W25Q128_CMD_CHIP_ERASE] true; GPIO_CS true]
          ++ idle_wait t0 st t1
          ++ [UART_TX [BOOT_ACK] ok])
         [] (mkBoot (repeat 0 (Z.to_nat BOOT_BUFFER_SIZE)) 0 0)).
Proof.
  apply (ERASE_CHIP_erases_and_acknowledges 0
           (fresh_world calm_env (erase_chip_frame ++ [])) []).
  - reflexivity.
  - intro s. reflexivity.
  - split; intro s; vm_compute; [reflexivity | discriminate].
Defined.

Lemma run_wb_uart_rx (rx : list Event) (s : PgState * list (Z * Z)) :
  Forall is_uart_rx rx -> run wb_step s rx = Some s.
Proof.
  induction 1 as [|ev rx [d ->] _ IH]; [reflexivity|].
  cbn [run wb_step]. exact IH.
Qed.

Lemma uart_sent_rx (rx : list Event) : Forall is_uart_rx rx -> uart_sent rx = [].
Proof.
  induction 1 as [|ev rx [d ->] _ IH]; [reflexivity|].
  cbn [uart_sent]. exact IH.
Qed.

Lemma uart_sent_not_uart (evs : list Event) : Forall not_uart evs -> uart_sent evs = [].
Proof.
  induction 1 as [|ev evs H _ IH]; [reflexivity|].
  destruct ev; cbn [uart_sent not_uart] in *; try exact IH; contradiction.
Qed.

Lemma le16_crc_trailer (data : list Z) (n : Z) :
  le16 (map u8 [Z.land (BOOT_CalculateCRC16 data n) 0xFF;
                Z.land (Z.shiftr (BOOT_CalculateCRC16 data n) 8) 0xFF])
  = BOOT_CalculateCRC16 data n.
Proof.
  pose proof (BOOT_CalculateCRC16_u16 data n) as H. unfold is_u16 in H.
  cbn [map]. rewrite !u8_of_byte by apply byte_land.
  rewrite le16_sum by apply byte_land.
  apply le16_bytes_sum. exact H.
Qed.

(** X14.  A WRITE frame carrying [payload] (1 to 4096 bytes) for
    [address] with the right CRC, with SPI transfers that do not fail
    and a flash that is found idle after each page: the engine takes the
    frame and nothing more off the line, hands the payload to the flash
    byte for byte, byte [i] at [address + i] (in the 24 bits of address
    the commands carry), transmits nothing before the single ACK that
    ends the command, and adds the payload's length to
    [total_bytes_written]. *)
Theorem WRITE_programs_the_payload
  (fuel : nat) (w : World) (address : Z) (payload rest : list Z) :
  uart_in w = write_frame address payload ++ rest ->
  Forall is_byte payload ->
  0 < Z.of_nat (length payload) <= BOOT_MAX_DATA_SIZE ->
  0 <= address < 4294967296 ->
  spi_sound (env w) ->
  flash_idle (env w) ->
  exists evs ok p',
    BOOT_Process (S fuel) w
    = (Some tt,
       mkWorld (env w) rest (log w ++ evs ++ [UART_TX [BOOT_ACK] ok]) p'
         (bump_written (Z.of_nat (length payload)) (hboot w)))
    /\ uart_sent evs = []
    /\ programmed evs = image address payload.
Proof.
  intros Hin Hbytes Hlen Haddr Hspi Hidle.
  set (n := Z.of_nat (length payload)) in *.
  set (crc := BOOT_CalculateCRC16 payload n).
  assert (Hn : 0 <= n < 4294967296) by (unfold BOOT_MAX_DATA_SIZE in Hlen; lia).
  rewrite (BOOT_Process_header (S fuel) w BOOT_CMD_WRITE
             (le32_bytes n ++ le32_bytes address ++ payload
              ++ [Z.land crc 0xFF; Z.land (Z.shiftr crc 8) 0xFF] ++ rest))
    by (rewrite Hin; unfold write_frame; fold n; fold crc;
        rewrite <- !app_assoc; reflexivity).
  change (u8 BOOT_CMD_WRITE) with BOOT_CMD_WRITE. cbv zeta.
  change (BOOT_CMD_WRITE =? BOOT_CMD_WRITE) with true. cbv iota.
  unfold after_frame_header.
  destruct w as [e i l p h]. cbn [env uart_in log page_calls hboot] in *.
  unfold bind at 1. unfold BOOT_HandleWrite, BOOT_ReceiveData. unfold bind at 1.
  rewrite uart_receive_enough by reflexivity.
  rewrite (map_u8_id _ (le32_bytes_are_bytes n)).
  cbv zeta. rewrite (le32_le32_bytes n Hn).
  replace ((n =? 0) || (n >? BOOT_MAX_DATA_SIZE)) with false.
  2:{ symmetry. apply orb_false_iff. split.
      - apply Z.eqb_neq. lia.
      - rewrite Z.gtb_ltb. apply Z.ltb_ge. lia. }
  unfold bind at 1. rewrite uart_receive_enough by reflexivity.
  rewrite (map_u8_id _ (le32_bytes_are_bytes address)).
  rewrite (le32_le32_bytes address Haddr).
  unfold n at 1. rewrite Nat2Z.id.
  match goal with
  | |- context [mkWorld e (payload ++ _) ?l1 p h] =>
      destruct (BOOT_ReceivePayload_complete (length payload) payload []
                  ([Z.land crc 0xFF; Z.land (Z.shiftr crc 8) 0xFF] ++ rest)
                  e l1 p h (le_n _))
        as [rx [E F]]
  end.
  fold n in E.
  unfold bind at 1. rewrite E. cbn [app].
  rewrite (map_u8_id _ Hbytes).
  unfold bind at 1.
  change (Z.land crc 0xFF :: Z.land (Z.shiftr crc 8) 0xFF :: rest)
    with ([Z.land crc 0xFF; Z.land (Z.shiftr crc 8) 0xFF] ++ rest).
  rewrite uart_receive_enough by reflexivity.
  unfold crc at 1 2. rewrite le16_crc_trailer. fold crc.
  rewrite Z.eqb_refl. cbn [negb].
  match goal with
  | |- context [mkWorld e rest ?l1 p h] =>
      set (l5 := l1);
      destruct (W25Q128_Write_loop_idle (Z.to_nat n) fuel address payload n
                  e rest l5 p h Hspi Hidle ltac:(lia))
        as [evsW [p' EW]];
      destruct (wb_Write_loop (Z.to_nat n) (S fuel) address payload n []
                  ltac:(unfold n; lia) (mkWorld e rest l5 p h))
        as [evs1 [L1 [s1 [R1 [k [Hk [Es1 Hok]]]]]]];
      destruct (nu_Write_loop (Z.to_nat n) (S fuel) address payload n
                  (mkWorld e rest l5 p h))
        as [evs2 [L2 [s2 [R2 _]]]]
  end.
  rewrite EW in L1, L2, Hok. cbn [fst snd log] in L1, L2, Hok.
  apply app_inv_head in L1. apply app_inv_head in L2. subst evs1 evs2.
  specialize (Hok eq_refl). subst k s1.
  unfold n in R1. rewrite Nat2Z.id, firstn_all in R1. cbn [app] in R1.
  unfold bind at 1. unfold W25Q128_Write. rewrite EW. cbn [is_OK negb].
  unfold bind at 1. unfold set_hboot.
  cbn [fst snd env uart_in log page_calls hboot].
  unfold bind at 1. rewrite send_response_run. unfold ret.
  set (pre := header_rx BOOT_CMD_WRITE
                ++ [UART_RX (le32_bytes n) true; UART_RX (le32_bytes address) true]
                ++ rx
                ++ [UART_RX [Z.land crc 0xFF; Z.land (Z.shiftr crc 8) 0xFF] true]).
  assert (Frx : Forall is_uart_rx pre).
  { subst pre. unfold header_rx. cbn [app].
    repeat (constructor; [eexists; reflexivity|]).
    apply Forall_app. split; [exact F|].
    constructor; [eexists; reflexivity | constructor]. }
  exists (pre ++ evsW). eexists. exists p'.
  split; [|split].
  - subst l5 pre. unfold header_rx, bump_written.
    rewrite (map_u8_id [Z.land crc 0xFF; Z.land (Z.shiftr crc 8) 0xFF])
      by (repeat constructor; apply byte_land).
    rewrite <- !app_assoc. cbn [app]. rewrite <- ?app_assoc. reflexivity.
  - rewrite uart_sent_app, (uart_sent_rx _ Frx).
    rewrite (uart_sent_not_uart _ (nu_run_not_uart _ _ _ R2)). reflexivity.
  - unfold programmed. rewrite run_app, (run_wb_uart_rx _ _ Frx), R1. reflexivity.
Qed.

Lemma WRITE_programs_the_payload_witness :
  exists evs ok p',
    BOOT_Process 1
      (fresh_world calm_env (write_frame 0x1234FE [0x11; 0x22; 0x33; 0x44] ++ []))
    = (Some tt,
       mkWorld calm_env [] ([] ++ evs ++ [UART_TX [BOOT_ACK] ok]) p'
         (bump_written (Z.of_nat (length [0x11; 0x22; 0x33; 0x44]))
            (mkBoot (repeat 0 (Z.to_nat BOOT_BUFFER_SIZE)) 0 0)))
    /\ uart_sent evs = []
    /\ programmed evs = image 0x1234FE [0x11; 0x22; 0x33; 0x44].
Proof.
  apply (WRITE_programs_the_payload 0
           (fresh_world calm_env (write_frame 0x1234FE [0x11; 0x22; 0x33; 0x44] ++ []))
           0x1234FE [0x11; 0x22; 0x33; 0x44] []).
  - reflexivity.
  - repeat constructor; unfold is_byte; lia.
  - cbn [length]. unfold BOOT_MAX_DATA_SIZE. lia.
  - lia.
  - intro s. reflexivity.
  - split; intro s; vm_compute; [reflexivity | discriminate].
Defined.

(** X15.  A frame whose command byte is none of the five the dispatcher
    knows (0x06, which the protocol header names VERIFY, is one such):
    the engine takes the two markers and the command byte off the line,
    sends the single byte NACK and returns; what follows the command
    byte is still unread, the flash has not been touched and the
    session record is unchanged. *)
Theorem unknown_command_is_refused (fuel : nat) (w : World) (c : Z) (rest : list Z) :
  uart_in w = BOOT_START_MARKER1 :: BOOT_START_MARKER2 :: c :: rest ->
  ~ In (u8 c) [BOOT_CMD_WRITE; BOOT_CMD_READ; BOOT_CMD_ERASE_SECTOR;
               BOOT_CMD_ERASE_CHIP; BOOT_CMD_GET_INFO] ->
  BOOT_Process fuel w
  = (Some tt,
     mkWorld (env w) rest
       (log w ++ header_rx (u8 c)
          ++ [UART_TX [BOOT_NACK] (uart_tx_ok (env w) (step w + 2))])
       (page_calls w) (hboot w)).
Proof.
  intros Hin Hc.
  rewrite (BOOT_Process_header fuel w c rest Hin). cbv zeta.
  repeat match goal with
         | |- context [u8 c =? ?k] =>
             destruct (Z.eqb_spec (u8 c) k) as [E|_];
             [exfalso; apply Hc; rewrite E; cbn [In]; tauto|]
         end.
  unfold after_frame_header, header_rx.
  destruct w as [e i l p h]. cbn [env uart_in log page_calls hboot step].
  unfold bind at 1. rewrite send_response_run. unfold ret.
  rewrite length_app. cbn [length].
  rewrite <- !app_assoc. reflexivity.
Qed.

Lemma unknown_command_is_refused_witness :
  BOOT_Process 1
    (fresh_world quiet_env [BOOT_START_MARKER1; BOOT_START_MARKER2; 0x06; 0x01; 0x02])
  = (Some tt,
     mkWorld quiet_env [0x01; 0x02]
       ([] ++ header_rx (u8 0x06) ++ [UART_TX [BOOT_NACK] true])
       [] (mkBoot (repeat 0 (Z.to_nat BOOT_BUFFER_SIZE)) 0 0)).
Proof.
  apply (unknown_command_is_refused 1
           (fresh_world quiet_env
              [BOOT_START_MARKER1; BOOT_START_MARKER2; 0x06; 0x01; 0x02])
           0x06 [0x01; 0x02]).
  - reflexivity.
  - vm_compute. intros [H|[H|[H|[H|[H|[]]]]]]; discriminate H.
Defined.

(** X16.  GET_INFO when the bus fails.  After the header the engine
    runs the two identification transactions.  If no SPI transfer
    fails, it answers ACK followed by one block of 13 bytes.  If one
    fails, that transfer is the last on the bus: the engine releases
    chip-select, answers the single byte NACK and returns, so a failed
    first read is not followed by the JEDEC read.  In both cases nothing
    after the header is taken off the line. *)
Theorem GET_INFO_gives_up_at_the_first_failed_transfer
  (fuel : nat) (w : World) (rest : list Z) :
  uart_in w = BOOT_START_MARKER1 :: BOOT_START_MARKER2 :: BOOT_CMD_GET_INFO :: rest ->
  exists evs,
    log (exec (BOOT_Process fuel) w) = log w ++ header_rx BOOT_CMD_GET_INFO ++ evs
    /\ fst (BOOT_Process fuel w) = Some tt
    /\ uart_in (exec (BOOT_Process fuel) w) = rest
    /\ if spi_failed evs
       then exists pre ev ok,
              evs = pre ++ [ev; GPIO_CS true; UART_TX [BOOT_NACK] ok]
              /\ spi_failed pre = false
              /\ spi_failed [ev] = true
       else exists pre info ok1 ok2,
              evs = pre ++ [UART_TX [BOOT_ACK] ok1; UART_TX info ok2]
              /\ length info = 13%nat
              /\ uart_sent pre = [].
Proof.
  intro Hin. unfold exec.
  rewrite (BOOT_Process_header fuel w BOOT_CMD_GET_INFO rest Hin).
  change (u8 BOOT_CMD_GET_INFO) with BOOT_CMD_GET_INFO. cbv zeta.
  change (BOOT_CMD_GET_INFO =? BOOT_CMD_WRITE) with false.
  change (BOOT_CMD_GET_INFO =? BOOT_CMD_READ) with false.
  change (BOOT_CMD_GET_INFO =? BOOT_CMD_ERASE_SECTOR) with false.
  change (BOOT_CMD_GET_INFO =? BOOT_CMD_ERASE_CHIP) with false.
  change (BOOT_CMD_GET_INFO =? BOOT_CMD_GET_INFO) with true. cbv iota.
  unfold after_frame_header, header_rx.
  destruct w as [e i l p h]. cbn [env uart_in log page_calls hboot].
  unfold BOOT_HandleGetInfo, W25Q128_ReadID, W25Q128_ReadJEDECID, CS_LOW, CS_HIGH,
    HAL_GPIO_WritePin, HAL_SPI_Transmit, HAL_SPI_Receive, BOOT_SendResponse,
    BOOT_SendData, HAL_UART_Transmit, bind, ret, emit, step.
  cbn [env uart_in log page_calls hboot fst snd].
  repeat (match goal with
          | |- context [spi_ok e ?s] => destruct (spi_ok e s)
          | |- context [uart_tx_ok e ?s] => destruct (uart_tx_ok e s)
          end;
          cbn [negb env uart_in log page_calls hboot fst snd]).
  all: eexists; split; [rewrite <- !app_assoc; cbn [app]; reflexivity|];
    split; [reflexivity|]; split; [reflexivity|]; cbn [spi_failed existsb negb orb].
  all: first
         [ eexists (_ :: _ :: _ :: _ :: _ :: _ :: _ :: [_]), _, _, _;
           split; [reflexivity|]; split; reflexivity
         | eexists [_], _, _; split; [reflexivity|]; split; reflexivity
         | eexists [_; _], _, _; split; [reflexivity|]; split; reflexivity
         | eexists [_; _; _; _; _], _, _; split; [reflexivity|]; split; reflexivity
         | eexists [_; _; _; _; _; _], _, _; split; [reflexivity|]; split; reflexivity ].
Qed.

Lemma GET_INFO_gives_up_at_the_first_failed_transfer_witness :
  exists evs,
    log (exec (BOOT_Process 1)
           (fresh_world dead_spi_env
              [BOOT_START_MARKER1; BOOT_START_MARKER2; BOOT_CMD_GET_INFO]))
    = [] ++ header_rx BOOT_CMD_GET_INFO ++ evs
    /\ fst (BOOT_Process 1
              (fresh_world dead_spi_env
                 [BOOT_START_MARKER1; BOOT_START_MARKER2; BOOT_CMD_GET_INFO]))
       = Some tt
    /\ uart_in (exec (BOOT_Process 1)
                  (fresh_world dead_spi_env
                     [BOOT_START_MARKER1; BOOT_START_MARKER2; BOOT_CMD_GET_INFO]))
       = []
    /\ if spi_failed evs
       then exists pre ev ok,
              evs = pre ++ [ev; GPIO_CS true; UART_TX [BOOT_NACK] ok]
              /\ spi_failed pre = false
              /\ spi_failed [ev] = true
       else exists pre info ok1 ok2,
              evs = pre ++ [UART_TX [BOOT_ACK] ok1; UART_TX info ok2]
              /\ length info = 13%nat
              /\ uart_sent pre = [].
Proof.
  apply (GET_INFO_gives_up_at_the_first_failed_transfer 1
           (fresh_world dead_spi_env
              [BOOT_START_MARKER1; BOOT_START_MARKER2; BOOT_CMD_GET_INFO]) []).
  reflexivity.
Defined.

(** X17.  The deadline of the busy wait is a 32-bit sum.  When the wait
    starts with the tick in the last five seconds before it wraps
    (4294962296 or more), the deadline [tick + 5000] wraps to a value
    below 5000, and the first check after the first status read, made
    before the tick itself has wrapped, finds the tick past it: the wait
    returns [W25Q128_TIMEOUT] after one poll whatever the status register
    said, idle included. *)
Theorem busy_wait_times_out_before_tick_wrap (fuel : nat) (w : World) :
  spi_sound (env w) ->
  4294962296 <= u32 (clock (env w) (step w)) ->
  u32 (clock (env w) (step w)) <= u32 (clock (env w) (step w + 5)) ->
  exists st,
    W25Q128_WaitForWriteEnd (S fuel) w
    = (Some W25Q128_TIMEOUT,
       mkWorld (env w) (uart_in w)
         (log w
          ++ idle_wait (u32 (clock (env w) (step w))) st
               (u32 (clock (env w) (step w + 5))))
         (page_calls w) (hboot w)).
Proof.
  destruct w as [e i l p h]. unfold step. cbn [env uart_in log page_calls hboot].
  intros Hs Hzone Hlater. unfold spi_sound in Hs.
  unfold W25Q128_WaitForWriteEnd. unfold bind at 1. rewrite HAL_GetTick_run.
  cbn [W25Q128_WaitForWriteEnd_loop]. unfold bind at 1.
  unfold W25Q128_ReadStatusRegister, CS_LOW, CS_HIGH, HAL_GPIO_WritePin,
    HAL_SPI_Transmit, HAL_SPI_Receive, bind, ret, emit, step.
  cbn [env uart_in log page_calls hboot fst snd].
  repeat (rewrite Hs; cbn [negb env uart_in log page_calls hboot fst snd is_OK]).
  rewrite HAL_GetTick_run.
  match goal with
  | |- context [clock e (length ?l1)] =>
      lazymatch l1 with
      | l => fail
      | _ => replace (length l1) with (length l + 5)%nat
               by (rewrite !length_app; cbn [length]; lia)
      end
  end.
  assert (Hd : forall t, 4294962296 <= t < 4294967296 ->
                         u32 (t + 5000) = t + 5000 - 4294967296).
  { intros t Ht. unfold u32. symmetry.
    apply (Z.mod_unique _ _ 1); [left; lia | lia]. }
  assert (B : 0 <= u32 (clock e (length l)) < 4294967296)
    by (apply Z.mod_pos_bound; reflexivity).
  replace (u32 (clock e (length l + 5)) >? u32 (u32 (clock e (length l)) + 5000))
    with true by (symmetry; apply Z.gtb_lt; rewrite Hd; lia).
  eexists. unfold idle_wait, status_read_ok.
  rewrite <- !app_assoc. cbn [app map seq Z.to_nat Pos.to_nat Pos.iter_op Nat.add nth].
  reflexivity.
Qed.

Lemma busy_wait_times_out_before_tick_wrap_witness :
  exists st,
    W25Q128_WaitForWriteEnd 1
      (fresh_world
         (mkEnv (fun _ => true) (fun _ _ => 0) (fun _ => true)
            (fun s => 4294966296 + Z.of_nat s)) [])
    = (Some W25Q128_TIMEOUT,
       mkWorld
         (mkEnv (fun _ => true) (fun _ _ => 0) (fun _ => true)
            (fun s => 4294966296 + Z.of_nat s))
         []
         ([] ++ idle_wait 4294966296 st 4294966301)
         [] (mkBoot (repeat 0 (Z.to_nat BOOT_BUFFER_SIZE)) 0 0)).
Proof.
  apply (busy_wait_times_out_before_tick_wrap 0
           (fresh_world
              (mkEnv (fun _ => true) (fun _ _ => 0) (fun _ => true)
                 (fun s => 4294966296 + Z.of_nat s)) [])).
  - intro s. reflexivity.
  - vm_compute. discriminate.
  - vm_compute. discriminate.
Defined.

(* ================================================================== *)
(** ** The payload of a WRITE frame *)

Lemma blocks_of_256_small (n : nat) :
  (0 < n <= 256)%nat -> blocks_of_256 n = [n].
Proof.
  intro H. unfold blocks_of_256.
  destruct (Nat.eq_dec n 256) as [->|Hne]; [reflexivity|].
  rewrite Nat.div_small, Nat.mod_small by lia.
  destruct (Nat.eqb_spec n 0); [lia | reflexivity].
Qed.

Lemma blocks_of_256_step (m : nat) :
  blocks_of_256 (256 + m) = 256%nat :: blocks_of_256 m.
Proof.
  unfold blocks_of_256.
  replace (256 + m)%nat with (m + 1 * 256)%nat by lia.
  rewrite Nat.div_add, Nat.Div0.mod_add by lia.
  rewrite Nat.add_comm. reflexivity.
Qed.

Lemma BOOT_ReceivePayload_blocks (n : nat) :
  forall (payload acc rest : list Z) e l p h,
    (length payload <= n)%nat ->
    exists rx,
      BOOT_ReceivePayload n acc (Z.of_nat (length payload))
        (mkWorld e (payload ++ rest) l p h)
      = (Some (Some (acc ++ map u8 payload)), mkWorld e rest (l ++ rx) p h)
      /\ rx_data rx = map u8 payload
      /\ rx_sizes rx = blocks_of_256 (length payload)
      /\ uart_sent rx = [].
Proof.
  induction n as [|n IH]; intros payload acc rest e l p h Hn.
  - destruct payload as [|b payload]; [|cbn [length] in Hn; lia].
    exists []. cbn. rewrite !app_nil_r. auto.
  - destruct payload as [|b payload].
    { exists []. cbn. rewrite !app_nil_r. auto. }
    set (pl := b :: payload) in *.
    assert (Hpos : (0 < length pl)%nat) by (subst pl; cbn [length]; lia).
    cbn [BOOT_ReceivePayload].
    replace (Z.of_nat (length pl) >? 0) with true by (symmetry; apply Z.gtb_lt; lia).
    unfold BOOT_BUFFER_SIZE, BOOT_ReceiveData.
    destruct (Z.gtb_spec (Z.of_nat (length pl)) 256) as [Hbig|Hsmall].
    + unfold bind at 1.
      replace (pl ++ rest) with (firstn 256 pl ++ skipn 256 pl ++ rest)
        by (rewrite app_assoc, firstn_skipn; reflexivity).
      rewrite uart_receive_enough
        by (rewrite length_firstn; change (Z.to_nat (u16 256)) with 256%nat; lia).
      replace (Z.of_nat (length pl) - 256)
        with (Z.of_nat (length (skipn 256 pl))) by (rewrite length_skipn; lia).
      destruct (IH (skipn 256 pl) (acc ++ map u8 (firstn 256 pl)) rest e
                  (l ++ [UART_RX (map u8 (firstn 256 pl)) true]) p h)
        as [rx [E [D [Sz U]]]].
      { rewrite length_skipn. lia. }
      exists (UART_RX (map u8 (firstn 256 pl)) true :: rx).
      split; [|split; [|split]].
      * rewrite E. rewrite <- !app_assoc, <- map_app, firstn_skipn. reflexivity.
      * cbn [rx_data]. rewrite D, <- map_app, firstn_skipn. reflexivity.
      * cbn [rx_sizes]. rewrite Sz, length_map, length_firstn, length_skipn.
        replace (Nat.min 256 (length pl)) with 256%nat by lia.
        replace (length pl) with (256 + (length pl - 256))%nat at 2 by lia.
        rewrite blocks_of_256_step. reflexivity.
      * cbn [uart_sent]. exact U.
    + unfold bind at 1.
      replace (pl ++ rest) with (pl ++ [] ++ rest) by reflexivity.
      rewrite uart_receive_enough by (rewrite u16_small, Nat2Z.id by lia; reflexivity).
      rewrite Z.sub_diag.
      destruct n as [|n']; cbn [BOOT_ReceivePayload Z.gtb Z.compare];
        unfold ret; cbn [app];
        (exists [UART_RX (map u8 pl) true];
         split; [reflexivity|];
         split; [cbn [rx_data]; apply app_nil_r|];
         split; [cbn [rx_sizes]; rewrite length_map, blocks_of_256_small by lia;
                 reflexivity
                | reflexivity]).
Qed.

(** X18.  The payload loop of the WRITE handler.  A payload of [n] bytes
    that has arrived is taken off the line in receives of 256 bytes,
    the last one shorter when [n] is not a multiple of 256, and nothing
    more is taken; the bytes are stored in the order received, and
    nothing is transmitted meanwhile. *)
Theorem payload_is_received_in_blocks_of_256 (w : World) (payload rest : list Z) :
  uart_in w = payload ++ rest ->
  exists rx,
    BOOT_ReceivePayload (length payload) [] (Z.of_nat (length payload)) w
    = (Some (Some (map u8 payload)),
       mkWorld (env w) rest (log w ++ rx) (page_calls w) (hboot w))
    /\ rx_data rx = map u8 payload
    /\ rx_sizes rx = blocks_of_256 (length payload)
    /\ uart_sent rx = [].
Proof.
  destruct w as [e i l p h]. cbn [env uart_in log page_calls hboot]. intros ->.
  destruct (BOOT_ReceivePayload_blocks (length payload) payload [] rest e l p h
              (le_n _)) as [rx [E H]].
  exists rx. split; [exact E | exact H].
Qed.

Lemma payload_is_received_in_blocks_of_256_witness :
  exists rx,
    BOOT_ReceivePayload (length (repeat 0x5A 600)) []
      (Z.of_nat (length (repeat 0x5A 600)))
      (fresh_world quiet_env (repeat 0x5A 600 ++ [0x01]))
    = (Some (Some (map u8 (repeat 0x5A 600))),
       mkWorld quiet_env [0x01] ([] ++ rx) []
         (mkBoot (repeat 0 (Z.to_nat BOOT_BUFFER_SIZE)) 0 0))
    /\ rx_data rx = map u8 (repeat 0x5A 600)
    /\ rx_sizes rx = blocks_of_256 (length (repeat 0x5A 600))
    /\ uart_sent rx = [].
Proof.
  apply (payload_is_received_in_blocks_of_256
           (fresh_world quiet_env (repeat 0x5A 600 ++ [0x01]))
           (repeat 0x5A 600) [0x01]).
  reflexivity.
Defined.

(* ================================================================== *)
(** ** Start-up of the driver *)

(** X19.  [W25Q128_Init] deselects the flash, waits 100 ms and sends the
    release-power-down command once.  It returns in every case and
    reports nothing: when the transfer fails, the only difference is
    that the 1 ms settling delay is skipped, so a bus that does not work
    goes unnoticed at start-up. *)
Theorem W25Q128_Init_reports_nothing (w : World) :
  exists ok,
    W25Q128_Init w
    = (Some tt,
       mkWorld (env w) (uart_in w)
         (log w
          ++ [GPIO_CS true; DELAY 100; GPIO_CS false;
              SPI_TX [W25Q128_CMD_RELEASE_POWER_DOWN] ok; GPIO_CS true]
          ++ (if ok then [DELAY 1] else []))
         (page_calls w) (hboot w)).
Proof.
  destruct w as [e i l p h]. cbn [env uart_in log page_calls hboot].
  unfold W25Q128_Init, W25Q128_WakeUp, CS_LOW, CS_HIGH, HAL_GPIO_WritePin,
    HAL_SPI_Transmit, HAL_Delay, bind, ret, emit, step.
  cbn [env uart_in log page_calls hboot fst snd].
  match goal with
  | |- context [spi_ok e ?s] => exists (spi_ok e s); destruct (spi_ok e s)
  end;
    cbn [negb env uart_in log page_calls hboot fst snd];
    rewrite <- !app_assoc; reflexivity.
Qed.
